(** * Ride the Bus: the multiplayer room server

    A shallow embedding of the WebSocket room server (the deck module and
    the server module of the repository) and the properties its
    specification states about it.

    Conventions of the embedding.
    - JavaScript objects that are shared by reference (Room, Player) live
      in a store, [roomObjs] and [playerObjs]; an address is an index into
      it and objects are never freed. [Room.players], the [players] map
      and the closures of a connection hold addresses, so a mutation
      through one alias is seen through all the others. An address the
      code holds always points at an object; where the embedding has to
      say what happens otherwise, the state is left as it is.
    - The three global [Map]s are finite maps and [roomListConnections]
      is a finite set. Where the code enumerates [rooms] (the [roomsList]
      payload, the idle sweep) the embedding enumerates its entries by
      rising address, [entries]: a Room is put into the map only when it
      is made, at the address after all those in use, so this is the
      insertion order of the [Map].
    - A socket is a number; its [readyState] lives in [sockets].
    - Calls on the transport ([ws.send], [ws.close]) are appended to the
      trace [sent]; console output is left out.
    - [Date.now()] is read once per event and [Math.random()] is an
      oracle handed to the event. *)

From Stdlib Require Import ZArith Lia.
From stdpp Require Import base option list sorting strings pretty gmap.

Open Scope string_scope.
Open Scope list_scope.
Open Scope Z_scope.

(** ** The deck module *)

Inductive Suit := hearts | diamonds | clubs | spades.

#[global] Instance Suit_eq_dec : EqDecision Suit.
Proof. solve_decision. Defined.

(** The suit of a card is one of four string literals. *)
Definition suitName (s : Suit) : string :=
  match s with
  | hearts => "hearts"
  | diamonds => "diamonds"
  | clubs => "clubs"
  | spades => "spades"
  end.

Record Card := mkCard { suit : Suit; value : Z }.

#[global] Instance Card_eq_dec : EqDecision Card.
Proof. solve_decision. Defined.

(** [Math.floor(Math.random() * (i + 1))] for the loop index [i]: the
    oracle yields a natural number, reduced into [0..i]. *)
Definition Rand := nat → nat.

Definition randomIndex (rnd : Rand) (i : nat) : nat := (rnd i mod (i + 1))%nat.

(** [[cards[i], cards[j]] = [cards[j], cards[i]]]: the right-hand side is
    read first, then [cards[i]] and [cards[j]] are written in that order. *)
Definition swap (cards : list Card) (i j : nat) : list Card :=
  match cards !! i, cards !! j with
  | Some ci, Some cj => <[j:=ci]> (<[i:=cj]> cards)
  | _, _ => cards
  end.

(** The body of [shuffle]'s loop, for [i] counting down while [i > 0]. *)
Fixpoint shuffleFrom (rnd : Rand) (i : nat) (cards : list Card) : list Card :=
  match i with
  | O => cards
  | S i' => shuffleFrom rnd i' (swap cards i (randomIndex rnd i))
  end.

Definition shuffle (rnd : Rand) (cards : list Card) : list Card :=
  shuffleFrom rnd (length cards - 1) cards.

Definition suits : list Suit := [hearts; diamonds; clubs; spades].

Definition values : list Z := [1; 2; 3; 4; 5; 6; 7; 8; 9; 10; 11; 12; 13].

(** The deck [reset] builds before shuffling: suit by suit, value 1 to 13. *)
Definition freshCards : list Card :=
  flat_map (λ s, map (mkCard s) values) suits.

Definition reset (rnd : Rand) : list Card := shuffle rnd freshCards.

#[global] Arguments freshCards : simpl never.

(** [this.cards.pop() || null]: the top of the deck is the end of the array. *)
Definition draw (cards : list Card) : option Card * list Card :=
  (last cards, removelast cards).

(** ** The server: guess evaluation *)

Inductive Stage := red_black | higher_lower | inside_outside | suit_stage.

#[global] Instance Stage_eq_dec : EqDecision Stage.
Proof. solve_decision. Defined.

(** [card.suit === s], a comparison of strings. *)
Definition suitIs (card : Card) (s : string) : bool :=
  String.eqb (suitName (suit card)) s.

Definition checkGuess (guess : string) (currentCard nextCard : Card) : bool :=
  if String.eqb guess "red" then
    suitIs nextCard "hearts" || suitIs nextCard "diamonds"
  else if String.eqb guess "black" then
    suitIs nextCard "clubs" || suitIs nextCard "spades"
  else if String.eqb guess "higher" then
    value nextCard >? value currentCard
  else if String.eqb guess "lower" then
    value nextCard <? value currentCard
  else if String.eqb guess "inside" then
    Z.abs (value nextCard - value currentCard) <=? 3
  else if String.eqb guess "outside" then
    Z.abs (value nextCard - value currentCard) >? 3
  else
    suitIs nextCard guess.

(** A stage or [null]. *)
Definition getNextStage (currentStage : option Stage) : option Stage :=
  match currentStage with
  | Some red_black => Some higher_lower
  | Some higher_lower => Some inside_outside
  | Some inside_outside => Some suit_stage
  | Some suit_stage => None
  | None => None
  end.

(** ** The server: data *)

(** [ErrorCodes] *)
Definition MISSING_PARAMS : Z := 4000.
Definition DUPLICATE_CONNECTION : Z := 4001.
Definition INVALID_ROOM : Z := 4002.
Definition INTERNAL_ERROR : Z := 4003.

Inductive ReadyState := CONNECTING | OPEN | CLOSING | CLOSED.

#[global] Instance ReadyState_eq_dec : EqDecision ReadyState.
Proof. solve_decision. Defined.

(** Sockets and the addresses of Room and Player objects are numbers. *)
Abbreviation Ws := nat.
Abbreviation Addr := nat.

Module Player.
Record t := mk {
  name : string;
  score : Z;
  ws : Ws;
  roomId : string;
  connectionTime : Z }.

Definition setScore (v : Z) (p : t) : t :=
  mk (name p) v (ws p) (roomId p) (connectionTime p).
End Player.

Module Room.
Record t := mk {
  id : string;
  players : list Addr;
  deck : list Card;
  currentCard : option Card;
  stage : option Stage;
  isGameStarted : bool;
  createdAt : Z;
  lastActivity : Z;
  creator : string }.

Definition setPlayers (v : list Addr) (r : t) : t :=
  mk (id r) v (deck r) (currentCard r) (stage r) (isGameStarted r)
     (createdAt r) (lastActivity r) (creator r).
Definition setDeck (v : list Card) (r : t) : t :=
  mk (id r) (players r) v (currentCard r) (stage r) (isGameStarted r)
     (createdAt r) (lastActivity r) (creator r).
Definition setCurrentCard (v : option Card) (r : t) : t :=
  mk (id r) (players r) (deck r) v (stage r) (isGameStarted r)
     (createdAt r) (lastActivity r) (creator r).
Definition setStage (v : option Stage) (r : t) : t :=
  mk (id r) (players r) (deck r) (currentCard r) v (isGameStarted r)
     (createdAt r) (lastActivity r) (creator r).
Definition setIsGameStarted (v : bool) (r : t) : t :=
  mk (id r) (players r) (deck r) (currentCard r) (stage r) v
     (createdAt r) (lastActivity r) (creator r).
Definition setLastActivity (v : Z) (r : t) : t :=
  mk (id r) (players r) (deck r) (currentCard r) (stage r) (isGameStarted r)
     (createdAt r) v (creator r).
End Room.

(** The [{ name, score }] projection of a player. *)
Definition PlayerInfo : Type := string * Z.

Record RoomInfo := mkRoomInfo {
  info_id : string;
  info_players : list PlayerInfo;
  info_isGameStarted : bool;
  info_playerCount : nat;
  info_creator : string }.

(** Outbound messages, by their [type] field. [stateReply] is the answer
    to [getState]: its [type] is [gameStarted] or [waitingToStart] after
    its [isGameStarted] field. *)
Inductive ServerMsg :=
| roomsList (rooms : list RoomInfo)
| playerJoined (playerName : string) (players : list PlayerInfo)
| playerLeft (playerName : string) (players : list PlayerInfo)
| gameStarted (stage : option Stage) (currentCard : option Card)
    (players : list PlayerInfo)
| stateReply (stage : option Stage) (currentCard : option Card)
    (players : list PlayerInfo) (isGameStarted : bool)
| guessResult (playerName : string) (score : Z) (isCorrect : bool)
    (nextStage : option Stage) (currentCard : option Card)
| gameOver (winners : list string) (scores : list PlayerInfo)
| roomClosed (reason : string)
| error (code message : string)
| pong.

#[global] Instance RoomInfo_eq_dec : EqDecision RoomInfo.
Proof. solve_decision. Defined.

#[global] Instance ServerMsg_eq_dec : EqDecision ServerMsg.
Proof. solve_decision. Defined.

(** The [guess] field of a frame. [text s] is a string, which is what
    [checkGuess] declares. [unprintable] is a value whose conversion to a
    string throws, such as [{"toString": 1}]: it passes [checkGuess],
    which compares with [===] and so answers false, and the template
    literal of the log line after it throws. Any other value (a number,
    [null], an array, a field that is missing) also matches no case of
    [checkGuess] and is printed by the log line; it is handled as the
    empty string is. *)
Inductive Guess :=
| text (s : string)
| unprintable.

Coercion text : string >-> Guess.

(** Inbound frames: [unparsable] is a payload on which [JSON.parse] or
    the read of [data.type] throws, the conversion of [data.type] in the
    first log line included; otherwise the [type] field and the [guess]
    field. *)
Inductive Inbound :=
| unparsable
| json (type : string) (guess : Guess).

(** Calls on the transport. *)
Inductive Call :=
| Send (ws : Ws) (message : ServerMsg)
| Close (ws : Ws) (code : Z) (reason : string).

#[global] Instance Call_eq_dec : EqDecision Call.
Proof. solve_decision. Defined.

(** What [ws.on(...)] registered for a socket: the room-list handlers, or
    the closure of a room participant with its captured variables. *)
Inductive Listener :=
| roomListListener
| playerListener (roomId playerName : string) (room : option Addr)
    (player : Addr).

Record Server := mkServer {
  rooms : gmap string Addr;
  players : gmap Ws Addr;
  connections : gmap string Ws;
  roomListConnections : gset Ws;
  roomObjs : list Room.t;
  playerObjs : list Player.t;
  sockets : list ReadyState;
  listeners : gmap Ws Listener;
  sent : list Call }.

Definition setRooms v σ :=
  mkServer v (players σ) (connections σ) (roomListConnections σ) (roomObjs σ)
    (playerObjs σ) (sockets σ) (listeners σ) (sent σ).
Definition setPlayers v σ :=
  mkServer (rooms σ) v (connections σ) (roomListConnections σ) (roomObjs σ)
    (playerObjs σ) (sockets σ) (listeners σ) (sent σ).
Definition setConnections v σ :=
  mkServer (rooms σ) (players σ) v (roomListConnections σ) (roomObjs σ)
    (playerObjs σ) (sockets σ) (listeners σ) (sent σ).
Definition setRoomListConnections v σ :=
  mkServer (rooms σ) (players σ) (connections σ) v (roomObjs σ)
    (playerObjs σ) (sockets σ) (listeners σ) (sent σ).
Definition setRoomObjs v σ :=
  mkServer (rooms σ) (players σ) (connections σ) (roomListConnections σ) v
    (playerObjs σ) (sockets σ) (listeners σ) (sent σ).
Definition setPlayerObjs v σ :=
  mkServer (rooms σ) (players σ) (connections σ) (roomListConnections σ)
    (roomObjs σ) v (sockets σ) (listeners σ) (sent σ).
Definition setSockets v σ :=
  mkServer (rooms σ) (players σ) (connections σ) (roomListConnections σ)
    (roomObjs σ) (playerObjs σ) v (listeners σ) (sent σ).
Definition setListeners v σ :=
  mkServer (rooms σ) (players σ) (connections σ) (roomListConnections σ)
    (roomObjs σ) (playerObjs σ) (sockets σ) v (sent σ).
Definition setSent v σ :=
  mkServer (rooms σ) (players σ) (connections σ) (roomListConnections σ)
    (roomObjs σ) (playerObjs σ) (sockets σ) (listeners σ) v.

(** The server as the process starts: empty maps, no object allocated. *)
Definition initial : Server := mkServer ∅ ∅ ∅ ∅ [] [] [] ∅ [].

(** ** The server: operations *)

(** A field assignment on the Room object at [r], on the Player object
    at [p]. *)
Definition alterRoom (r : Addr) (f : Room.t → Room.t) (σ : Server) : Server :=
  setRoomObjs (alter f r (roomObjs σ)) σ.

Definition alterPlayer (p : Addr) (f : Player.t → Player.t) (σ : Server)
    : Server :=
  setPlayerObjs (alter f p (playerObjs σ)) σ.

(** [ws.readyState === WebSocket.OPEN] and [!== WebSocket.CLOSED] *)
Definition isOpen (σ : Server) (ws : Ws) : bool :=
  bool_decide (sockets σ !! ws = Some OPEN).

Definition notClosed (σ : Server) (ws : Ws) : bool :=
  bool_decide (sockets σ !! ws ≠ Some CLOSED).

(** [ws.send(JSON.stringify(message))] *)
Definition wsSend (ws : Ws) (message : ServerMsg) (σ : Server) : Server :=
  setSent (sent σ ++ [Send ws message]) σ.

(** [ws.close(code, reason)]: an open socket starts its closing handshake. *)
Definition wsClose (ws : Ws) (code : Z) (reason : string) (σ : Server)
    : Server :=
  setSent (sent σ ++ [Close ws code reason])
    (setSockets (alter (λ s, if decide (s = OPEN) then CLOSING else s) ws
                   (sockets σ)) σ).

(** The Player objects behind a player list. *)
Definition deref (σ : Server) (ps : list Addr) : list Player.t :=
  omap (λ p, playerObjs σ !! p) ps.

(** [players.map(p => ({ name: p.name, score: p.score }))] *)
Definition playerInfos (σ : Server) (ps : list Addr) : list PlayerInfo :=
  map (λ p, (Player.name p, Player.score p)) (deref σ ps).

(** One iteration of the [forEach] in [broadcastToRoom]. *)
Definition sendIfOpen (message : ServerMsg) (σ : Server) (player : Player.t)
    : Server :=
  if isOpen σ (Player.ws player) then wsSend (Player.ws player) message σ
  else σ.

Definition broadcastToRoom (r : Addr) (now : Z) (message : ServerMsg)
    (σ : Server) : Server :=
  match roomObjs σ !! r with
  | None => σ
  | Some room =>
    let σ1 := alterRoom r (Room.setLastActivity now) σ in
    foldl (sendIfOpen message) σ1 (deref σ1 (Room.players room))
  end.

(** The result of [Math.max(...scores)]: [-Infinity] on no argument. *)
Inductive Number := NegInfinity | Num (z : Z).

#[global] Instance Number_eq_dec : EqDecision Number.
Proof. solve_decision. Defined.

Definition max2 (a : Number) (z : Z) : Number :=
  match a with
  | NegInfinity => Num z
  | Num y => Num (Z.max y z)
  end.

Definition Math_max (scores : list Z) : Number := foldl max2 NegInfinity scores.

(** [room.players.filter(p => p.score === maxScore).map(p => p.name)] *)
Definition winnersOf (ps : list Player.t) : list string :=
  let maxScore := Math_max (map Player.score ps) in
  map Player.name
    (filter (λ p, Num (Player.score p) = maxScore) ps).

Definition handleGameOver (r : Addr) (now : Z) (σ : Server) : Server :=
  match roomObjs σ !! r with
  | None => σ
  | Some room =>
    let winners := winnersOf (deref σ (Room.players room)) in
    let σ1 :=
      broadcastToRoom r now
        (gameOver winners (playerInfos σ (Room.players room))) σ in
    alterRoom r
      (λ room, Room.setCurrentCard None
                 (Room.setStage None (Room.setIsGameStarted false room))) σ1
  end.

Definition roomNotFound : ServerMsg :=
  error "ROOM_NOT_FOUND" "Room no longer exists".

Definition gameNotActive : ServerMsg :=
  error "GAME_NOT_ACTIVE" "Game is not active".

Definition messageParseError : ServerMsg :=
  error "MESSAGE_PARSE_ERROR" "Could not process your request".

(** [case 'startGame'] of the message handler. *)
Definition onStartGame (ws : Ws) (room : option Addr) (now : Z) (rnd : Rand)
    (σ : Server) : Server :=
  match room with
  | None => wsSend ws roomNotFound σ
  | Some r =>
    match roomObjs σ !! r with
    | None => σ
    | Some rm =>
      if Room.isGameStarted rm then σ
      else
        let σ1 := alterRoom r (Room.setIsGameStarted true) σ in
        let σ2 := alterRoom r (Room.setDeck (reset rnd)) σ1 in
        let σ3 := alterRoom r (Room.setStage (Some red_black)) σ2 in
        let '(card, cards) := draw (reset rnd) in
        let σ4 := alterRoom r (Room.setDeck cards) σ3 in
        let σ5 := alterRoom r (Room.setCurrentCard card) σ4 in
        broadcastToRoom r now
          (gameStarted (Some red_black) card
             (playerInfos σ5 (Room.players rm))) σ5
    end
  end.

(** [case 'guess'] of the message handler; [player] is the Player object
    the connection created when it joined. On an [unprintable] guess the
    log line that follows the assignment of [room.stage] throws: the
    [catch] of the handler sends MESSAGE_PARSE_ERROR, and neither the
    broadcast nor game over is run. *)
Definition onGuess (ws : Ws) (room : option Addr) (player : Addr) (now : Z)
    (guess : Guess) (σ : Server) : Server :=
  match room with
  | None => wsSend ws roomNotFound σ
  | Some r =>
    match roomObjs σ !! r, playerObjs σ !! player with
    | Some rm, Some pl =>
      match Room.isGameStarted rm, Room.currentCard rm with
      | true, Some currentCard =>
        let '(drawn, cards) := draw (Room.deck rm) in
        let σ1 := alterRoom r (Room.setDeck cards) σ in
        match drawn with
        | None => handleGameOver r now σ1
        | Some nextCard =>
          let isCorrect :=
            match guess with
            | text s => checkGuess s currentCard nextCard
            | unprintable => false
            end in
          let σ2 :=
            if isCorrect then
              alterPlayer player
                (λ p, Player.setScore (Player.score p + 1) p) σ1
            else σ1 in
          let σ3 := alterRoom r (Room.setCurrentCard (Some nextCard)) σ2 in
          let nextStage := getNextStage (Room.stage rm) in
          let σ4 := alterRoom r (Room.setStage nextStage) σ3 in
          match guess with
          | unprintable => wsSend ws messageParseError σ4
          | text _ =>
            let score :=
              if isCorrect then Player.score pl + 1 else Player.score pl in
            let σ5 :=
              broadcastToRoom r now
                (guessResult (Player.name pl) score isCorrect nextStage
                   (Some nextCard)) σ4 in
            match nextStage with
            | None => handleGameOver r now σ5
            | Some _ => σ5
            end
          end
        end
      | _, _ => wsSend ws gameNotActive σ
      end
    | _, _ => σ
    end
  end.

(** [case 'getState'] of the message handler. *)
Definition onGetState (ws : Ws) (room : option Addr) (σ : Server) : Server :=
  match room with
  | None => wsSend ws roomNotFound σ
  | Some r =>
    match roomObjs σ !! r with
    | None => σ
    | Some rm =>
      wsSend ws
        (stateReply (Room.stage rm) (Room.currentCard rm)
           (playerInfos σ (Room.players rm)) (Room.isGameStarted rm)) σ
    end
  end.

(** [rooms.entries()], [rooms.forEach]: the entries of the map in
    insertion order, which is the order of the addresses. *)
Definition older (a b : string * Addr) : Prop := (a.2 ≤ b.2)%nat.

#[global] Instance older_dec (a b : string * Addr) : Decision (older a b).
Proof. unfold older. apply _. Defined.

Definition entries (σ : Server) : list (string * Addr) :=
  merge_sort older (map_to_list (rooms σ)).

(** The [roomsList] payload. *)
Definition roomInfoOf (σ : Server) (entry : string * Addr) : option RoomInfo :=
  room ← roomObjs σ !! entry.2;
  Some (mkRoomInfo entry.1 (playerInfos σ (Room.players room))
          (Room.isGameStarted room) (length (Room.players room))
          (Room.creator room)).

Definition sendRoomsList (ws : Ws) (σ : Server) : Server :=
  if isOpen σ ws then
    wsSend ws (roomsList (omap (roomInfoOf σ) (entries σ))) σ
  else σ.

(** [if (room) room.lastActivity = Date.now()] *)
Definition touched (room : option Addr) (now : Z) (σ : Server) : Server :=
  match room with
  | Some r => alterRoom r (Room.setLastActivity now) σ
  | None => σ
  end.

(** The message handler of a room participant. *)
Definition onPlayerMessage (ws : Ws) (room : option Addr) (player : Addr)
    (now : Z) (rnd : Rand) (payload : Inbound) (σ : Server) : Server :=
  match payload with
  | unparsable => wsSend ws messageParseError σ
  | json type guess =>
    let σ1 := touched room now σ in
    if String.eqb type "ping" then wsSend ws pong σ1
    else if String.eqb type "startGame" then onStartGame ws room now rnd σ1
    else if String.eqb type "guess" then onGuess ws room player now guess σ1
    else if String.eqb type "getState" then onGetState ws room σ1
    else σ1
  end.

(** The message handler of a room-list connection. *)
Definition onRoomListMessage (ws : Ws) (payload : Inbound) (σ : Server)
    : Server :=
  match payload with
  | unparsable => σ
  | json type _ =>
    if String.eqb type "ping" then wsSend ws pong σ
    else if String.eqb type "getRooms" then sendRoomsList ws σ
    else σ
  end.

Definition onMessage (ws : Ws) (now : Z) (rnd : Rand) (payload : Inbound)
    (σ : Server) : Server :=
  match listeners σ !! ws with
  | Some (playerListener _ _ room player) =>
    onPlayerMessage ws room player now rnd payload σ
  | Some roomListListener => onRoomListMessage ws payload σ
  | None => σ
  end.

(** [`${roomId}:${playerName}`] *)
Definition connectionKey (roomId playerName : string) : string :=
  roomId +:+ ":" +:+ playerName.

Definition handlePlayerDisconnect (ws : Ws) (now : Z) (σ : Server) : Server :=
  match players σ !! ws with
  | None => σ
  | Some p =>
    match playerObjs σ !! p with
    | None => σ
    | Some player =>
      let key := connectionKey (Player.roomId player) (Player.name player) in
      match rooms σ !! Player.roomId player with
      | None =>
        setConnections (delete key (connections σ))
          (setPlayers (delete ws (players σ)) σ)
      | Some r =>
        match roomObjs σ !! r with
        | None => σ
        | Some room =>
          let remaining :=
            filter (λ a, Player.ws <$> playerObjs σ !! a ≠ Some ws)
              (Room.players room) in
          let σ1 := alterRoom r (Room.setPlayers remaining) σ in
          let σ2 := setConnections (delete key (connections σ1)) σ1 in
          let σ3 := setPlayers (delete ws (players σ2)) σ2 in
          if bool_decide (length remaining = 0%nat) then
            setRooms (delete (Room.id room) (rooms σ3)) σ3
          else
            broadcastToRoom r now
              (playerLeft (Player.name player) (playerInfos σ3 remaining)) σ3
        end
      end
    end
  end.

(** [CLEANUP_INTERVAL] is the period of the sweep; [ROOM_TIMEOUT] its
    threshold, both in milliseconds. *)
Definition CLEANUP_INTERVAL : Z := 5 * 60 * 1000.
Definition ROOM_TIMEOUT : Z := 30 * 60 * 1000.

(** The body of the sweep for one entry of [rooms]. *)
Definition sweepRoom (now : Z) (σ : Server) (entry : string * Addr) : Server :=
  match roomObjs σ !! entry.2 with
  | None => σ
  | Some room =>
    if now - Room.lastActivity room >? ROOM_TIMEOUT then
      let σ1 :=
        broadcastToRoom entry.2 now
          (roomClosed "Room closed due to inactivity") σ in
      let members := deref σ1 (Room.players room) in
      let σ2 :=
        foldl (λ acc player,
                 wsClose (Player.ws player) INVALID_ROOM
                   "Room closed due to inactivity" acc) σ1 members in
      let σ3 :=
        foldl (λ acc player,
                 setConnections
                   (delete (connectionKey (Player.roomId player)
                              (Player.name player)) (connections acc))
                   (setPlayers (delete (Player.ws player) (players acc)) acc))
          σ2 members in
      setRooms (delete entry.1 (rooms σ3)) σ3
    else σ
  end.

Definition cleanup (now : Z) (σ : Server) : Server :=
  foldl (sweepRoom now) σ (entries σ).

(** [!param] for a query parameter: absent, or the empty string. *)
Definition missing (param : option string) : bool :=
  match param with
  | None => true
  | Some s => String.eqb s ""
  end.

(** The part of the connection handler after the duplicate check: store
    the connection, get or create the room, add the player, notify the
    room, register the handlers, send the snapshot of a game in progress. *)
Definition join (ws : Ws) (roomId playerName : string) (now : Z) (rnd : Rand)
    (σ : Server) : Server :=
  let σ1 :=
    setConnections (<[connectionKey roomId playerName := ws]> (connections σ))
      σ in
  let '(r, σ2) :=
    match rooms σ1 !! roomId with
    | None =>
      let r := length (roomObjs σ1) in
      let room :=
        Room.mk roomId [] (reset rnd) None None false now now playerName in
      (r, setRooms (<[roomId := r]> (rooms σ1))
            (setRoomObjs (roomObjs σ1 ++ [room]) σ1))
    | Some r => (r, alterRoom r (Room.setLastActivity now) σ1)
    end in
  let p := length (playerObjs σ2) in
  let player := Player.mk playerName 0 ws roomId now in
  let σ3 := setPlayerObjs (playerObjs σ2 ++ [player]) σ2 in
  let σ4 :=
    alterRoom r
      (λ room,
         Room.setPlayers
           (filter (λ a, Player.name <$> playerObjs σ3 !! a ≠ Some playerName)
              (Room.players room)) room) σ3 in
  let σ5 :=
    alterRoom r (λ room, Room.setPlayers (Room.players room ++ [p]) room) σ4 in
  let σ6 := setPlayers (<[ws := p]> (players σ5)) σ5 in
  match roomObjs σ6 !! r with
  | None => σ6
  | Some room =>
    let σ7 :=
      broadcastToRoom r now
        (playerJoined playerName (playerInfos σ6 (Room.players room))) σ6 in
    let σ8 :=
      setListeners
        (<[ws := playerListener roomId playerName (Some r) p]> (listeners σ7))
        σ7 in
    if Room.isGameStarted room then
      wsSend ws
        (gameStarted (Room.stage room) (Room.currentCard room)
           (playerInfos σ8 (Room.players room))) σ8
    else σ8
  end.

(** [wss.on('connection')] for the socket [ws] and the query parameters
    [room] and [name] of its request. *)
Definition onConnection (ws : Ws) (roomParam nameParam : option string)
    (now : Z) (rnd : Rand) (σ : Server) : Server :=
  if missing roomParam && missing nameParam then
    let σ1 := setRoomListConnections ({[ws]} ∪ roomListConnections σ) σ in
    let σ2 := sendRoomsList ws σ1 in
    setListeners (<[ws := roomListListener]> (listeners σ2)) σ2
  else
    match roomParam, nameParam with
    | Some roomId, Some playerName =>
      if missing roomParam || missing nameParam then
        wsClose ws MISSING_PARAMS "Missing room ID or player name" σ
      else
        let key := connectionKey roomId playerName in
        match connections σ !! key with
        | Some existingWs =>
          if isOpen σ existingWs then
            wsClose ws DUPLICATE_CONNECTION
              "You are already connected to this room" σ
          else
            let σ1 := setPlayers (delete existingWs (players σ)) σ in
            let σ2 := setConnections (delete key (connections σ1)) σ1 in
            let σ3 :=
              if notClosed σ2 existingWs then
                wsClose existingWs 1000 "Replaced by new connection" σ2
              else σ2 in
            join ws roomId playerName now rnd σ3
        | None => join ws roomId playerName now rnd σ
        end
    | _, _ => wsClose ws MISSING_PARAMS "Missing room ID or player name" σ
    end.

(** What reaches the server: a new socket (opened by the transport before
    the handler runs), a frame, the peer starting to close, the [close]
    and [error] events of a socket, and the two timers. *)
Inductive Event :=
| connection (roomParam nameParam : option string)
| message (ws : Ws) (payload : Inbound)
| peerClosing (ws : Ws)
| closed (ws : Ws)
| errored (ws : Ws)
| cleanupTick
| roomListTick (ws : Ws).

Definition onClose (ws : Ws) (now : Z) (σ : Server) : Server :=
  match listeners σ !! ws with
  | Some (playerListener _ _ _ _) => handlePlayerDisconnect ws now σ
  | Some roomListListener =>
    setRoomListConnections (roomListConnections σ ∖ {[ws]}) σ
  | None => σ
  end.

Definition onError (ws : Ws) (now : Z) (σ : Server) : Server :=
  match listeners σ !! ws with
  | Some (playerListener _ _ _ _) => handlePlayerDisconnect ws now σ
  | _ => σ
  end.

Definition step (e : Event) (now : Z) (rnd : Rand) (σ : Server) : Server :=
  match e with
  | connection roomParam nameParam =>
    onConnection (length (sockets σ)) roomParam nameParam now rnd
      (setSockets (sockets σ ++ [OPEN]) σ)
  | message ws payload => onMessage ws now rnd payload σ
  | peerClosing ws =>
    setSockets (alter (λ s, if decide (s = OPEN) then CLOSING else s) ws
                  (sockets σ)) σ
  | closed ws => onClose ws now (setSockets (<[ws := CLOSED]> (sockets σ)) σ)
  | errored ws => onError ws now σ
  | cleanupTick => cleanup now σ
  | roomListTick ws =>
    if bool_decide (ws ∈ roomListConnections σ) then sendRoomsList ws σ else σ
  end.

(** An environment move: the event, the clock and the random oracle. *)
Definition Move : Type := Event * Z * Rand.

Definition run (moves : list Move) (σ : Server) : Server :=
  foldl (λ acc '(e, now, rnd), step e now rnd acc) σ moves.

(** The states the server can be in between two events. *)
Inductive reachable : Server → Prop :=
| reachable_initial : reachable initial
| reachable_step σ e now rnd :
    reachable σ → reachable (step e now rnd σ).

(** ** Vocabulary of the statements *)

(** The sockets a broadcast to the player list [ps] reaches: those of its
    players that are open, in list order. *)
Definition audience (σ : Server) (ps : list Addr) : list Ws :=
  filter (λ w, sockets σ !! w = Some OPEN) (map Player.ws (deref σ ps)).

Definition broadcastCalls (σ : Server) (ps : list Addr) (m : ServerMsg)
    : list Call :=
  map (λ w, Send w m) (audience σ ps).

(** The active state of a room. *)
Definition active (room : Room.t) : Prop :=
  Room.isGameStarted room = true ∧ is_Some (Room.currentCard room).

(** [player.score++] *)
Definition scorePoint (p : Player.t) : Player.t :=
  Player.setScore (Player.score p + 1) p.

(** The six tokens [checkGuess] has a case for. *)
Definition keywords : list string :=
  ["red"; "black"; "higher"; "lower"; "inside"; "outside"].

(** The guess table of the specification, section 4.3a, read literally:
    a tie on rank is correct for [higher] and for [lower]. *)
Definition tableCorrect (guess : string) (prev next : Card) : Prop :=
  if decide (guess = "red") then suit next = hearts ∨ suit next = diamonds
  else if decide (guess = "black") then suit next = clubs ∨ suit next = spades
  else if decide (guess = "higher") then
    value next > value prev ∨ value next = value prev
  else if decide (guess = "lower") then
    value next < value prev ∨ value next = value prev
  else if decide (guess = "inside") then
    Z.abs (value next - value prev) ≤ 3
  else if decide (guess = "outside") then
    Z.abs (value next - value prev) > 3
  else suitName (suit next) = guess.

(** The state after a guess that drew a card, before the game-over check. *)
Definition guessed (σ : Server) (r p : Addr) (rm : Room.t) (pl : Player.t)
    (cards : list Card) (next : Card) (isCorrect : bool) (now : Z) : Server :=
  let pl' := if isCorrect then scorePoint pl else pl in
  let nextStage := getNextStage (Room.stage rm) in
  setSent
    (sent σ ++ broadcastCalls σ (Room.players rm)
       (guessResult (Player.name pl) (Player.score pl') isCorrect nextStage
          (Some next)))
    (setPlayerObjs (<[p:=pl']> (playerObjs σ))
       (setRoomObjs
          (<[r:=Room.mk (Room.id rm) (Room.players rm) cards (Some next)
                  nextStage true (Room.createdAt rm) now (Room.creator rm)]>
             (roomObjs σ)) σ)).

(** The number of guesses a round has seen when it is in a stage. *)
Definition stageIndex (s : Stage) : nat :=
  match s with
  | red_black => 0
  | higher_lower => 1
  | inside_outside => 2
  | suit_stage => 3
  end.

(** A room that is not started holds no card and no stage. A started
    room holds a current card; while it is in one of the four stages its
    deck has lost the first card of the round and one card for each
    guess; it can be left without a stage by a guess whose log line
    threw, and then at least five cards are gone. *)
Definition roomInv (rm : Room.t) : Prop :=
  if Room.isGameStarted rm then
    ∃ c, Room.currentCard rm = Some c
         ∧ match Room.stage rm with
           | Some s => length (Room.deck rm) = (51 - stageIndex s)%nat
           | None => (length (Room.deck rm) ≤ 47)%nat
           end
  else Room.currentCard rm = None ∧ Room.stage rm = None.

Definition roomsOk (σ : Server) : Prop := Forall roomInv (roomObjs σ).

(** What a Room object keeps from one state to a later one when nothing
    is admitted in between: the fields it was made with, and a player list
    that can only have lost members. Likewise for a Player object, whose
    score alone is ever assigned, and never to less. *)
Definition roomKept (a b : Room.t) : Prop :=
  Room.id b = Room.id a ∧ Room.creator b = Room.creator a
  ∧ Room.createdAt b = Room.createdAt a
  ∧ sublist (Room.players b) (Room.players a).

Definition playerKept (a b : Player.t) : Prop :=
  Player.name b = Player.name a ∧ Player.ws b = Player.ws a
  ∧ Player.roomId b = Player.roomId a
  ∧ Player.connectionTime b = Player.connectionTime a
  ∧ Player.score a ≤ Player.score b.

(** A call on the transport other than the send of ROOM_NOT_FOUND. *)
Definition answers (c : Call) : Prop :=
  match c with
  | Send _ (error code _) => code ≠ "ROOM_NOT_FOUND"
  | _ => True
  end.

(** [frame σ τ]: from [σ] to [τ] nothing was admitted. The maps and the
    set of watchers have at most lost entries, no handler was registered,
    no object was allocated, no socket was accepted and none was opened,
    and the trace has grown by calls that are not ROOM_NOT_FOUND. *)
Record frame (σ τ : Server) : Prop := mkFrame {
  frame_rooms : rooms τ ⊆ rooms σ;
  frame_players : players τ ⊆ players σ;
  frame_connections : connections τ ⊆ connections σ;
  frame_watchers : roomListConnections τ ⊆ roomListConnections σ;
  frame_listeners : listeners τ = listeners σ;
  frame_roomObjs : Forall2 roomKept (roomObjs σ) (roomObjs τ);
  frame_playerObjs : Forall2 playerKept (playerObjs σ) (playerObjs τ);
  frame_sockets : length (sockets τ) = length (sockets σ);
  frame_open : ∀ ws, sockets τ !! ws = Some OPEN → sockets σ !! ws = Some OPEN;
  frame_sent : ∃ extra, sent τ = sent σ ++ extra ∧ Forall answers extra }.

(** The captured variables of a handler: the room and the player of the
    closure are live objects, the ones the request named. *)
Definition listenerOk (σ : Server) (ws : Ws) (l : Listener) : Prop :=
  match l with
  | roomListListener => True
  | playerListener roomId playerName room player =>
    ∃ r rm pl,
      room = Some r ∧ roomObjs σ !! r = Some rm ∧ Room.id rm = roomId
      ∧ playerObjs σ !! player = Some pl ∧ Player.name pl = playerName
      ∧ Player.ws pl = ws ∧ Player.roomId pl = roomId
  end.

(** The player list of a room: live Player objects made for this room,
    no two of the same name. *)
Definition rosterOk (σ : Server) (rm : Room.t) : Prop :=
  Forall (λ a, ∃ pl, playerObjs σ !! a = Some pl
                     ∧ Player.roomId pl = Room.id rm) (Room.players rm)
  ∧ NoDup (map Player.name (deref σ (Room.players rm))).

(** The shape of the store and the maps between two events. *)
Record wf (σ : Server) : Prop := mkWf {
  wf_rooms :
    ∀ id r, rooms σ !! id = Some r →
            ∃ rm, roomObjs σ !! r = Some rm ∧ Room.id rm = id;
  wf_players :
    ∀ ws p, players σ !! ws = Some p →
            ∃ pl, playerObjs σ !! p = Some pl ∧ Player.ws pl = ws;
  wf_sockets :
    Forall (λ pl, (Player.ws pl < length (sockets σ))%nat) (playerObjs σ);
  wf_watchers :
    ∀ ws, ws ∈ roomListConnections σ → (ws < length (sockets σ))%nat;
  wf_listeners :
    ∀ ws l, listeners σ !! ws = Some l →
            (ws < length (sockets σ))%nat ∧ listenerOk σ ws l;
  wf_rosters : Forall (rosterOk σ) (roomObjs σ);
  wf_sent : Forall answers (sent σ) }.

(** ** Scenarios *)

(** Alice creates room ABC123 and Bob joins it; then Alice starts the
    game. *)
Definition lobby : Server :=
  run [(connection (Some "ABC123") (Some "Alice"), 10, λ _, 0%nat);
       (connection (Some "ABC123") (Some "Bob"), 11, λ _, 0%nat)] initial.

Definition aliceAndBob : Server :=
  step (message 0%nat (json "startGame" "")) 12 (λ _, 0%nat) lobby.

(** The lobby with a game under way: the current card is the seven of
    hearts, the nine of diamonds is on top of the deck and the three of
    clubs is under it. *)
Definition sevenOfHearts : Server :=
  setRoomObjs
    [Room.mk "ABC123" [0%nat; 1%nat]
       [mkCard spades 12; mkCard clubs 3; mkCard diamonds 9]
       (Some (mkCard hearts 7)) (Some red_black) true 10 12 "Alice"]
    lobby.

(** The same game at its last stage. *)
Definition lastStage : Server :=
  setRoomObjs
    [Room.mk "ABC123" [0%nat; 1%nat]
       [mkCard spades 12; mkCard clubs 3; mkCard diamonds 9]
       (Some (mkCard hearts 7)) (Some suit_stage) true 10 12 "Alice"]
    lobby.

(** Room b is opened, then room a. *)
Definition bThenA : Server :=
  run [(connection (Some "b") (Some "Bea"), 1, λ _, 0%nat);
       (connection (Some "a") (Some "Al"), 2, λ _, 0%nat)] initial.

(** A room in a started game whose deck is used up. *)
Definition drained : Server :=
  mkServer {["R" := 0%nat]} {[0%nat := 0%nat]} {["R:Ann" := 0%nat]} ∅
    [Room.mk "R" [0%nat] [] (Some (mkCard hearts 9)) (Some higher_lower) true
       5 6 "Ann"]
    [Player.mk "Ann" 3 0%nat "R" 5] [OPEN]
    {[0%nat := playerListener "R" "Ann" (Some 0%nat) 0%nat]} [].

(** A room of three at the moment game over runs: two of the players are
    level on the top score, one socket is closing. *)
Definition tied : Server :=
  mkServer {["R" := 0%nat]} {[0%nat := 0%nat; 1%nat := 1%nat; 2%nat := 2%nat]}
    {["R:Ann" := 0%nat; "R:Bo" := 1%nat; "R:Cy" := 2%nat]} ∅
    [Room.mk "R" [0%nat; 1%nat; 2%nat] [] (Some (mkCard spades 2)) None true
       5 6 "Ann"]
    [Player.mk "Ann" 2 0%nat "R" 5; Player.mk "Bo" 1 1%nat "R" 5;
     Player.mk "Cy" 2 2%nat "R" 5]
    [OPEN; CLOSING; OPEN]
    {[0%nat := playerListener "R" "Ann" (Some 0%nat) 0%nat;
      1%nat := playerListener "R" "Bo" (Some 0%nat) 1%nat;
      2%nat := playerListener "R" "Cy" (Some 0%nat) 2%nat]} [].

(** ** The rest of the deck module *)

(** [valueMap[this.value]]: the faces of ace, jack, queen and king. *)
Definition valueMap (v : Z) : option string :=
  if v =? 1 then Some "A"
  else if v =? 11 then Some "J"
  else if v =? 12 then Some "Q"
  else if v =? 13 then Some "K"
  else None.

(** [toUpperCase] on one ASCII character. *)
Definition toUpperCase (c : Ascii.ascii) : Ascii.ascii :=
  let n := Ascii.nat_of_ascii c in
  if bool_decide (97 ≤ n ≤ 122)%nat then Ascii.ascii_of_nat (n - 32) else c.

(** [this.suit[0].toUpperCase()] *)
Definition suitLetter (s : Suit) : string :=
  match suitName s with
  | String.String c _ => String.String (toUpperCase c) ""
  | String.EmptyString => ""
  end.

(** [Card.toString]: the face or the number, then the letter of the suit. *)
Definition toString (card : Card) : string :=
  default (pretty (value card)) (valueMap (value card))
  +:+ suitLetter (suit card).

(** [Deck.length] *)
Definition deckLength (cards : list Card) : nat := length cards.

(** A string without the colon that separates the room id from the
    player name in a connection key. *)
Fixpoint colonFree (s : string) : bool :=
  match s with
  | String.EmptyString => true
  | String.String c s' => negb (Ascii.eqb c (Ascii.ascii_of_nat 58)) && colonFree s'
  end.

(** ** The deck *)

Lemma swap_head_perm (l : list Card) (j : nat) (x b : Card) :
  l !! j = Some b → b :: <[j:=x]> l ≡ₚ x :: l.
Proof.
  revert j. induction l as [|y l IH]; intros [|j] H; simplify_eq/=.
  - apply perm_swap.
  - rewrite (perm_swap y b), (IH _ H). apply perm_swap.
Qed.

Lemma swap_perm (l : list Card) (i j : nat) : swap l i j ≡ₚ l.
Proof.
  unfold swap.
  destruct (l !! i) as [a|] eqn:Hi; [|done].
  destruct (l !! j) as [b|] eqn:Hj; [|done].
  revert i j Hi Hj. induction l as [|x l IH]; intros [|i] [|j] Hi Hj;
    simplify_eq/=; try done.
  - by apply swap_head_perm.
  - by apply swap_head_perm.
  - f_equiv. by apply IH.
Qed.

Lemma shuffleFrom_perm (rnd : Rand) (i : nat) (l : list Card) :
  shuffleFrom rnd i l ≡ₚ l.
Proof.
  revert l. induction i as [|i IH]; intros l; simpl; [done|].
  by rewrite IH, swap_perm.
Qed.

Lemma shuffle_perm (rnd : Rand) (l : list Card) : shuffle rnd l ≡ₚ l.
Proof. apply shuffleFrom_perm. Qed.

Lemma reset_perm (rnd : Rand) : reset rnd ≡ₚ freshCards.
Proof. apply shuffle_perm. Qed.

Lemma reset_length (rnd : Rand) : length (reset rnd) = 52%nat.
Proof. by rewrite (Permutation_length (reset_perm rnd)). Qed.

Lemma freshCards_NoDup : NoDup freshCards.
Proof. apply (bool_decide_unpack _). by vm_compute. Qed.

Lemma draw_snoc (cards : list Card) (c : Card) :
  draw (cards ++ [c]) = (Some c, cards).
Proof. unfold draw. by rewrite last_snoc, removelast_last. Qed.

Lemma draw_nonempty (cards : list Card) :
  cards ≠ [] → ∃ c, last cards = Some c ∧ cards = removelast cards ++ [c].
Proof.
  intros H. destruct (exists_last H) as (l & c & ->).
  exists c. by rewrite last_snoc, removelast_last.
Qed.

(** The top [n] cards of a deck that holds at least [n]. *)
Lemma deck_split (n : nat) (cards : list Card) :
  (n ≤ length cards)%nat →
  ∃ rest top, cards = rest ++ top ∧ length top = n
              ∧ length rest = (length cards - n)%nat.
Proof.
  intros H. exists (take (length cards - n) cards), (drop (length cards - n) cards).
  rewrite take_drop, length_take, length_drop. repeat split; lia.
Qed.

Lemma lookup_snoc_at {A} (l : list A) (x : A) : (l ++ [x]) !! length l = Some x.
Proof. by rewrite lookup_app_r, Nat.sub_diag by lia. Qed.

(** *** What the draws decide *)











(** From here on the shuffled deck is only known through the lemmas
    above. *)
#[global] Opaque reset.

(** ** The object store *)

Ltac setters :=
  cbn [alterRoom alterPlayer wsSend touched setRooms setPlayers setConnections
       setRoomListConnections setRoomObjs setPlayerObjs setSockets
       setListeners setSent Room.setPlayers Room.setDeck Room.setCurrentCard
       Room.setStage Room.setIsGameStarted Room.setLastActivity
       rooms players connections roomListConnections roomObjs playerObjs
       sockets listeners sent Room.id Room.players Room.deck Room.currentCard
       Room.stage Room.isGameStarted Room.createdAt Room.lastActivity
       Room.creator Player.name Player.score Player.ws Player.roomId
       Player.connectionTime Player.setScore] in *.

Lemma server_ext (σ τ : Server) :
  rooms σ = rooms τ → players σ = players τ → connections σ = connections τ →
  roomListConnections σ = roomListConnections τ → roomObjs σ = roomObjs τ →
  playerObjs σ = playerObjs τ → sockets σ = sockets τ →
  listeners σ = listeners τ → sent σ = sent τ → σ = τ.
Proof. destruct σ, τ; simpl; congruence. Qed.

Lemma room_ext (a b : Room.t) :
  Room.id a = Room.id b → Room.players a = Room.players b →
  Room.deck a = Room.deck b → Room.currentCard a = Room.currentCard b →
  Room.stage a = Room.stage b → Room.isGameStarted a = Room.isGameStarted b →
  Room.createdAt a = Room.createdAt b →
  Room.lastActivity a = Room.lastActivity b →
  Room.creator a = Room.creator b → a = b.
Proof. destruct a, b; simpl; congruence. Qed.

Ltac room_fields H :=
  cbn [getNextStage Room.id Room.players Room.deck Room.currentCard
       Room.stage Room.isGameStarted Room.createdAt Room.lastActivity
       Room.creator] in H.

(** Two server states are equal when their components are; two rooms
    likewise. *)
Ltac server_eq := apply server_ext; setters; try reflexivity.
Ltac room_eq := apply room_ext; setters; try (reflexivity || congruence).

Lemma alter_at {A} (f : A → A) (l : list A) (i : nat) (x : A) :
  l !! i = Some x → alter f i l = <[i:=f x]> l.
Proof.
  revert i. induction l as [|y l IH]; intros [|i] H; simplify_eq/=; [done|].
  f_equal. by apply IH.
Qed.

Lemma alter_insert_at {A} (f : A → A) (l : list A) (i : nat) (x : A) :
  alter f i (<[i:=x]> l) = <[i:=f x]> l.
Proof.
  revert i. induction l as [|y l IH]; intros [|i]; simpl; [done..|].
  f_equal. apply IH.
Qed.

Lemma insert_at_id {A} (l : list A) (i : nat) (x : A) :
  l !! i = Some x → <[i:=x]> l = l.
Proof. apply list_insert_id. Qed.

Lemma setScore_id (p : Player.t) : Player.setScore (Player.score p) p = p.
Proof. by destruct p. Qed.

(** A broadcast stamps the room and sends to the open sockets of its
    players, in list order; nothing else changes. *)
Lemma foldl_sendIfOpen (m : ServerMsg) (ps : list Player.t) (σ : Server) :
  foldl (sendIfOpen m) σ ps
  = setSent (sent σ ++ map (λ w, Send w m)
               (filter (λ w, sockets σ !! w = Some OPEN) (map Player.ws ps)))
      σ.
Proof.
  revert σ. induction ps as [|p ps IH]; intros σ; simpl.
  - server_eq. by rewrite app_nil_r.
  - rewrite IH. unfold sendIfOpen, isOpen. rewrite filter_cons.
    case_bool_decide; destruct (decide _); try done; server_eq.
    by rewrite <- app_assoc.
Qed.

Lemma broadcastToRoom_eq (σ : Server) (r : Addr) (rm : Room.t) (now : Z)
    (m : ServerMsg) :
  roomObjs σ !! r = Some rm →
  broadcastToRoom r now m σ
  = setSent (sent σ ++ broadcastCalls σ (Room.players rm) m)
      (setRoomObjs (<[r:=Room.setLastActivity now rm]> (roomObjs σ)) σ).
Proof.
  intros H. unfold broadcastToRoom. rewrite H, foldl_sendIfOpen.
  server_eq. apply (alter_at _ _ _ _ H).
Qed.

Lemma handleGameOver_eq (σ : Server) (r : Addr) (rm : Room.t) (now : Z) :
  roomObjs σ !! r = Some rm →
  handleGameOver r now σ
  = setSent
      (sent σ ++ broadcastCalls σ (Room.players rm)
         (gameOver (winnersOf (deref σ (Room.players rm)))
            (playerInfos σ (Room.players rm))))
      (setRoomObjs
         (<[r:=Room.mk (Room.id rm) (Room.players rm) (Room.deck rm) None None
                 false (Room.createdAt rm) now (Room.creator rm)]>
            (roomObjs σ)) σ).
Proof.
  intros H. unfold handleGameOver. rewrite H, (broadcastToRoom_eq _ _ _ _ _ H).
  server_eq. by rewrite alter_insert_at.
Qed.

Lemma lookup_insert_at {A} (l : list A) (i : nat) (x y : A) :
  l !! i = Some x → <[i:=y]> l !! i = Some y.
Proof. intros H. apply list_lookup_insert_eq. by eapply lookup_lt_Some. Qed.

(** Rewriting a player in place does not move any socket. *)
Lemma deref_ws_insert (objs : list Player.t) (p : Addr) (pl pl' : Player.t)
    (ps : list Addr) :
  objs !! p = Some pl → Player.ws pl' = Player.ws pl →
  map Player.ws (omap (λ a, <[p:=pl']> objs !! a) ps)
  = map Player.ws (omap (λ a, objs !! a) ps).
Proof.
  intros Hp Hws. induction ps as [|a ps IH]; csimpl; [done|].
  destruct (decide (p = a)) as [->|Hne].
  - rewrite (lookup_insert_at _ _ _ _ Hp), Hp. csimpl. by rewrite IH, Hws.
  - rewrite list_lookup_insert_ne by done.
    destruct (objs !! a); csimpl; by rewrite IH.
Qed.

Lemma audience_insert_player (σ : Server) (p : Addr) (pl pl' : Player.t)
    (ps : list Addr) :
  playerObjs σ !! p = Some pl → Player.ws pl' = Player.ws pl →
  audience (setPlayerObjs (<[p:=pl']> (playerObjs σ)) σ) ps = audience σ ps.
Proof.
  intros Hp Hws. unfold audience, deref. setters.
  by rewrite (deref_ws_insert _ _ _ _ _ Hp Hws).
Qed.

Lemma alterRoom_lookup (σ : Server) (r : Addr) (rm : Room.t)
    (f : Room.t → Room.t) :
  roomObjs σ !! r = Some rm → roomObjs (alterRoom r f σ) !! r = Some (f rm).
Proof.
  intros H. setters. rewrite (alter_at _ _ _ _ H).
  apply (lookup_insert_at _ _ _ _ H).
Qed.

Lemma alterRoom_eq (σ : Server) (r : Addr) (rm : Room.t)
    (f : Room.t → Room.t) :
  roomObjs σ !! r = Some rm →
  alterRoom r f σ = setRoomObjs (<[r:=f rm]> (roomObjs σ)) σ.
Proof. intros H. server_eq. apply (alter_at _ _ _ _ H). Qed.

Lemma onGuess_eq (σ : Server) (ws : Ws) (r p : Addr) (rm : Room.t)
    (pl : Player.t) (cur next : Card) (cards : list Card) (now : Z)
    (guess : string) :
  roomObjs σ !! r = Some rm → playerObjs σ !! p = Some pl →
  Room.isGameStarted rm = true → Room.currentCard rm = Some cur →
  Room.deck rm = cards ++ [next] →
  onGuess ws (Some r) p now guess σ
  = let mid := guessed σ r p rm pl cards next (checkGuess guess cur next) now in
    match getNextStage (Room.stage rm) with
    | None => handleGameOver r now mid
    | Some _ => mid
    end.
Proof.
  intros Hr Hp Hs Hc Hd. unfold onGuess.
  rewrite Hr, Hp, Hs, Hc, Hd, draw_snoc. cbv zeta.
  set (ok := checkGuess guess cur next).
  set (σ2 := if ok then alterPlayer p _ _ else _).
  assert (Hr2 : roomObjs σ2 !! r = Some (Room.setDeck cards rm)).
  { subst σ2. destruct ok; setters; rewrite (alter_at _ _ _ _ Hr);
      apply (lookup_insert_at _ _ _ _ Hr). }
  assert (Hp2 : playerObjs σ2 = <[p:=if ok then scorePoint pl else pl]>
                                   (playerObjs σ)).
  { subst σ2. destruct ok; setters.
    - apply (alter_at _ _ _ _ Hp).
    - symmetry. apply (insert_at_id _ _ _ Hp). }
  assert (Hrest : rooms σ2 = rooms σ ∧ players σ2 = players σ
                  ∧ connections σ2 = connections σ
                  ∧ roomListConnections σ2 = roomListConnections σ
                  ∧ sockets σ2 = sockets σ ∧ listeners σ2 = listeners σ
                  ∧ sent σ2 = sent σ
                  ∧ roomObjs σ2 = <[r:=Room.setDeck cards rm]> (roomObjs σ)).
  { subst σ2. destruct ok; setters; by rewrite (alter_at _ _ _ _ Hr). }
  destruct Hrest as (E1 & E2 & E3 & E4 & E5 & E6 & E7 & E8).
  clearbody σ2.
  assert (Hmid :
    broadcastToRoom r now
      (guessResult (Player.name pl)
         (if ok then Player.score pl + 1 else Player.score pl) ok
         (getNextStage (Room.stage rm)) (Some next))
      (alterRoom r (Room.setStage (getNextStage (Room.stage rm)))
         (alterRoom r (Room.setCurrentCard (Some next)) σ2))
    = guessed σ r p rm pl cards next ok now).
  { erewrite broadcastToRoom_eq;
      [|by apply alterRoom_lookup, alterRoom_lookup].
    unfold guessed, broadcastCalls.
    assert (Ha : audience
                   (alterRoom r (Room.setStage (getNextStage (Room.stage rm)))
                      (alterRoom r (Room.setCurrentCard (Some next)) σ2))
                   (Room.players rm)
                 = audience σ (Room.players rm)).
    { rewrite <- (audience_insert_player σ p pl
                   (if ok then scorePoint pl else pl) (Room.players rm) Hp)
        by (by destruct ok).
      unfold audience, deref. setters. by rewrite Hp2, E5. }
    setters. rewrite Ha.
    server_eq; try done.
    - rewrite E8, !alter_insert_at, list_insert_insert_eq. f_equal.
      room_eq.
    - rewrite E7. do 4 f_equal. by destruct ok. }
  rewrite Hmid. by destruct (getNextStage (Room.stage rm)).
Qed.

(** ** Dispatch of a participant's message *)

Lemma step_guess (σ : Server) (ws : Ws) (roomId playerName : string)
    (room : option Addr) (p : Addr) (now : Z) (rnd : Rand) (guess : string) :
  listeners σ !! ws = Some (playerListener roomId playerName room p) →
  step (message ws (json "guess" guess)) now rnd σ
  = onGuess ws room p now guess (touched room now σ).
Proof. intros H. simpl. unfold onMessage. by rewrite H. Qed.

Lemma step_startGame (σ : Server) (ws : Ws) (roomId playerName : string)
    (room : option Addr) (p : Addr) (now : Z) (rnd : Rand) (guess : string) :
  listeners σ !! ws = Some (playerListener roomId playerName room p) →
  step (message ws (json "startGame" guess)) now rnd σ
  = onStartGame ws room now rnd (touched room now σ).
Proof. intros H. simpl. unfold onMessage. by rewrite H. Qed.

Lemma touched_room (σ : Server) (r : Addr) (rm : Room.t) (now : Z) :
  roomObjs σ !! r = Some rm →
  roomObjs (touched (Some r) now σ) !! r = Some (Room.setLastActivity now rm).
Proof.
  intros H. by apply alterRoom_lookup.
Qed.

Lemma guessed_touched (σ : Server) (r p : Addr) (rm : Room.t) (pl : Player.t)
    (cards : list Card) (next : Card) (ok : bool) (now : Z) :
  roomObjs σ !! r = Some rm →
  guessed (touched (Some r) now σ) r p (Room.setLastActivity now rm) pl cards
    next ok now
  = guessed σ r p rm pl cards next ok now.
Proof.
  intros H. unfold guessed, broadcastCalls, audience, deref.
  server_eq. by rewrite (alter_at _ _ _ _ H), list_insert_insert_eq.
Qed.

Lemma handleGameOver_touched (σ : Server) (r : Addr) (rm : Room.t)
    (cards : list Card) (now : Z) :
  roomObjs σ !! r = Some rm →
  handleGameOver r now
    (alterRoom r (Room.setDeck cards) (touched (Some r) now σ))
  = handleGameOver r now (alterRoom r (Room.setDeck cards) σ).
Proof.
  intros H.
  erewrite !handleGameOver_eq;
    [|by apply alterRoom_lookup | by apply alterRoom_lookup, touched_room].
  unfold broadcastCalls, audience, playerInfos, deref.
  server_eq.
  by repeat
       (rewrite (alter_at _ _ _ _ H) || rewrite alter_insert_at
        || rewrite list_insert_insert_eq).
Qed.

Lemma step_guess_eq (σ : Server) (ws : Ws) (roomId playerName : string)
    (r p : Addr) (rm : Room.t) (pl : Player.t) (cur next : Card)
    (cards : list Card) (now : Z) (rnd : Rand) (guess : string) :
  listeners σ !! ws = Some (playerListener roomId playerName (Some r) p) →
  roomObjs σ !! r = Some rm → playerObjs σ !! p = Some pl →
  Room.isGameStarted rm = true → Room.currentCard rm = Some cur →
  Room.deck rm = cards ++ [next] →
  step (message ws (json "guess" guess)) now rnd σ
  = match getNextStage (Room.stage rm) with
    | None =>
      handleGameOver r now
        (guessed σ r p rm pl cards next (checkGuess guess cur next) now)
    | Some _ => guessed σ r p rm pl cards next (checkGuess guess cur next) now
    end.
Proof.
  intros Hl Hr Hp Hs Hc Hd.
  rewrite (step_guess _ _ _ _ _ _ _ _ _ Hl).
  rewrite (onGuess_eq _ ws r p (Room.setLastActivity now rm) pl cur next
             cards now guess); try done.
  - cbv zeta. by rewrite (guessed_touched _ _ _ _ _ _ _ _ _ Hr).
  - by apply touched_room.
Qed.

Lemma handleGameOver_playerObjs (σ : Server) (r : Addr) (now : Z) :
  playerObjs (handleGameOver r now σ) = playerObjs σ.
Proof.
  destruct (roomObjs σ !! r) as [rm|] eqn:Hr.
  - by rewrite (handleGameOver_eq _ _ _ _ Hr).
  - unfold handleGameOver. by rewrite Hr.
Qed.

Lemma step_guess_playerObjs (σ : Server) (ws : Ws) (roomId playerName : string)
    (r p : Addr) (rm : Room.t) (pl : Player.t) (cur next : Card)
    (cards : list Card) (now : Z) (rnd : Rand) (guess : string) :
  listeners σ !! ws = Some (playerListener roomId playerName (Some r) p) →
  roomObjs σ !! r = Some rm → playerObjs σ !! p = Some pl →
  Room.isGameStarted rm = true → Room.currentCard rm = Some cur →
  Room.deck rm = cards ++ [next] →
  playerObjs (step (message ws (json "guess" guess)) now rnd σ)
  = <[p:=if checkGuess guess cur next then scorePoint pl else pl]>
      (playerObjs σ).
Proof.
  intros Hl Hr Hp Hs Hc Hd.
  rewrite (step_guess_eq _ _ _ _ _ _ _ _ _ _ _ _ rnd guess Hl Hr Hp Hs Hc Hd).
  destruct (getNextStage (Room.stage rm));
    by rewrite ?handleGameOver_playerObjs.
Qed.

(** ** The guess transition *)

(** C2. In an active room whose deck is not empty, one [guess] message
    draws the top card, adds exactly one point to the sender's Player
    object when [checkGuess] accepts the guess and leaves it as it is
    otherwise, moves the stage one step along
    red_black, higher_lower, inside_outside, suit, null, makes the drawn
    card the current card and broadcasts [guessResult] with the new
    score, the next stage and the drawn card; when the next stage is
    null, [handleGameOver] runs on that state within the same step:
    [gameOver] goes out after [guessResult], with the winners and the
    scores as the guess left them, and the room is reset to waiting. *)
Theorem guess_draws_scores_and_advances (σ : Server) (ws : Ws)
    (roomId playerName : string) (r p : Addr) (rm : Room.t) (pl : Player.t)
    (now : Z) (rnd : Rand) (guess : string) :
  listeners σ !! ws = Some (playerListener roomId playerName (Some r) p) →
  roomObjs σ !! r = Some rm →
  playerObjs σ !! p = Some pl →
  active rm →
  Room.deck rm ≠ [] →
  ∃ cur next,
    Room.currentCard rm = Some cur
    ∧ draw (Room.deck rm) = (Some next, removelast (Room.deck rm))
    ∧ let isCorrect := checkGuess guess cur next in
      let score := Player.score pl + (if isCorrect then 1 else 0) in
      let nextStage := getNextStage (Room.stage rm) in
      let mid :=
        guessed σ r p rm pl (removelast (Room.deck rm)) next isCorrect now in
      roomObjs mid !! r
        = Some (Room.mk (Room.id rm) (Room.players rm)
                  (removelast (Room.deck rm)) (Some next) nextStage true
                  (Room.createdAt rm) now (Room.creator rm))
      ∧ playerObjs mid !! p = Some (Player.setScore score pl)
      ∧ (∀ q, q ≠ p → playerObjs mid !! q = playerObjs σ !! q)
      ∧ sent mid
        = sent σ ++ broadcastCalls σ (Room.players rm)
            (guessResult (Player.name pl) score isCorrect nextStage
               (Some next))
      ∧ map getNextStage
          [Some red_black; Some higher_lower; Some inside_outside;
           Some suit_stage]
        = [Some higher_lower; Some inside_outside; Some suit_stage; None]
      ∧ step (message ws (json "guess" guess)) now rnd σ
        = match nextStage with
          | None =>
            setSent
              (sent mid
               ++ broadcastCalls mid (Room.players rm)
                    (gameOver (winnersOf (deref mid (Room.players rm)))
                       (playerInfos mid (Room.players rm))))
              (setRoomObjs
                 (<[r:=Room.mk (Room.id rm) (Room.players rm)
                         (removelast (Room.deck rm)) None None false
                         (Room.createdAt rm) now (Room.creator rm)]>
                    (roomObjs mid)) mid)
          | Some _ => mid
          end
      ∧ (nextStage = None →
         step (message ws (json "guess" guess)) now rnd σ
         = handleGameOver r now mid).
Proof.
  intros Hl Hr Hp [Hs [cur Hc]] Hd.
  destruct (draw_nonempty _ Hd) as (next & Hlast & Hsplit).
  exists cur, next. split; [done|]. split; [unfold draw; by rewrite Hlast|].
  set (cards := removelast (Room.deck rm)) in *. cbv zeta.
  assert (Hscore :
    Player.setScore
      (Player.score pl + (if checkGuess guess cur next then 1 else 0)) pl
    = if checkGuess guess cur next then scorePoint pl else pl).
  { destruct (checkGuess guess cur next); [done|].
    rewrite Z.add_0_r. apply setScore_id. }
  assert (Hscore' :
    Player.score pl + (if checkGuess guess cur next then 1 else 0)
    = Player.score (if checkGuess guess cur next then scorePoint pl else pl)).
  { destruct (checkGuess guess cur next); simpl; lia. }
  rewrite Hscore, Hscore'.
  assert (Hmid :
    roomObjs (guessed σ r p rm pl cards next (checkGuess guess cur next) now)
      !! r
    = Some (Room.mk (Room.id rm) (Room.players rm) cards (Some next)
              (getNextStage (Room.stage rm)) true (Room.createdAt rm) now
              (Room.creator rm))).
  { unfold guessed. setters. apply (lookup_insert_at _ _ _ _ Hr). }
  pose proof (step_guess_eq _ _ roomId playerName _ _ _ _ cur next cards now
                rnd guess Hl Hr Hp Hs Hc Hsplit) as Hstep.
  repeat match goal with |- _ ∧ _ => split end; try done.
  - unfold guessed. setters. apply (lookup_insert_at _ _ _ _ Hp).
  - intros q Hq. unfold guessed. setters. by apply list_lookup_insert_ne.
  - rewrite Hstep. destruct (getNextStage (Room.stage rm)); [done|].
    by rewrite (handleGameOver_eq _ _ _ _ Hmid).
  - intros Hn. rewrite Hstep. by rewrite Hn.
Qed.

Lemma guess_draws_scores_and_advances_witness :
  ∃ σ', step (message 1%nat (json "guess" "diamonds")) 13 (λ _, 0%nat)
          lastStage
        = σ'
        ∧ Player.score <$> playerObjs σ' !! 1%nat = Some 1
        ∧ roomObjs σ' !! 0%nat
          = Some (Room.mk "ABC123" [0%nat; 1%nat]
                    [mkCard spades 12; mkCard clubs 3] None None false 10 13
                    "Alice")
        ∧ drop (length (sent lastStage)) (sent σ')
          = [Send 0%nat
               (guessResult "Bob" 1 true None (Some (mkCard diamonds 9)));
             Send 1%nat
               (guessResult "Bob" 1 true None (Some (mkCard diamonds 9)));
             Send 0%nat (gameOver ["Bob"] [("Alice", 0); ("Bob", 1)]);
             Send 1%nat (gameOver ["Bob"] [("Alice", 0); ("Bob", 1)])].
Proof.
  assert (H1 : listeners lastStage !! 1%nat
               = Some (playerListener "ABC123" "Bob" (Some 0%nat) 1%nat))
    by (vm_compute; reflexivity).
  assert (H2 : roomObjs lastStage !! 0%nat
               = Some (Room.mk "ABC123" [0%nat; 1%nat]
                         [mkCard spades 12; mkCard clubs 3; mkCard diamonds 9]
                         (Some (mkCard hearts 7)) (Some suit_stage) true 10 12
                         "Alice"))
    by reflexivity.
  assert (H3 : playerObjs lastStage !! 1%nat
               = Some (Player.mk "Bob" 0 1%nat "ABC123" 11))
    by (vm_compute; reflexivity).
  pose proof (guess_draws_scores_and_advances lastStage 1%nat "ABC123" "Bob"
                0%nat 1%nat _ _ 13 (λ _, 0%nat) "diamonds" H1 H2 H3) as H.
  destruct H as (cur & next & Hc & Hd & _ & _ & _ & _ & _ & Hstep & _).
  - split; [reflexivity | eexists; reflexivity].
  - discriminate.
  - eexists. split; [reflexivity|].
    rewrite Hstep. apply (f_equal fst) in Hd. vm_compute in Hc, Hd.
    injection Hc as <-. injection Hd as <-. vm_compute.
    split; [reflexivity|split; reflexivity].
Defined.

(** C3. In an active room whose deck is empty, a [guess] message is not
    answered with an error: no guess is evaluated, [handleGameOver] runs,
    [gameOver] is broadcast with the scores the players have at that
    point, and the room is back in the waiting state. *)
Theorem guess_on_empty_deck_ends_game (σ : Server) (ws : Ws)
    (roomId playerName : string) (r p : Addr) (rm : Room.t) (pl : Player.t)
    (now : Z) (rnd : Rand) (guess : string) :
  listeners σ !! ws = Some (playerListener roomId playerName (Some r) p) →
  roomObjs σ !! r = Some rm →
  playerObjs σ !! p = Some pl →
  active rm →
  Room.deck rm = [] →
  let σ' := step (message ws (json "guess" guess)) now rnd σ in
  let ps := Room.players rm in
  σ' = handleGameOver r now σ
  ∧ sent σ'
    = sent σ ++ broadcastCalls σ ps
        (gameOver (winnersOf (deref σ ps)) (playerInfos σ ps))
  ∧ (∀ w code text,
       Send w (error code text) ∉ drop (length (sent σ)) (sent σ'))
  ∧ roomObjs σ' !! r
    = Some (Room.mk (Room.id rm) ps [] None None false (Room.createdAt rm) now
              (Room.creator rm))
  ∧ playerObjs σ' = playerObjs σ.
Proof.
  intros Hl Hr Hp [Hs [cur Hc]] Hd. cbv zeta.
  assert (Hstep :
    step (message ws (json "guess" guess)) now rnd σ = handleGameOver r now σ).
  { rewrite (step_guess _ _ _ _ _ _ _ _ _ Hl). unfold onGuess.
    rewrite (touched_room _ _ _ _ Hr).
    change (playerObjs (touched (Some r) now σ)) with (playerObjs σ).
    cbn [Room.setLastActivity Room.isGameStarted Room.currentCard Room.deck].
    rewrite Hp, Hs, Hc, Hd.
    cbn [draw last removelast].
    rewrite (handleGameOver_touched σ r rm [] now Hr).
    f_equal. rewrite (alterRoom_eq _ _ _ _ Hr). server_eq.
    rewrite <- Hd. apply insert_at_id. rewrite Hr. f_equal. by room_eq. }
  rewrite Hstep, (handleGameOver_eq _ _ _ _ Hr). setters. rewrite Hd.
  repeat split.
  - intros w code text. rewrite drop_app_length. unfold broadcastCalls.
    intros Hin. apply list_elem_of_fmap in Hin as (w' & Heq & _). discriminate.
  - apply (lookup_insert_at _ _ _ _ Hr).
Qed.

Lemma guess_on_empty_deck_ends_game_witness :
  sent (step (message 0%nat (json "guess" "higher")) 7 (λ _, 0%nat) drained)
  = [Send 0%nat (gameOver ["Ann"] [("Ann", 3)])].
Proof.
  assert (H1 : listeners drained !! 0%nat
               = Some (playerListener "R" "Ann" (Some 0%nat) 0%nat))
    by (vm_compute; reflexivity).
  assert (H2 : roomObjs drained !! 0%nat
               = Some (Room.mk "R" [0%nat] [] (Some (mkCard hearts 9))
                         (Some higher_lower) true 5 6 "Ann"))
    by reflexivity.
  assert (H3 : playerObjs drained !! 0%nat
               = Some (Player.mk "Ann" 3 0%nat "R" 5)) by reflexivity.
  pose proof (guess_on_empty_deck_ends_game drained 0%nat "R" "Ann" 0%nat
                0%nat _ _ 7 (λ _, 0%nat) "higher" H1 H2 H3) as H.
  destruct H as (_ & Hsent & _).
  - split; [reflexivity | eexists; reflexivity].
  - reflexivity.
  - rewrite Hsent. vm_compute. reflexivity.
Defined.

(** ** Game over *)

Lemma Math_max_snoc (l : list Z) (x : Z) :
  Math_max (l ++ [x]) = max2 (Math_max l) x.
Proof. unfold Math_max. by rewrite foldl_app. Qed.

Lemma Math_max_spec (l : list Z) (m : Z) :
  Math_max l = Num m ↔ m ∈ l ∧ ∀ s, s ∈ l → s ≤ m.
Proof.
  revert m. induction l as [|x l IH] using rev_ind; intros m.
  - split; [discriminate|]. intros [H _]. by apply elem_of_nil in H.
  - rewrite Math_max_snoc. destruct (Math_max l) as [|y] eqn:Hy; simpl.
    + assert (l = []) as ->.
      { destruct l as [|z l _] using rev_ind; [done|].
        rewrite Math_max_snoc in Hy. by destruct (Math_max l). }
      simpl. split.
      * intros [= ->]. split; [by apply list_elem_of_singleton|].
        intros s ->%list_elem_of_singleton. lia.
      * intros [->%list_elem_of_singleton _]. done.
    + destruct (IH y) as [[Hin Hle] _]; [done|]. split.
      * intros [= <-]. split.
        -- apply elem_of_app. destruct (Z.max_spec y x) as [[_ ->]|[_ ->]].
           ++ right. by apply list_elem_of_singleton.
           ++ by left.
        -- intros s [Hs| ->%list_elem_of_singleton]%elem_of_app; [|lia].
           specialize (Hle s Hs). lia.
      * intros [Hm Hall]. f_equal.
        assert (y ≤ m) by (apply Hall, elem_of_app; by left).
        assert (x ≤ m).
        { apply Hall, elem_of_app. right. by apply list_elem_of_singleton. }
        apply elem_of_app in Hm as [Hm| ->%list_elem_of_singleton]; [|lia].
        specialize (Hle m Hm). lia.
Qed.

Lemma filter_iff_on {A} (P Q : A → Prop) `{!∀ x, Decision (P x)}
    `{!∀ x, Decision (Q x)} (l : list A) :
  (∀ x, x ∈ l → P x ↔ Q x) → filter P l = filter Q l.
Proof.
  induction l as [|x l IH]; intros Hall; [done|].
  rewrite !filter_cons.
  assert (P x ↔ Q x) as Hx by (apply Hall; left).
  rewrite IH by (intros y Hy; apply Hall; by right).
  destruct (decide (P x)), (decide (Q x)); tauto || done.
Qed.

Lemma winnersOf_spec (ps : list Player.t) :
  winnersOf ps
  = map Player.name
      (filter (λ p, Forall (λ q, Player.score q ≤ Player.score p) ps) ps).
Proof.
  unfold winnersOf. f_equal. apply filter_iff_on. intros p Hp. split.
  - intros H. symmetry in H. apply Math_max_spec in H as [_ H].
    apply Forall_forall. intros q Hq. apply H.
    apply list_elem_of_fmap. by exists q.
  - intros H. symmetry. apply Math_max_spec. split.
    + apply list_elem_of_fmap. by exists p.
    + intros s (q & -> & Hq)%list_elem_of_fmap.
      by apply (proj1 (Forall_forall _ _) H).
Qed.

Lemma onStartGame_eq (σ : Server) (ws : Ws) (r : Addr) (rm : Room.t) (now : Z)
    (rnd : Rand) :
  roomObjs σ !! r = Some rm →
  Room.isGameStarted rm = false →
  onStartGame ws (Some r) now rnd σ
  = setSent
      (sent σ ++ broadcastCalls σ (Room.players rm)
         (gameStarted (Some red_black) (last (reset rnd))
            (playerInfos σ (Room.players rm))))
      (setRoomObjs
         (<[r:=Room.mk (Room.id rm) (Room.players rm) (removelast (reset rnd))
                 (last (reset rnd)) (Some red_black) true (Room.createdAt rm)
                 now (Room.creator rm)]> (roomObjs σ)) σ).
Proof.
  intros Hr Hs. unfold onStartGame, draw. rewrite Hr, Hs.
  erewrite broadcastToRoom_eq; [|by do 5 apply alterRoom_lookup].
  unfold broadcastCalls, audience, playerInfos, deref. server_eq.
  repeat
    (rewrite (alter_at _ _ _ _ Hr) || rewrite alter_insert_at
     || rewrite list_insert_insert_eq).
  reflexivity.
Qed.

Lemma onStartGame_started (σ : Server) (ws : Ws) (r : Addr) (rm : Room.t)
    (now : Z) (rnd : Rand) :
  roomObjs σ !! r = Some rm →
  Room.isGameStarted rm = true →
  onStartGame ws (Some r) now rnd σ = σ.
Proof. intros Hr Hs. unfold onStartGame. by rewrite Hr, Hs. Qed.

(** C4. [handleGameOver] on a room: [maxScore] is the greatest score of
    the room's players, the winners are the names of all the players who
    have that score, [gameOver] with the winners and the scores is
    broadcast, and the room is reset to waiting; the Player objects, and
    so the scores, are left as they are, also by a [startGame] that
    follows. *)
Theorem game_over_names_top_scorers_and_resets (σ : Server) (r : Addr)
    (rm : Room.t) (now : Z) :
  roomObjs σ !! r = Some rm →
  let ps := deref σ (Room.players rm) in
  let σ' := handleGameOver r now σ in
  (∀ m, Math_max (map Player.score ps) = Num m
        ↔ m ∈ map Player.score ps ∧ ∀ s, s ∈ map Player.score ps → s ≤ m)
  ∧ winnersOf ps
    = map Player.name
        (filter (λ p, Forall (λ q, Player.score q ≤ Player.score p) ps) ps)
  ∧ sent σ'
    = sent σ ++ broadcastCalls σ (Room.players rm)
        (gameOver (winnersOf ps) (playerInfos σ (Room.players rm)))
  ∧ roomObjs σ' !! r
    = Some (Room.mk (Room.id rm) (Room.players rm) (Room.deck rm) None None
              false (Room.createdAt rm) now (Room.creator rm))
  ∧ playerObjs σ' = playerObjs σ
  ∧ ∀ ws now' rnd,
      let σ'' := onStartGame ws (Some r) now' rnd σ' in
      playerObjs σ'' = playerObjs σ
      ∧ roomObjs σ'' !! r
        = Some (Room.mk (Room.id rm) (Room.players rm) (removelast (reset rnd))
                  (last (reset rnd)) (Some red_black) true (Room.createdAt rm)
                  now' (Room.creator rm)).
Proof.
  intros Hr. cbv zeta.
  split; [intros m; apply Math_max_spec|].
  split; [apply winnersOf_spec|].
  rewrite (handleGameOver_eq _ _ _ _ Hr).
  pose proof (lookup_insert_at _ _ _
    (Room.mk (Room.id rm) (Room.players rm) (Room.deck rm) None None false
       (Room.createdAt rm) now (Room.creator rm)) Hr) as Hr'.
  split; [reflexivity|]. split; [exact Hr'|]. split; [reflexivity|].
  intros ws now' rnd. cbv zeta.
  erewrite onStartGame_eq; [|exact Hr'|reflexivity].
  split; [reflexivity|]. setters. rewrite list_insert_insert_eq.
  apply (lookup_insert_at _ _ _ _ Hr).
Qed.

Lemma game_over_names_top_scorers_and_resets_witness :
  sent (handleGameOver 0%nat 7 tied)
  = [Send 0%nat
       (gameOver ["Ann"; "Cy"] [("Ann", 2); ("Bo", 1); ("Cy", 2)]);
     Send 2%nat
       (gameOver ["Ann"; "Cy"] [("Ann", 2); ("Bo", 1); ("Cy", 2)])].
Proof.
  assert (H : roomObjs tied !! 0%nat
              = Some (Room.mk "R" [0%nat; 1%nat; 2%nat] []
                        (Some (mkCard spades 2)) None true 5 6 "Ann"))
    by reflexivity.
  destruct (game_over_names_top_scorers_and_resets tied 0%nat _ 7 H)
    as (_ & _ & Hsent & _).
  rewrite Hsent. vm_compute. reflexivity.
Defined.

(** ** Starting a game *)


(** The fresh deck holds every card of rank 1 to 13 and nothing else. *)
Lemma freshCards_spec (c : Card) : c ∈ freshCards ↔ 1 ≤ value c ≤ 13.
Proof.
  split.
  - revert c. apply Forall_forall. apply (bool_decide_unpack _). by vm_compute.
  - destruct c as [s v]. simpl. intros Hv.
    assert (Hcase : v = 1 ∨ v = 2 ∨ v = 3 ∨ v = 4 ∨ v = 5 ∨ v = 6 ∨ v = 7
                    ∨ v = 8 ∨ v = 9 ∨ v = 10 ∨ v = 11 ∨ v = 12 ∨ v = 13)
      by lia.
    destruct s; repeat (destruct Hcase as [->|Hcase]); try subst v;
      apply (bool_decide_unpack _); by vm_compute.
Qed.

Lemma reset_top (rnd : Rand) :
  ∃ card cards, reset rnd = cards ++ [card] ∧ length cards = 51%nat
                ∧ last (reset rnd) = Some card
                ∧ removelast (reset rnd) = cards.
Proof.
  pose proof (reset_length rnd) as Hlen.
  destruct (draw_nonempty (reset rnd)) as (c & Hlast & Hsplit).
  { intros E. by rewrite E in Hlen. }
  exists c, (removelast (reset rnd)). repeat split; try done.
  rewrite Hsplit, length_app in Hlen. simpl in Hlen. lia.
Qed.



(** ** Messages in the wrong state *)

(** C8, as the code has it. A [guess] that reaches a room with no active
    game is answered, to the sender alone, with the error
    GAME_NOT_ACTIVE; no socket is closed and nothing changes but the
    activity stamp of the room. A [startGame] that reaches a room whose
    game is started is ignored without any reply. *)
Theorem wrong_state_guess_errors_startGame_silent (σ : Server) (ws : Ws)
    (roomId playerName : string) (r p : Addr) (rm : Room.t) (pl : Player.t)
    (now : Z) (rnd : Rand) (guess : string) :
  listeners σ !! ws = Some (playerListener roomId playerName (Some r) p) →
  roomObjs σ !! r = Some rm →
  playerObjs σ !! p = Some pl →
  (¬ active rm →
   step (message ws (json "guess" guess)) now rnd σ
   = setSent (sent σ ++ [Send ws (error "GAME_NOT_ACTIVE" "Game is not active")])
       (setRoomObjs (<[r:=Room.setLastActivity now rm]> (roomObjs σ)) σ))
  ∧ (Room.isGameStarted rm = true →
     step (message ws (json "startGame" guess)) now rnd σ
     = setRoomObjs (<[r:=Room.setLastActivity now rm]> (roomObjs σ)) σ).
Proof.
  intros Hl Hr Hp. pose proof (touched_room _ _ _ now Hr) as Hr'. split.
  - intros Hna. rewrite (step_guess _ _ _ _ _ _ _ _ _ Hl). unfold onGuess.
    rewrite Hr'.
    change (playerObjs (touched (Some r) now σ)) with (playerObjs σ).
    rewrite Hp.
    cbn [Room.setLastActivity Room.isGameStarted Room.currentCard].
    assert (Hsend :
      wsSend ws gameNotActive (touched (Some r) now σ)
      = setSent (sent σ ++ [Send ws gameNotActive])
          (setRoomObjs (<[r:=Room.setLastActivity now rm]> (roomObjs σ)) σ)).
    { server_eq. apply (alter_at _ _ _ _ Hr). }
    destruct (Room.isGameStarted rm) eqn:Hs; [|exact Hsend].
    destruct (Room.currentCard rm) as [c|] eqn:Hc; [|exact Hsend].
    destruct Hna. split; [done|]. rewrite Hc. by eexists.
  - intros Hs. rewrite (step_startGame _ _ _ _ _ _ _ _ _ Hl).
    erewrite onStartGame_started; [|exact Hr'|exact Hs].
    by apply alterRoom_eq.
Qed.

Lemma wrong_state_guess_errors_startGame_silent_witness :
  sent (step (message 1%nat (json "guess" "red")) 12 (λ _, 0%nat) lobby)
  = sent lobby ++ [Send 1%nat (error "GAME_NOT_ACTIVE" "Game is not active")].
Proof.
  assert (H1 : listeners lobby !! 1%nat
               = Some (playerListener "ABC123" "Bob" (Some 0%nat) 1%nat))
    by (vm_compute; reflexivity).
  assert (H2 : roomObjs lobby !! 0%nat
               = Some (Room.mk "ABC123" [0%nat; 1%nat] (reset (λ _, 0%nat))
                         None None false 10 11 "Alice"))
    by (vm_compute; reflexivity).
  assert (H3 : playerObjs lobby !! 1%nat
               = Some (Player.mk "Bob" 0 1%nat "ABC123" 11))
    by (vm_compute; reflexivity).
  destruct (wrong_state_guess_errors_startGame_silent lobby 1%nat "ABC123"
              "Bob" 0%nat 1%nat _ _ 12 (λ _, 0%nat) "red" H1 H2 H3) as [H _].
  rewrite H; [reflexivity|]. intros [Hs _]. discriminate Hs.
Defined.

(** C8 as stated fails for [startGame]: in a started game a second
    [startGame] draws no error message, neither GAME_NOT_ACTIVE nor any
    other; the trace of the server does not grow. *)
Lemma startGame_while_started_reports_nothing :
  Room.isGameStarted <$> roomObjs aliceAndBob !! 0%nat = Some true
  ∧ sent (step (message 1%nat (json "startGame" "")) 13 (λ _, 0%nat)
            aliceAndBob)
    = sent aliceAndBob
  ∧ Send 1%nat (error "GAME_NOT_ACTIVE" "Game is not active")
    ∉ sent (step (message 1%nat (json "startGame" "")) 13 (λ _, 0%nat)
              aliceAndBob).
Proof.
  split; [vm_compute; reflexivity|]. split; [vm_compute; reflexivity|].
  apply (bool_decide_unpack _). vm_compute. reflexivity.
Qed.

(** ** Admission *)

Lemma alter_snoc {A} (f : A → A) (l : list A) (x : A) :
  alter f (length l) (l ++ [x]) = l ++ [f x].
Proof. induction l as [|y l IH]; csimpl; [done|]. by rewrite IH. Qed.

Lemma missing_Some (s : string) : s ≠ "" → missing (Some s) = false.
Proof. intros H. simpl. by apply String.eqb_neq. Qed.

(** C9. A connection for a room and a name whose key is registered to a
    socket that is still open is closed with DUPLICATE_CONNECTION; the
    registered session keeps its key, its open socket and its handlers,
    and no room, player list or player is touched. *)
Theorem duplicate_connection_is_rejected (σ : Server)
    (roomId playerName : string) (existing : Ws) (now : Z) (rnd : Rand) :
  roomId ≠ "" →
  playerName ≠ "" →
  connections σ !! connectionKey roomId playerName = Some existing →
  sockets σ !! existing = Some OPEN →
  let ws := length (sockets σ) in
  let σ' := step (connection (Some roomId) (Some playerName)) now rnd σ in
  σ' = setSent
         (sent σ ++ [Close ws DUPLICATE_CONNECTION
                       "You are already connected to this room"])
         (setSockets (sockets σ ++ [CLOSING]) σ)
  ∧ DUPLICATE_CONNECTION = 4001
  ∧ connections σ' !! connectionKey roomId playerName = Some existing
  ∧ sockets σ' !! existing = Some OPEN
  ∧ sockets σ' !! ws = Some CLOSING
  ∧ listeners σ' = listeners σ
  ∧ players σ' = players σ
  ∧ rooms σ' = rooms σ
  ∧ roomObjs σ' = roomObjs σ
  ∧ playerObjs σ' = playerObjs σ.
Proof.
  intros Hroom Hname Hkey Hopen. cbv zeta.
  assert (Hstep :
    step (connection (Some roomId) (Some playerName)) now rnd σ
    = setSent
        (sent σ ++ [Close (length (sockets σ)) DUPLICATE_CONNECTION
                      "You are already connected to this room"])
        (setSockets (sockets σ ++ [CLOSING]) σ)).
  { cbn [step]. unfold onConnection.
    rewrite (missing_Some _ Hroom), (missing_Some _ Hname).
    cbn [andb orb]. setters. rewrite Hkey.
    unfold isOpen. setters.
    rewrite (lookup_app_l_Some _ _ _ _ Hopen), bool_decide_eq_true_2 by done.
    unfold wsClose. server_eq. by rewrite alter_snoc. }
  rewrite Hstep. setters.
  split; [reflexivity|]. split; [reflexivity|]. split; [exact Hkey|].
  split; [by apply lookup_app_l_Some|].
  split; [|done].
  rewrite lookup_app_r by lia. by rewrite Nat.sub_diag.
Qed.

Lemma duplicate_connection_is_rejected_witness :
  sent (step (connection (Some "ABC123") (Some "Bob")) 12 (λ _, 0%nat) lobby)
  = sent lobby ++ [Close 2%nat 4001 "You are already connected to this room"].
Proof.
  assert (H1 : connections lobby !! connectionKey "ABC123" "Bob" = Some 1%nat)
    by (vm_compute; reflexivity).
  assert (H2 : sockets lobby !! 1%nat = Some OPEN)
    by (vm_compute; reflexivity).
  destruct (duplicate_connection_is_rejected lobby "ABC123" "Bob" 1%nat 12
              (λ _, 0%nat)) as [H _];
    [discriminate | discriminate | exact H1 | exact H2 |].
  rewrite H. vm_compute. reflexivity.
Defined.

(** ** Guess evaluation *)

Lemma suitName_inj (s t : Suit) : suitName s = suitName t → s = t.
Proof. by destruct s, t. Qed.

Lemma suitIs_true (c : Card) (s : string) :
  suitIs c s = true ↔ suitName (suit c) = s.
Proof. unfold suitIs. apply String.eqb_eq. Qed.

(** C1 as stated fails on a tie: the table of the specification counts an
    equal rank as correct for [higher], [checkGuess] does not. *)
Lemma checkGuess_rejects_a_tie :
  tableCorrect "higher" (mkCard hearts 7) (mkCard clubs 7)
  ∧ checkGuess "higher" (mkCard hearts 7) (mkCard clubs 7) = false
  ∧ tableCorrect "lower" (mkCard hearts 7) (mkCard clubs 7)
  ∧ checkGuess "lower" (mkCard hearts 7) (mkCard clubs 7) = false.
Proof.
  split; [right; reflexivity|]. split; [reflexivity|].
  split; [right; reflexivity|]. reflexivity.
Qed.

(** C1, as the code has it. [checkGuess] accepts [red] exactly on hearts
    and diamonds, [black] exactly on clubs and spades, [higher] exactly
    on a strictly greater rank, [lower] exactly on a strictly smaller
    rank, so that a tie is wrong for both, [inside] exactly when the ranks
    differ by at most 3, [outside] exactly when they differ by more, and
    a suit name exactly on a card of that suit. *)
Theorem checkGuess_table (prev next : Card) :
  (checkGuess "red" prev next = true
   ↔ suit next = hearts ∨ suit next = diamonds)
  ∧ (checkGuess "black" prev next = true
     ↔ suit next = clubs ∨ suit next = spades)
  ∧ (checkGuess "higher" prev next = true ↔ value next > value prev)
  ∧ (checkGuess "lower" prev next = true ↔ value next < value prev)
  ∧ (checkGuess "inside" prev next = true
     ↔ Z.abs (value next - value prev) ≤ 3)
  ∧ (checkGuess "outside" prev next = true
     ↔ Z.abs (value next - value prev) > 3)
  ∧ (∀ s, checkGuess (suitName s) prev next = true ↔ suit next = s)
  ∧ (∀ s s' v,
       checkGuess "higher" (mkCard s v) (mkCard s' v) = false
       ∧ checkGuess "lower" (mkCard s v) (mkCard s' v) = false).
Proof.
  repeat match goal with |- _ ∧ _ => split end; try intros s s' v;
    repeat match goal with |- _ ∧ _ => split end.
  - change (checkGuess "red" prev next)
      with (suitIs next "hearts" || suitIs next "diamonds").
    rewrite orb_true_iff, !suitIs_true. by destruct (suit next); intuition.
  - change (checkGuess "black" prev next)
      with (suitIs next "clubs" || suitIs next "spades").
    rewrite orb_true_iff, !suitIs_true. by destruct (suit next); intuition.
  - change (checkGuess "higher" prev next) with (value next >? value prev).
    rewrite Z.gtb_ltb, Z.ltb_lt. lia.
  - change (checkGuess "lower" prev next) with (value next <? value prev).
    apply Z.ltb_lt.
  - change (checkGuess "inside" prev next)
      with (Z.abs (value next - value prev) <=? 3).
    apply Z.leb_le.
  - change (checkGuess "outside" prev next)
      with (Z.abs (value next - value prev) >? 3).
    rewrite Z.gtb_ltb, Z.ltb_lt. lia.
  - intros s.
    assert (E : checkGuess (suitName s) prev next = suitIs next (suitName s))
      by (by destruct s).
    rewrite E, suitIs_true. split; [apply suitName_inj | by intros ->].
  - change (checkGuess "higher" (mkCard s v) (mkCard s' v)) with (v >? v).
    rewrite Z.gtb_ltb. apply Z.ltb_irrefl.
  - change (checkGuess "lower" (mkCard s v) (mkCard s' v)) with (v <? v).
    apply Z.ltb_irrefl.
Qed.

Lemma checkGuess_default (guess : string) (prev next : Card) :
  guess ∉ keywords → checkGuess guess prev next = suitIs next guess.
Proof.
  intros H. unfold checkGuess.
  repeat match goal with
  | |- context [String.eqb guess ?k] =>
    destruct (String.eqb_spec guess k) as [->|_];
      [exfalso; apply H; apply (bool_decide_unpack _); by vm_compute|]
  end.
  done.
Qed.

(** C10. [checkGuess] takes no stage: whatever the stage of the room, the
    sender of a guess scores exactly when [checkGuess] accepts the token
    against the current and the drawn card. A token that is none of the
    six keywords is compared with the suit of the drawn card, so [hearts]
    sent in the red_black stage scores exactly on a heart, and a token
    that is no suit name either is a wrong guess, not an error. *)
Theorem guess_is_judged_by_its_spelling_alone (σ : Server) (ws : Ws)
    (roomId playerName : string) (r p : Addr) (rm : Room.t) (pl : Player.t)
    (prev next : Card) (cards : list Card) (now : Z) (rnd : Rand)
    (guess : string) :
  listeners σ !! ws = Some (playerListener roomId playerName (Some r) p) →
  roomObjs σ !! r = Some rm →
  playerObjs σ !! p = Some pl →
  Room.isGameStarted rm = true →
  Room.currentCard rm = Some prev →
  Room.deck rm = cards ++ [next] →
  playerObjs (step (message ws (json "guess" guess)) now rnd σ) !! p
  = Some (if checkGuess guess prev next then scorePoint pl else pl)
  ∧ (guess ∉ keywords →
     (checkGuess guess prev next = true ↔ suitName (suit next) = guess)
     ∧ (guess ∉ map suitName suits → checkGuess guess prev next = false)
     ∧ ∀ w code text,
         Send w (error code text)
         ∉ drop (length (sent σ))
             (sent (step (message ws (json "guess" guess)) now rnd σ)))
  ∧ (Room.stage rm = Some red_black →
     playerObjs (step (message ws (json "guess" "hearts")) now rnd σ) !! p
     = Some (if decide (suit next = hearts) then scorePoint pl else pl)).
Proof.
  intros Hl Hr Hp Hs Hc Hd. split; [|split].
  - rewrite (step_guess_playerObjs _ _ _ _ _ _ _ _ _ _ _ _ rnd guess
               Hl Hr Hp Hs Hc Hd).
    apply (lookup_insert_at _ _ _ _ Hp).
  - intros Hk. rewrite (checkGuess_default _ _ _ Hk). split; [|split].
    + apply suitIs_true.
    + intros Hn. apply not_true_is_false. rewrite suitIs_true. intros E.
      apply Hn. rewrite <- E. apply list_elem_of_fmap. exists (suit next).
      split; [done|]. destruct (suit next); apply (bool_decide_unpack _);
        by vm_compute.
    + intros w code text.
      rewrite (step_guess_eq _ _ _ _ _ _ _ _ _ _ _ _ rnd guess
                 Hl Hr Hp Hs Hc Hd).
      assert (Hmid : ∀ s,
        roomObjs (guessed σ r p rm pl cards next s now) !! r
        = Some (Room.mk (Room.id rm) (Room.players rm) cards (Some next)
                  (getNextStage (Room.stage rm)) true (Room.createdAt rm) now
                  (Room.creator rm))).
      { intros s. unfold guessed. setters.
        apply (lookup_insert_at _ _ _ _ Hr). }
      destruct (getNextStage (Room.stage rm)) eqn:Hn.
      * unfold guessed. setters. rewrite drop_app_length.
        intros (w' & Heq & _)%list_elem_of_fmap. discriminate.
      * rewrite (handleGameOver_eq _ _ _ _ (Hmid _)). unfold guessed. setters.
        rewrite <- app_assoc, drop_app_length.
        intros [(w' & Heq & _)%list_elem_of_fmap
               |(w' & Heq & _)%list_elem_of_fmap]%elem_of_app; discriminate.
  - intros _.
    rewrite (step_guess_playerObjs _ _ _ _ _ _ _ _ _ _ _ _ rnd "hearts"
               Hl Hr Hp Hs Hc Hd).
    rewrite (lookup_insert_at _ _ _ _ Hp). f_equal.
    change (checkGuess "hearts" prev next) with (suitIs next "hearts").
    unfold suitIs. by destruct (suit next).
Qed.

Lemma guess_is_judged_by_its_spelling_alone_witness :
  Player.score
  <$> playerObjs (step (message 1%nat (json "guess" "spades")) 13 (λ _, 0%nat)
                    aliceAndBob) !! 1%nat
  = Some 1.
Proof.
  assert (H1 : listeners aliceAndBob !! 1%nat
               = Some (playerListener "ABC123" "Bob" (Some 0%nat) 1%nat))
    by (vm_compute; reflexivity).
  assert (H2 : roomObjs aliceAndBob !! 0%nat
               = Some (Room.mk "ABC123" [0%nat; 1%nat]
                         (removelast (removelast (reset (λ _, 0%nat)))
                          ++ [mkCard spades 13])
                         (Some (mkCard hearts 1)) (Some red_black) true 10 12
                         "Alice"))
    by (vm_compute; reflexivity).
  assert (H3 : playerObjs aliceAndBob !! 1%nat
               = Some (Player.mk "Bob" 0 1%nat "ABC123" 11))
    by (vm_compute; reflexivity).
  destruct (guess_is_judged_by_its_spelling_alone aliceAndBob 1%nat "ABC123"
              "Bob" 0%nat 1%nat _ _ (mkCard hearts 1) (mkCard spades 13) _ 13
              (λ _, 0%nat) "spades" H1 H2 H3 eq_refl eq_refl eq_refl)
    as [H _].
  rewrite H. reflexivity.
Defined.

(** ** The waiting invariant *)

Lemma roomsOk_same (σ τ : Server) :
  roomObjs τ = roomObjs σ → roomsOk σ → roomsOk τ.
Proof. unfold roomsOk. by intros ->. Qed.

Lemma roomsOk_alter (σ : Server) (r : Addr) (f : Room.t → Room.t) :
  (∀ rm, roomInv rm → roomInv (f rm)) → roomsOk σ → roomsOk (alterRoom r f σ).
Proof.
  intros Hf H. unfold roomsOk. setters. apply Forall_alter; [done|].
  intros rm _. apply Hf.
Qed.

Lemma roomsOk_insert (σ : Server) (r : Addr) (rm : Room.t) :
  roomInv rm → roomsOk σ → roomsOk (setRoomObjs (<[r:=rm]> (roomObjs σ)) σ).
Proof. intros Hrm H. unfold roomsOk. setters. by apply Forall_insert. Qed.

Lemma roomInv_setLastActivity (now : Z) (rm : Room.t) :
  roomInv rm → roomInv (Room.setLastActivity now rm).
Proof. done. Qed.

Lemma roomInv_setPlayers (ps : list Addr) (rm : Room.t) :
  roomInv rm → roomInv (Room.setPlayers ps rm).
Proof. done. Qed.

Lemma roomsOk_broadcast (σ : Server) (r : Addr) (now : Z) (m : ServerMsg) :
  roomsOk σ → roomsOk (broadcastToRoom r now m σ).
Proof.
  intros H. destruct (roomObjs σ !! r) as [rm|] eqn:Hr.
  - rewrite (broadcastToRoom_eq _ _ _ _ _ Hr).
    apply (roomsOk_same (setRoomObjs (<[r:=Room.setLastActivity now rm]>
                                        (roomObjs σ)) σ)); [done|].
    apply roomsOk_insert; [|done]. apply roomInv_setLastActivity.
    by apply (proj1 (Forall_lookup _ _) H r).
  - unfold broadcastToRoom. by rewrite Hr.
Qed.

Lemma roomsOk_handleGameOver (σ : Server) (r : Addr) (now : Z) :
  roomsOk σ → roomsOk (handleGameOver r now σ).
Proof.
  intros H. destruct (roomObjs σ !! r) as [rm|] eqn:Hr.
  - rewrite (handleGameOver_eq _ _ _ _ Hr).
    eapply roomsOk_same; [|apply roomsOk_insert; [|exact H]]; [done|].
    by split.
  - unfold handleGameOver. by rewrite Hr.
Qed.

(** Game over repairs the room it runs on: whatever that room was, the
    other rooms decide. *)
Lemma roomsOk_handleGameOver_at (σ τ : Server) (r : Addr) (x : Room.t)
    (now : Z) :
  roomsOk σ → roomObjs τ = <[r:=x]> (roomObjs σ) →
  roomsOk (handleGameOver r now τ).
Proof.
  intros H Hτ. destruct (roomObjs τ !! r) as [rm|] eqn:Hr.
  - rewrite (handleGameOver_eq _ _ _ _ Hr). unfold roomsOk. setters.
    rewrite Hτ, list_insert_insert_eq. apply Forall_insert; [done|].
    by split.
  - unfold handleGameOver. rewrite Hr. unfold roomsOk. rewrite Hτ.
    rewrite Hτ in Hr. apply lookup_ge_None in Hr.
    rewrite length_insert in Hr. by rewrite list_insert_ge.
Qed.

Lemma roomsOk_onStartGame (σ : Server) (ws : Ws) (room : option Addr)
    (now : Z) (rnd : Rand) :
  roomsOk σ → roomsOk (onStartGame ws room now rnd σ).
Proof.
  intros H. destruct room as [r|]; [|done].
  destruct (roomObjs σ !! r) as [rm|] eqn:Hr;
    [|unfold onStartGame; by rewrite Hr].
  destruct (Room.isGameStarted rm) eqn:Hs.
  - by rewrite (onStartGame_started _ _ _ _ _ _ Hr Hs).
  - rewrite (onStartGame_eq _ _ _ _ _ _ Hr Hs).
    eapply roomsOk_same; [|apply roomsOk_insert; [|exact H]]; [done|].
    destruct (reset_top rnd) as (card & cards & _ & Hlen & Hlast & Hrem).
    exists card. by rewrite Hlast, Hrem.
Qed.

(** The room a guess leaves behind when it drew a card: the stage moves
    on, and the deck is a card shorter. *)
Lemma roomInv_drawn (rm : Room.t) (cards : list Card) (cur next : Card)
    (lastActivity : Z) :
  roomInv rm → Room.isGameStarted rm = true →
  Room.deck rm = cards ++ [next] →
  roomInv (Room.mk (Room.id rm) (Room.players rm) cards (Some next)
             (getNextStage (Room.stage rm)) true (Room.createdAt rm)
             lastActivity (Room.creator rm)).
Proof.
  unfold roomInv. intros Hrm Hs Hd. rewrite Hs in Hrm.
  destruct Hrm as (c & _ & Hlen). rewrite Hd, length_app in Hlen.
  simpl in Hlen. exists next. split; [done|]. cbn [Room.stage Room.deck].
  destruct (Room.stage rm) as [[]|]; simpl in *; lia.
Qed.

Lemma roomsOk_onGuess (σ : Server) (ws : Ws) (room : option Addr) (p : Addr)
    (now : Z) (guess : Guess) :
  roomsOk σ → roomsOk (onGuess ws room p now guess σ).
Proof.
  intros H. destruct room as [r|]; [|done].
  destruct (roomObjs σ !! r) as [rm|] eqn:Hr;
    [|unfold onGuess; by rewrite Hr].
  destruct (playerObjs σ !! p) as [pl|] eqn:Hp;
    [|unfold onGuess; by rewrite Hr, Hp].
  destruct (Room.isGameStarted rm) eqn:Hs;
    [|unfold onGuess; by rewrite Hr, Hp, Hs].
  pose proof (proj1 (Forall_lookup _ _) H r rm Hr) as Hrm.
  pose proof Hrm as Hrm'. unfold roomInv in Hrm'. rewrite Hs in Hrm'.
  destruct Hrm' as (cur & Hc & _).
  destruct (decide (Room.deck rm = [])) as [Hnil|Hne].
  { unfold onGuess. rewrite Hr, Hp, Hs, Hc, Hnil. cbn [draw last removelast].
    cbv zeta. eapply roomsOk_handleGameOver_at; [exact H|]. setters.
    apply (alter_at _ _ _ _ Hr). }
  destruct (draw_nonempty (Room.deck rm) Hne) as (next & _ & Hsplit).
  revert Hsplit. generalize (removelast (Room.deck rm)). intros cards Hsplit.
  pose proof (roomInv_drawn rm _ cur next now Hrm Hs Hsplit) as Hnew.
  destruct guess as [s|].
  - rewrite (onGuess_eq _ _ _ _ _ _ _ _ _ _ s Hr Hp Hs Hc Hsplit).
    cbv zeta.
    destruct (getNextStage (Room.stage rm)) as [s'|] eqn:Hn.
    + unfold guessed.
      eapply roomsOk_same; [|apply roomsOk_insert; [|exact H]]; [done|].
      rewrite ?Hn. rewrite ?Hn in Hnew. exact Hnew.
    + by eapply roomsOk_handleGameOver_at.
  - unfold onGuess. rewrite Hr, Hp, Hs, Hc, Hsplit, draw_snoc. cbv zeta.
    unfold roomsOk. setters.
    rewrite (alter_at _ _ _ _ Hr), !alter_insert_at.
    apply Forall_insert; [exact H|]. clear Hrm. unfold roomInv in *.
    setters. rewrite Hs. exact Hnew.
Qed.

Lemma roomsOk_wsSend (σ : Server) (ws : Ws) (m : ServerMsg) :
  roomsOk σ → roomsOk (wsSend ws m σ).
Proof. done. Qed.

Lemma roomsOk_wsClose (σ : Server) (ws : Ws) (code : Z) (reason : string) :
  roomsOk σ → roomsOk (wsClose ws code reason σ).
Proof. done. Qed.

Lemma roomsOk_sendRoomsList (σ : Server) (ws : Ws) :
  roomsOk σ → roomsOk (sendRoomsList ws σ).
Proof. intros H. unfold sendRoomsList. by destruct (isOpen σ ws). Qed.

Lemma roomsOk_touched (σ : Server) (room : option Addr) (now : Z) :
  roomsOk σ → roomsOk (touched room now σ).
Proof.
  intros H. destruct room as [r|]; [|done].
  apply roomsOk_alter; [|done]. intros rm. apply roomInv_setLastActivity.
Qed.

Lemma roomsOk_onGetState (σ : Server) (ws : Ws) (room : option Addr) :
  roomsOk σ → roomsOk (onGetState ws room σ).
Proof.
  intros H. unfold onGetState. destruct room as [r|]; [|done].
  by destruct (roomObjs σ !! r).
Qed.

Lemma roomsOk_onMessage (σ : Server) (ws : Ws) (now : Z) (rnd : Rand)
    (payload : Inbound) :
  roomsOk σ → roomsOk (onMessage ws now rnd payload σ).
Proof.
  intros H. unfold onMessage.
  destruct (listeners σ !! ws) as [[|roomId playerName room p]|]; [| |done].
  - unfold onRoomListMessage. destruct payload as [|type guess]; [done|].
    destruct (String.eqb type "ping"); [done|].
    destruct (String.eqb type "getRooms"); [|done].
    by apply roomsOk_sendRoomsList.
  - unfold onPlayerMessage. destruct payload as [|type guess]; [done|].
    pose proof (roomsOk_touched σ room now H) as Ht.
    destruct (String.eqb type "ping"); [done|].
    destruct (String.eqb type "startGame"); [by apply roomsOk_onStartGame|].
    destruct (String.eqb type "guess"); [by apply roomsOk_onGuess|].
    destruct (String.eqb type "getState"); [by apply roomsOk_onGetState|].
    done.
Qed.

Lemma roomsOk_handlePlayerDisconnect (σ : Server) (ws : Ws) (now : Z) :
  roomsOk σ → roomsOk (handlePlayerDisconnect ws now σ).
Proof.
  intros H. unfold handlePlayerDisconnect.
  destruct (players σ !! ws) as [p|]; [|done].
  destruct (playerObjs σ !! p) as [player|]; [|done].
  destruct (rooms σ !! Player.roomId player) as [r|]; [|done].
  destruct (roomObjs σ !! r) as [room|]; [|done].
  cbv zeta.
  match goal with
  | |- context [alterRoom r ?f σ] =>
    assert (Ha : roomsOk (alterRoom r f σ))
      by (apply roomsOk_alter; [intros rm; apply roomInv_setPlayers|done])
  end.
  case_bool_decide; [done|]. by apply roomsOk_broadcast.
Qed.

Lemma roomObjs_foldl {A} (f : Server → A → Server) (l : list A) (σ : Server) :
  (∀ τ a, roomObjs (f τ a) = roomObjs τ) →
  roomObjs (foldl f σ l) = roomObjs σ.
Proof.
  intros Hf. revert σ. induction l as [|a l IH]; intros σ; simpl; [done|].
  by rewrite IH, Hf.
Qed.

Lemma roomsOk_sweepRoom (now : Z) (σ : Server) (entry : string * Addr) :
  roomsOk σ → roomsOk (sweepRoom now σ entry).
Proof.
  intros H. unfold sweepRoom.
  destruct (roomObjs σ !! entry.2) as [room|]; [|done].
  destruct (now - Room.lastActivity room >? ROOM_TIMEOUT); [|done].
  cbv zeta. eapply roomsOk_same; [|apply (roomsOk_broadcast _ entry.2 now
    (roomClosed "Room closed due to inactivity") H)].
  setters. by rewrite !roomObjs_foldl.
Qed.

(** The enumeration holds the entries of the map, each once. *)
Lemma entries_perm (σ : Server) : entries σ ≡ₚ map_to_list (rooms σ).
Proof. apply merge_sort_Permutation. Qed.

Lemma elem_of_entries (σ : Server) (id : string) (r : Addr) :
  (id, r) ∈ entries σ ↔ rooms σ !! id = Some r.
Proof. rewrite entries_perm. apply elem_of_map_to_list. Qed.

Lemma roomsOk_cleanup (now : Z) (σ : Server) : roomsOk σ → roomsOk (cleanup now σ).
Proof.
  unfold cleanup. generalize (entries σ). intros l. revert σ.
  induction l as [|e l IH]; intros σ H; simpl; [done|].
  by apply IH, roomsOk_sweepRoom.
Qed.

Lemma roomsOk_join (σ : Server) (ws : Ws) (roomId playerName : string)
    (now : Z) (rnd : Rand) :
  roomsOk σ → roomsOk (join ws roomId playerName now rnd σ).
Proof.
  intros H. unfold join.
  set (σ1 := setConnections _ σ).
  assert (H1 : roomsOk σ1) by done.
  destruct (rooms σ1 !! roomId) as [r|].
  - cbv zeta.
    match goal with
    | |- context [alterRoom r ?g (alterRoom r ?f (setPlayerObjs ?o ?τ))] =>
      set (σ5 := alterRoom r g (alterRoom r f (setPlayerObjs o τ)));
      assert (H5 : roomsOk σ5)
    end.
    { subst σ5. apply roomsOk_alter; [intros rm; apply roomInv_setPlayers|].
      apply roomsOk_alter; [intros rm; apply roomInv_setPlayers|].
      apply (roomsOk_alter σ1); [|done].
      intros rm. apply roomInv_setLastActivity. }
    destruct (roomObjs (setPlayers _ σ5) !! r) as [room|]; [|done].
    destruct (Room.isGameStarted room);
      [apply roomsOk_wsSend|]; by apply roomsOk_broadcast.
  - cbv zeta.
    set (r := length (roomObjs σ1)).
    match goal with
    | |- context [alterRoom r ?g (alterRoom r ?f (setPlayerObjs ?o ?τ))] =>
      set (σ5 := alterRoom r g (alterRoom r f (setPlayerObjs o τ)));
      assert (H5 : roomsOk σ5)
    end.
    { subst σ5. apply roomsOk_alter; [intros rm; apply roomInv_setPlayers|].
      apply roomsOk_alter; [intros rm; apply roomInv_setPlayers|].
      unfold roomsOk. setters. apply Forall_app. split; [done|].
      apply Forall_singleton. by split. }
    destruct (roomObjs (setPlayers _ σ5) !! r) as [room|]; [|done].
    destruct (Room.isGameStarted room);
      [apply roomsOk_wsSend|]; by apply roomsOk_broadcast.
Qed.

Lemma roomsOk_onConnection (σ : Server) (ws : Ws)
    (roomParam nameParam : option string) (now : Z) (rnd : Rand) :
  roomsOk σ → roomsOk (onConnection ws roomParam nameParam now rnd σ).
Proof.
  intros H. unfold onConnection.
  destruct (missing roomParam && missing nameParam).
  { exact (roomsOk_sendRoomsList
             (setRoomListConnections ({[ws]} ∪ roomListConnections σ) σ) ws
             H). }
  destruct roomParam as [roomId|], nameParam as [playerName|]; try done.
  destruct (missing (Some roomId) || missing (Some playerName)); [done|].
  cbv zeta.
  destruct (connections σ !! connectionKey roomId playerName) as [existing|];
    [|by apply roomsOk_join].
  destruct (isOpen σ existing); [done|].
  apply roomsOk_join. by destruct (notClosed _ existing).
Qed.

Lemma roomsOk_step (σ : Server) (e : Event) (now : Z) (rnd : Rand) :
  roomsOk σ → roomsOk (step e now rnd σ).
Proof.
  intros H. destruct e as [roomParam nameParam|ws payload|ws|ws|ws| |ws];
    cbn [step].
  - by apply roomsOk_onConnection.
  - by apply roomsOk_onMessage.
  - done.
  - unfold onClose. destruct (listeners _ !! ws) as [[|? ? ? ?]|]; try done.
    by apply roomsOk_handlePlayerDisconnect.
  - unfold onError. destruct (listeners _ !! ws) as [[|? ? ? ?]|]; try done.
    by apply roomsOk_handlePlayerDisconnect.
  - by apply roomsOk_cleanup.
  - case_bool_decide; [|done]. by apply roomsOk_sendRoomsList.
Qed.

Lemma reachable_roomsOk (σ : Server) : reachable σ → roomsOk σ.
Proof.
  induction 1 as [|σ e now rnd _ IH].
  - apply Forall_nil_2.
  - by apply roomsOk_step.
Qed.

(** C5. Between two events, every room of the server that is not started
    has neither a current card nor a stage; so a room that holds a
    current card is started, and a started room does hold one. The rooms
    of the [rooms] map are among the Room objects of the store. *)
Theorem waiting_room_has_no_card_and_no_stage (σ : Server) (r : Addr)
    (rm : Room.t) :
  reachable σ →
  roomObjs σ !! r = Some rm →
  (Room.isGameStarted rm = false →
   Room.currentCard rm = None ∧ Room.stage rm = None)
  ∧ (is_Some (Room.currentCard rm) ↔ Room.isGameStarted rm = true).
Proof.
  intros Hreach Hr.
  pose proof (proj1 (Forall_lookup _ _) (reachable_roomsOk σ Hreach) r rm Hr)
    as Hrm.
  unfold roomInv in Hrm. destruct (Room.isGameStarted rm) eqn:Hs.
  - destruct Hrm as (c & Hc & _). split; [done|].
    split; [done|]. intros _. by eexists.
  - destruct Hrm as [Hc Hstage]. split; [done|].
    rewrite Hc. split; [by intros [? ?]|done].
Qed.

Lemma waiting_room_has_no_card_and_no_stage_witness :
  ∃ rm, roomObjs lobby !! 0%nat = Some rm
        ∧ Room.currentCard rm = None ∧ Room.stage rm = None.
Proof.
  assert (H : roomObjs lobby !! 0%nat
              = Some (Room.mk "ABC123" [0%nat; 1%nat] (reset (λ _, 0%nat))
                        None None false 10 11 "Alice"))
    by (vm_compute; reflexivity).
  assert (Hreach : reachable lobby).
  { unfold lobby. cbn [run foldl].
    apply reachable_step, reachable_step, reachable_initial. }
  eexists. split; [exact H|].
  apply (waiting_room_has_no_card_and_no_stage lobby 0%nat _ Hreach H).
  reflexivity.
Defined.

(** ** A whole round *)

Lemma step_startGame_eq (σ : Server) (ws : Ws) (roomId playerName : string)
    (r p : Addr) (rm : Room.t) (card : Card) (cards : list Card) (now : Z)
    (rnd : Rand) (guess : string) :
  listeners σ !! ws = Some (playerListener roomId playerName (Some r) p) →
  roomObjs σ !! r = Some rm →
  Room.isGameStarted rm = false →
  reset rnd = cards ++ [card] →
  step (message ws (json "startGame" guess)) now rnd σ
  = setSent
      (sent σ ++ broadcastCalls σ (Room.players rm)
         (gameStarted (Some red_black) (Some card)
            (playerInfos σ (Room.players rm))))
      (setRoomObjs
         (<[r:=Room.mk (Room.id rm) (Room.players rm) cards (Some card)
                 (Some red_black) true (Room.createdAt rm) now
                 (Room.creator rm)]> (roomObjs σ)) σ).
Proof.
  intros Hl Hr Hs Hd. rewrite (step_startGame _ _ _ _ _ _ _ _ _ Hl).
  erewrite onStartGame_eq; [|by apply touched_room|exact Hs].
  rewrite Hd, last_snoc, removelast_last.
  unfold broadcastCalls, audience, playerInfos, deref.
  server_eq. by rewrite (alter_at _ _ _ _ Hr), list_insert_insert_eq.
Qed.

(** What one guess that draws a card leaves behind: the handlers, the
    Player objects and the room of the guess. *)
Lemma step_guess_facts (σ : Server) (ws : Ws) (roomId playerName : string)
    (r p : Addr) (rm : Room.t) (cur next : Card) (cards : list Card) (now : Z)
    (rnd : Rand) (guess : string) :
  listeners σ !! ws = Some (playerListener roomId playerName (Some r) p) →
  roomObjs σ !! r = Some rm → is_Some (playerObjs σ !! p) →
  Room.isGameStarted rm = true → Room.currentCard rm = Some cur →
  Room.deck rm = cards ++ [next] →
  let σ' := step (message ws (json "guess" guess)) now rnd σ in
  listeners σ' = listeners σ
  ∧ playerObjs σ'
    = (if checkGuess guess cur next then alter scorePoint p (playerObjs σ)
       else playerObjs σ)
  ∧ roomObjs σ' !! r
    = Some (match getNextStage (Room.stage rm) with
            | Some s =>
              Room.mk (Room.id rm) (Room.players rm) cards (Some next) (Some s)
                true (Room.createdAt rm) now (Room.creator rm)
            | None =>
              Room.mk (Room.id rm) (Room.players rm) cards None None false
                (Room.createdAt rm) now (Room.creator rm)
            end).
Proof.
  intros Hl Hr [pl Hp] Hs Hc Hd. cbv zeta.
  rewrite (step_guess_eq _ _ _ _ _ _ _ _ _ _ _ _ rnd guess Hl Hr Hp Hs Hc Hd).
  assert (Hobjs :
    <[p:=if checkGuess guess cur next then scorePoint pl else pl]>
      (playerObjs σ)
    = if checkGuess guess cur next then alter scorePoint p (playerObjs σ)
      else playerObjs σ).
  { destruct (checkGuess guess cur next).
    - symmetry. apply (alter_at _ _ _ _ Hp).
    - apply (insert_at_id _ _ _ Hp). }
  assert (Hmid :
    roomObjs (guessed σ r p rm pl cards next (checkGuess guess cur next) now)
      !! r
    = Some (Room.mk (Room.id rm) (Room.players rm) cards (Some next)
              (getNextStage (Room.stage rm)) true (Room.createdAt rm) now
              (Room.creator rm))).
  { unfold guessed. setters. apply (lookup_insert_at _ _ _ _ Hr). }
  destruct (getNextStage (Room.stage rm)) as [s|] eqn:Hn.
  - split; [done|]. split; [exact Hobjs|]. exact Hmid.
  - rewrite (handleGameOver_eq _ _ _ _ Hmid). unfold guessed. setters.
    split; [done|]. split; [exact Hobjs|].
    rewrite list_insert_insert_eq. apply (lookup_insert_at _ _ _ _ Hr).
Qed.

Lemma is_Some_scored (objs : list Player.t) (p q : Addr) (ok : bool) :
  is_Some (objs !! q) →
  is_Some ((if ok then alter scorePoint p objs else objs) !! q).
Proof.
  intros H. destruct ok; [|done].
  apply lookup_lt_is_Some. rewrite length_alter. by apply lookup_lt_is_Some.
Qed.

Section Round.

(** A room that waits, and six messages from connections bound to it:
    message 0 is the [startGame], messages 1 to 4 are the guesses,
    message 5 is the [startGame] of the next round. Each has its
    sender, the Player object of its sender, its [guess] field, its
    clock and its random oracle. *)
Variables (σ : Server) (r : Addr) (rm : Room.t).
Variables (sender : nat → Ws) (player : nat → Addr) (token : nat → string).
Variables (clock : nat → Z) (dice : nat → Rand).

Hypothesis room_there : roomObjs σ !! r = Some rm.
Hypothesis room_waits : Room.isGameStarted rm = false.
Hypothesis sender_bound :
  ∀ i, (i ≤ 5)%nat →
    ∃ roomId playerName,
      listeners σ !! sender i
      = Some (playerListener roomId playerName (Some r) (player i)).
Hypothesis player_there :
  ∀ i, (i ≤ 5)%nat → is_Some (playerObjs σ !! player i).

(** C6. From a waiting room, [startGame] and four guesses end the
    round: each guess draws a card, the fourth brings the room back to
    waiting, the scores are those from before the round plus one point
    for each correct guess, and the [startGame] that follows leaves
    the Player objects, and so the scores, as they are. *)
Theorem round_of_four_guesses_returns_to_waiting :
  let σ' :=
    run [(message (sender 0) (json "startGame" (token 0)), clock 0, dice 0);
         (message (sender 1) (json "guess" (token 1)), clock 1, dice 1);
         (message (sender 2) (json "guess" (token 2)), clock 2, dice 2);
         (message (sender 3) (json "guess" (token 3)), clock 3, dice 3);
         (message (sender 4) (json "guess" (token 4)), clock 4, dice 4)]
      σ in
  let σ'' :=
    step (message (sender 5) (json "startGame" (token 5))) (clock 5) (dice 5)
      σ' in
  ∃ cards c4 c3 c2 c1 c0,
    reset (dice 0) = cards ++ [c4; c3; c2; c1; c0]
    ∧ roomObjs σ' !! r
      = Some (Room.mk (Room.id rm) (Room.players rm) cards None None false
                (Room.createdAt rm) (clock 4) (Room.creator rm))
    ∧ playerObjs σ'
      = foldl (λ objs '(p, isCorrect),
                 if isCorrect : bool then alter scorePoint p objs else objs)
          (playerObjs σ)
          [(player 1, checkGuess (token 1) c0 c1);
           (player 2, checkGuess (token 2) c1 c2);
           (player 3, checkGuess (token 3) c2 c3);
           (player 4, checkGuess (token 4) c3 c4)]
    ∧ playerObjs σ'' = playerObjs σ'
    ∧ ∃ rm'', roomObjs σ'' !! r = Some rm''
              ∧ Room.isGameStarted rm'' = true
              ∧ Room.stage rm'' = Some red_black
              ∧ Room.players rm'' = Room.players rm.
Proof.
  cbv zeta. cbn [run foldl].
  destruct (sender_bound 0 ltac:(lia)) as (i0 & n0 & L0).
  destruct (sender_bound 1 ltac:(lia)) as (i1 & n1 & L1).
  destruct (sender_bound 2 ltac:(lia)) as (i2 & n2 & L2).
  destruct (sender_bound 3 ltac:(lia)) as (i3 & n3 & L3).
  destruct (sender_bound 4 ltac:(lia)) as (i4 & n4 & L4).
  destruct (sender_bound 5 ltac:(lia)) as (i5 & n5 & L5).
  destruct (deck_split 5 (reset (dice 0))) as (cards & top & Hd & Htop & _);
    [rewrite reset_length; lia|].
  destruct top as [|c4 [|c3 [|c2 [|c1 [|c0 [|]]]]]]; try discriminate Htop.
  exists cards, c4, c3, c2, c1, c0. split; [exact Hd|].
  (* startGame *)
  pose proof (step_startGame_eq σ (sender 0) i0 n0 r (player 0) rm c0
                (cards ++ [c4; c3; c2; c1]) (clock 0) (dice 0) (token 0)
                L0 room_there room_waits) as E.
  rewrite <- app_assoc in E. specialize (E Hd).
  set (σ1 := step (message (sender 0) _) (clock 0) (dice 0) σ) in *.
  assert (F1 : listeners σ1 = listeners σ ∧ playerObjs σ1 = playerObjs σ
               ∧ roomObjs σ1 !! r
                 = Some (Room.mk (Room.id rm) (Room.players rm)
                           (cards ++ [c4; c3; c2; c1]) (Some c0)
                           (Some red_black) true (Room.createdAt rm)
                           (clock 0) (Room.creator rm))).
  { rewrite E. setters. split; [done|]. split; [done|].
    apply (lookup_insert_at _ _ _ _ room_there). }
  clearbody σ1. clear E. destruct F1 as (E1 & P1 & R1).
  (* first guess *)
  assert (HL1 : listeners σ1 !! sender 1
                = Some (playerListener i1 n1 (Some r) (player 1)))
    by (by rewrite E1).
  assert (HP1 : is_Some (playerObjs σ1 !! player 1))
    by (rewrite P1; apply player_there; lia).
  pose proof (step_guess_facts σ1 (sender 1) i1 n1 r (player 1) _ c0 c1 (cards ++ [c4; c3; c2])
              (clock 1) (dice 1) (token 1) HL1 R1 HP1) as F1.
  destruct F1 as (E2 & P2 & R2);
    [done | done | by rewrite <- ?app_assoc |].
  set (σ2 := step (message (sender 1) _) (clock 1) (dice 1) σ1) in *.
  clearbody σ2. room_fields R2.
  (* second guess *)
  assert (HL2 : listeners σ2 !! sender 2
                = Some (playerListener i2 n2 (Some r) (player 2)))
    by (by rewrite E2, E1).
  assert (HP2 : is_Some (playerObjs σ2 !! player 2))
    by (rewrite P2, P1; apply is_Some_scored, player_there; lia).
  pose proof (step_guess_facts σ2 (sender 2) i2 n2 r (player 2) _ c1 c2 (cards ++ [c4; c3])
              (clock 2) (dice 2) (token 2) HL2 R2 HP2) as F2.
  destruct F2 as (E3 & P3 & R3);
    [done | done | by rewrite <- ?app_assoc |].
  set (σ3 := step (message (sender 2) _) (clock 2) (dice 2) σ2) in *.
  clearbody σ3. room_fields R3.
  (* third guess *)
  assert (HL3 : listeners σ3 !! sender 3
                = Some (playerListener i3 n3 (Some r) (player 3)))
    by (by rewrite E3, E2, E1).
  assert (HP3 : is_Some (playerObjs σ3 !! player 3))
    by (rewrite P3, P2, P1; do 2 apply is_Some_scored; apply player_there; lia).
  pose proof (step_guess_facts σ3 (sender 3) i3 n3 r (player 3) _ c2 c3 (cards ++ [c4])
              (clock 3) (dice 3) (token 3) HL3 R3 HP3) as F3.
  destruct F3 as (E4 & P4 & R4);
    [done | done | by rewrite <- ?app_assoc |].
  set (σ4 := step (message (sender 3) _) (clock 3) (dice 3) σ3) in *.
  clearbody σ4. room_fields R4.
  (* fourth guess: the stage after suit is null *)
  assert (HL4 : listeners σ4 !! sender 4
                = Some (playerListener i4 n4 (Some r) (player 4)))
    by (by rewrite E4, E3, E2, E1).
  assert (HP4 : is_Some (playerObjs σ4 !! player 4))
    by (rewrite P4, P3, P2, P1; do 3 apply is_Some_scored; apply player_there; lia).
  pose proof (step_guess_facts σ4 (sender 4) i4 n4 r (player 4) _ c3 c4 (cards)
              (clock 4) (dice 4) (token 4) HL4 R4 HP4) as F4.
  destruct F4 as (E5 & P5 & R5);
    [done | done | by rewrite <- ?app_assoc |].
  set (σ5 := step (message (sender 4) _) (clock 4) (dice 4) σ4) in *.
  clearbody σ5. room_fields R5.
  split; [exact R5|].
  split; [by rewrite P5, P4, P3, P2, P1|].
  (* the next startGame *)
  destruct (reset_top (dice 5)) as (card & cards' & Hd' & _).
  assert (HL5 : listeners σ5 !! sender 5
                = Some (playerListener i5 n5 (Some r) (player 5)))
    by (by rewrite E5, E4, E3, E2, E1).
  rewrite (step_startGame_eq σ5 (sender 5) i5 n5 r (player 5) _ card cards'
             (clock 5) (dice 5) (token 5) HL5 R5 eq_refl Hd').
  setters. split; [done|]. eexists.
  split; [apply (lookup_insert_at _ _ _ _ R5)|]. done.
Qed.

End Round.

Lemma round_of_four_guesses_returns_to_waiting_witness :
  Room.isGameStarted
  <$> roomObjs
        (run [(message 0%nat (json "startGame" "red"), 20, λ _, 0%nat);
              (message 1%nat (json "guess" "red"), 21, λ _, 0%nat);
              (message 0%nat (json "guess" "red"), 22, λ _, 0%nat);
              (message 1%nat (json "guess" "red"), 23, λ _, 0%nat);
              (message 0%nat (json "guess" "red"), 24, λ _, 0%nat)] lobby)
      !! 0%nat
  = Some false.
Proof.
  pose (turn := λ i : nat, if Nat.even i then 0%nat else 1%nat).
  assert (H1 : roomObjs lobby !! 0%nat
               = Some (Room.mk "ABC123" [0%nat; 1%nat] (reset (λ _, 0%nat))
                         None None false 10 11 "Alice"))
    by (vm_compute; reflexivity).
  assert (H2 : ∀ i, (i ≤ 5)%nat →
                 ∃ roomId playerName,
                   listeners lobby !! turn i
                   = Some (playerListener roomId playerName (Some 0%nat)
                             (turn i))).
  { intros i _. unfold turn. destruct (Nat.even i); eexists _, _;
      vm_compute; reflexivity. }
  assert (H3 : ∀ i, (i ≤ 5)%nat → is_Some (playerObjs lobby !! turn i)).
  { intros i _. unfold turn. destruct (Nat.even i); eexists;
      vm_compute; reflexivity. }
  destruct (round_of_four_guesses_returns_to_waiting lobby 0%nat _ turn turn
              (λ _, "red") (λ i, 20 + Z.of_nat i) (λ _ _, 0%nat) H1 eq_refl
              H2 H3)
    as (cards & c4 & c3 & c2 & c1 & c0 & _ & R & _).
  apply (f_equal (fmap Room.isGameStarted)) in R. exact R.
Defined.

(** ** The scenario of the specification *)

(** Alice guesses [red] on the seven of hearts and the nine of diamonds
    comes: she scores and the stage is higher_lower. Bob then guesses
    [lower] and the three of clubs comes: he scores and the stage is
    inside_outside. *)
Example alice_red_then_bob_lower :
  let σ1 := step (message 0%nat (json "guess" "red")) 13 (λ _, 0%nat)
              sevenOfHearts in
  let σ2 := step (message 1%nat (json "guess" "lower")) 14 (λ _, 0%nat) σ1 in
  sent σ2
  = sent sevenOfHearts
    ++ [Send 0%nat
          (guessResult "Alice" 1 true (Some higher_lower)
             (Some (mkCard diamonds 9)));
        Send 1%nat
          (guessResult "Alice" 1 true (Some higher_lower)
             (Some (mkCard diamonds 9)));
        Send 0%nat
          (guessResult "Bob" 1 true (Some inside_outside)
             (Some (mkCard clubs 3)));
        Send 1%nat
          (guessResult "Bob" 1 true (Some inside_outside)
             (Some (mkCard clubs 3)))]
  ∧ map Player.score (playerObjs σ2) = [1; 1].
Proof. split; vm_compute; reflexivity. Qed.

(** Two players level on the top score both win. *)
Example both_top_scorers_win :
  winnersOf (playerObjs tied) = ["Ann"; "Cy"].
Proof. reflexivity. Qed.

(** * More of the code *)

(** ** The deck module *)

(** X1. [shuffle] only rearranges: whatever the random draws, the
    shuffled array holds the same cards, each as often as before. *)
Theorem shuffle_only_rearranges (rnd : Rand) (cards : list Card) :
  shuffle rnd cards ≡ₚ cards
  ∧ deckLength (shuffle rnd cards) = deckLength cards
  ∧ ∀ c, c ∈ shuffle rnd cards ↔ c ∈ cards.
Proof.
  pose proof (shuffle_perm rnd cards) as H. split; [done|]. split.
  - unfold deckLength. by rewrite H.
  - intros c. by rewrite H.
Qed.

(** X2. [reset] deals a full deck whatever the random draws: 52 cards,
    no card twice, and a card is in it exactly when its rank is 1 to
    13. *)
Theorem reset_deals_each_card_once (rnd : Rand) :
  deckLength (reset rnd) = 52%nat
  ∧ NoDup (reset rnd)
  ∧ ∀ c, c ∈ reset rnd ↔ 1 ≤ value c ≤ 13.
Proof.
  pose proof (reset_perm rnd) as H. split; [apply reset_length|]. split.
  - rewrite H. apply freshCards_NoDup.
  - intros c. rewrite H. apply freshCards_spec.
Qed.

(** X3. [draw] takes the card at the end of the array: the deck was the
    rest followed by that card, and it is one card shorter; only the
    empty deck yields null, and it stays empty. *)
Theorem draw_takes_the_last_card (cards : list Card) :
  match draw cards with
  | (Some card, rest) =>
    cards = rest ++ [card] ∧ deckLength rest = (deckLength cards - 1)%nat
  | (None, rest) => cards = [] ∧ rest = []
  end.
Proof.
  destruct cards as [|c0 cs] using rev_ind.
  - by split.
  - rewrite draw_snoc. split; [done|]. unfold deckLength.
    rewrite length_app. simpl. lia.
Qed.

(** X4. [toString] tells the cards of a deck apart: two cards of rank 1
    to 13 with the same label are the same card, and a label is two or
    three characters long. *)
Theorem toString_tells_cards_apart (c c' : Card) :
  1 ≤ value c ≤ 13 →
  1 ≤ value c' ≤ 13 →
  (toString c = toString c' → c = c')
  ∧ (2 ≤ String.length (toString c) ≤ 3)%nat.
Proof.
  intros Hc Hc'. apply freshCards_spec in Hc, Hc'. split.
  - assert (Hnd : NoDup (toString <$> freshCards))
      by (apply (bool_decide_unpack _); by vm_compute).
    intros Heq.
    apply list_elem_of_lookup in Hc as [i Hi], Hc' as [j Hj].
    assert (i = j) as ->.
    { eapply NoDup_lookup; [exact Hnd| |];
        rewrite list_lookup_fmap; [by rewrite Hi|by rewrite Hj, Heq]. }
    congruence.
  - revert c Hc. apply Forall_forall. apply (bool_decide_unpack _).
    by vm_compute.
Qed.

Lemma toString_tells_cards_apart_witness :
  toString (mkCard hearts 1) = "AH" ∧ toString (mkCard spades 10) = "10S"
  ∧ (2 ≤ String.length (toString (mkCard clubs 12)) ≤ 3)%nat.
Proof.
  split; [reflexivity|]. split; [reflexivity|].
  apply (toString_tells_cards_apart (mkCard clubs 12) (mkCard clubs 12));
    simpl; lia.
Defined.

(** ** Guess evaluation *)

(** X5. The guesses of a stage exclude each other: for every pair of
    cards exactly one of [red] and [black] is right, exactly one of
    [inside] and [outside], exactly one of the four suit names, and never
    both [higher] and [lower]; these two are both wrong exactly on a
    tie. *)
Theorem guesses_of_a_stage_exclude_each_other (prev next : Card) :
  checkGuess "red" prev next = negb (checkGuess "black" prev next)
  ∧ checkGuess "inside" prev next = negb (checkGuess "outside" prev next)
  ∧ checkGuess "higher" prev next && checkGuess "lower" prev next = false
  ∧ (checkGuess "higher" prev next || checkGuess "lower" prev next = false
     ↔ value next = value prev)
  ∧ filter (λ s, checkGuess (suitName s) prev next = true) suits
    = [suit next].
Proof.
  repeat match goal with |- _ ∧ _ => split end.
  - change (checkGuess "red" prev next)
      with (suitIs next "hearts" || suitIs next "diamonds").
    change (checkGuess "black" prev next)
      with (suitIs next "clubs" || suitIs next "spades").
    unfold suitIs. by destruct (suit next).
  - change (checkGuess "inside" prev next)
      with (Z.abs (value next - value prev) <=? 3).
    change (checkGuess "outside" prev next)
      with (Z.abs (value next - value prev) >? 3).
    by rewrite Z.gtb_ltb, Z.leb_antisym.
  - change (checkGuess "higher" prev next) with (value next >? value prev).
    change (checkGuess "lower" prev next) with (value next <? value prev).
    rewrite Z.gtb_ltb. apply andb_false_iff.
    destruct (Z.ltb_spec (value prev) (value next)); [right|by left].
    apply Z.ltb_ge. lia.
  - change (checkGuess "higher" prev next) with (value next >? value prev).
    change (checkGuess "lower" prev next) with (value next <? value prev).
    rewrite Z.gtb_ltb, orb_false_iff, !Z.ltb_ge. lia.
  - assert (E : ∀ s, checkGuess (suitName s) prev next
                     = suitIs next (suitName s)) by (by intros []).
    unfold suits, suitIs in *. rewrite !filter_cons, filter_nil, !E.
    by destruct (suit next).
Qed.

(** X6. [red], [black] and a suit name are judged on the drawn card
    alone; [inside] and [outside] do not care which of the two cards came
    first; [higher] one way round is [lower] the other way round. *)
Theorem guesses_and_the_order_of_the_cards (guess : string) (a a' b : Card) :
  (guess ∉ ["higher"; "lower"; "inside"; "outside"] →
   checkGuess guess a b = checkGuess guess a' b)
  ∧ checkGuess "inside" a b = checkGuess "inside" b a
  ∧ checkGuess "outside" a b = checkGuess "outside" b a
  ∧ checkGuess "higher" a b = checkGuess "lower" b a.
Proof.
  repeat match goal with |- _ ∧ _ => split end.
  - intros H. unfold checkGuess.
    destruct (String.eqb guess "red"); [done|].
    destruct (String.eqb guess "black"); [done|].
    repeat match goal with
    | |- context [String.eqb guess ?k] =>
      destruct (String.eqb_spec guess k) as [->|_];
        [exfalso; apply H; apply (bool_decide_unpack _); by vm_compute|]
    end.
    done.
  - change (checkGuess "inside" a b) with (Z.abs (value b - value a) <=? 3).
    change (checkGuess "inside" b a) with (Z.abs (value a - value b) <=? 3).
    f_equal. lia.
  - change (checkGuess "outside" a b) with (Z.abs (value b - value a) >? 3).
    change (checkGuess "outside" b a) with (Z.abs (value a - value b) >? 3).
    f_equal. lia.
  - change (checkGuess "higher" a b) with (value b >? value a).
    change (checkGuess "lower" b a) with (value a <? value b).
    apply Z.gtb_ltb.
Qed.

Lemma guesses_and_the_order_of_the_cards_witness :
  checkGuess "clubs" (mkCard hearts 2) (mkCard clubs 9)
  = checkGuess "clubs" (mkCard spades 13) (mkCard clubs 9).
Proof.
  destruct (guesses_and_the_order_of_the_cards "clubs" (mkCard hearts 2)
              (mkCard spades 13) (mkCard clubs 9)) as [H _].
  apply H. apply (bool_decide_unpack _). by vm_compute.
Defined.

(** ** Broadcast and disconnect *)

(** Whatever the room address, a broadcast touches the Room objects and
    the trace only. *)
Lemma broadcastToRoom_shape (σ : Server) (r : Addr) (now : Z) (m : ServerMsg) :
  ∃ objs calls,
    broadcastToRoom r now m σ = setSent (sent σ ++ calls) (setRoomObjs objs σ).
Proof.
  destruct (roomObjs σ !! r) as [rm|] eqn:Hr.
  - eexists _, _. by apply broadcastToRoom_eq.
  - exists (roomObjs σ), []. unfold broadcastToRoom. rewrite Hr.
    server_eq. by rewrite app_nil_r.
Qed.

Lemma omap_length_le {A B} (f : A → option B) (l : list A) :
  (length (omap f l) ≤ length l)%nat.
Proof.
  induction l as [|x l IH]; csimpl; [done|].
  destruct (f x); simpl; lia.
Qed.

Lemma filter_map_comm {A B} (f : A → B) (P : B → Prop)
    `{!∀ y, Decision (P y)} (l : list A) :
  filter P (map f l) = map f (filter (λ x, P (f x)) l).
Proof.
  induction l as [|x l IH]; [done|]. cbn [map]. rewrite !filter_cons.
  destruct (decide (P (f x))); cbn [map]; by rewrite IH.
Qed.

(** X7. A broadcast to a room reaches the open sockets of its players
    and no other socket: the calls it adds to the trace are, in the order
    of the player list, one [send] of the message for each player of the
    room whose socket is open, and nothing else. It stamps the room and
    changes nothing else; it closes no socket. *)
Theorem broadcast_reaches_the_open_members (σ : Server) (r : Addr)
    (rm : Room.t) (now : Z) (m : ServerMsg) :
  roomObjs σ !! r = Some rm →
  let σ' := broadcastToRoom r now m σ in
  let added := drop (length (sent σ)) (sent σ') in
  sent σ' = sent σ ++ added
  ∧ added
    = map (λ pl, Send (Player.ws pl) m)
        (filter (λ pl, sockets σ !! Player.ws pl = Some OPEN)
           (deref σ (Room.players rm)))
  ∧ (∀ c, c ∈ added
          ↔ ∃ pl, pl ∈ deref σ (Room.players rm)
                  ∧ sockets σ !! Player.ws pl = Some OPEN
                  ∧ c = Send (Player.ws pl) m)
  ∧ (length added ≤ length (Room.players rm))%nat
  ∧ σ' = setSent (sent σ')
           (setRoomObjs (<[r:=Room.setLastActivity now rm]> (roomObjs σ)) σ).
Proof.
  intros Hr. cbv zeta. rewrite (broadcastToRoom_eq _ _ _ _ _ Hr). setters.
  rewrite drop_app_length. split; [done|].
  split; [|split; [|split; [|done]]].
  - unfold broadcastCalls, audience. rewrite filter_map_comm.
    by rewrite map_map.
  - intros c. unfold broadcastCalls, audience. rewrite list_elem_of_fmap.
    split.
    + intros (w & -> & Hw). apply list_elem_of_filter in Hw as [Hopen Hw].
      apply list_elem_of_fmap in Hw as (pl & -> & Hpl). by exists pl.
    + intros (pl & Hpl & Hopen & ->). exists (Player.ws pl). split; [done|].
      apply list_elem_of_filter. split; [done|].
      apply list_elem_of_fmap. by exists pl.
  - unfold broadcastCalls, audience, deref.
    rewrite length_map. etrans; [apply length_filter|].
    rewrite length_map. apply omap_length_le.
Qed.

Lemma broadcast_reaches_the_open_members_witness :
  sent (broadcastToRoom 0%nat 9 pong tied)
  = [Send 0%nat pong; Send 2%nat pong].
Proof.
  assert (H : roomObjs tied !! 0%nat
              = Some (Room.mk "R" [0%nat; 1%nat; 2%nat] []
                        (Some (mkCard spades 2)) None true 5 6 "Ann"))
    by reflexivity.
  destruct (broadcast_reaches_the_open_members tied 0%nat _ 9 pong H)
    as (Hsent & _).
  rewrite Hsent. vm_compute. reflexivity.
Defined.

Lemma handlePlayerDisconnect_players (σ : Server) (ws : Ws) (now : Z) :
  handlePlayerDisconnect ws now σ = σ
  ∨ players (handlePlayerDisconnect ws now σ) = delete ws (players σ).
Proof.
  unfold handlePlayerDisconnect.
  destruct (players σ !! ws) as [p|]; [|by left].
  destruct (playerObjs σ !! p) as [player|]; [|by left].
  destruct (rooms σ !! Player.roomId player) as [r|]; [|by right].
  destruct (roomObjs σ !! r) as [room|]; [|by left].
  right. cbv zeta. case_bool_decide; [done|].
  match goal with
  | |- context [broadcastToRoom ?a ?b ?c ?d] =>
    destruct (broadcastToRoom_shape d a b c) as (objs & calls & ->)
  end.
  done.
Qed.

(** X8. A player is disconnected once: [handlePlayerDisconnect] on a
    socket the [players] map does not know changes nothing, and a second
    disconnect of the same socket, as when the [error] event of a socket
    is followed by its [close] event and the socket has changed state in
    between, repeats nothing of the first. *)
Theorem disconnect_happens_once (σ : Server) (ws : Ws) (now now' : Z)
    (states : list ReadyState) :
  (players σ !! ws = None → handlePlayerDisconnect ws now σ = σ)
  ∧ handlePlayerDisconnect ws now' (handlePlayerDisconnect ws now σ)
    = handlePlayerDisconnect ws now σ
  ∧ handlePlayerDisconnect ws now'
      (setSockets states (handlePlayerDisconnect ws now σ))
    = setSockets states (handlePlayerDisconnect ws now σ).
Proof.
  assert (Hnone : ∀ τ t, players τ !! ws = None →
                         handlePlayerDisconnect ws t τ = τ).
  { intros τ t H. unfold handlePlayerDisconnect. by rewrite H. }
  assert (Htwice : ∀ ss,
    handlePlayerDisconnect ws now'
      (setSockets ss (handlePlayerDisconnect ws now σ))
    = setSockets ss (handlePlayerDisconnect ws now σ)).
  { intros ss.
    destruct (handlePlayerDisconnect_players σ ws now) as [E|E];
      [|apply Hnone; setters; rewrite E; apply lookup_delete_eq].
    rewrite E. destruct (players σ !! ws) as [p|] eqn:Hp; [|by apply Hnone].
    unfold handlePlayerDisconnect in *. setters. rewrite Hp in *.
    destruct (playerObjs σ !! p) as [player|]; [|done].
    assert (Hno : players σ ≠ delete ws (players σ)).
    { intros Hd. apply (f_equal (λ m, m !! ws)) in Hd.
      by rewrite lookup_delete_eq, Hp in Hd. }
    destruct (rooms σ !! Player.roomId player) as [r|].
    - destruct (roomObjs σ !! r) as [room|]; [|done].
      exfalso. apply Hno. apply (f_equal players) in E. revert E. cbv zeta.
      case_bool_decide; [by setters|].
      match goal with
      | |- context [broadcastToRoom ?a ?b ?c ?d] =>
        destruct (broadcastToRoom_shape d a b c) as (objs & calls & ->)
      end.
      by setters.
    - exfalso. apply Hno. apply (f_equal players) in E. by setters. }
  split; [apply Hnone|]. split; [|apply Htwice].
  specialize (Htwice (sockets (handlePlayerDisconnect ws now σ))).
  assert (Hid : ∀ τ, setSockets (sockets τ) τ = τ) by (intros τ; by server_eq).
  by rewrite Hid in Htwice.
Qed.

Lemma disconnect_happens_once_witness :
  handlePlayerDisconnect 7%nat 12 lobby = lobby.
Proof.
  destruct (disconnect_happens_once lobby 7%nat 12 13 []) as [H _].
  apply H. by vm_compute.
Defined.

(** X9. When the socket of a player closes, the player leaves the room,
    the [players] map and the registry. If nobody is left the room is
    deleted from [rooms] and nothing is sent; otherwise the room stays
    and [playerLeft], with the players that remain, goes to those of them
    whose socket is open. Nothing is sent to the socket that closed, and
    no Player object, so no score, is changed. *)
Theorem a_leaving_player_is_taken_out (σ : Server) (ws : Ws) (p r : Addr)
    (player : Player.t) (room : Room.t) (now : Z) :
  players σ !! ws = Some p →
  playerObjs σ !! p = Some player →
  rooms σ !! Player.roomId player = Some r →
  roomObjs σ !! r = Some room →
  let remaining :=
    filter (λ a, Player.ws <$> playerObjs σ !! a ≠ Some ws)
      (Room.players room) in
  let σ' := handlePlayerDisconnect ws now σ in
  players σ' = delete ws (players σ)
  ∧ connections σ'
    = delete (connectionKey (Player.roomId player) (Player.name player))
        (connections σ)
  ∧ playerObjs σ' = playerObjs σ
  ∧ sockets σ' = sockets σ
  ∧ (remaining = [] →
     rooms σ' = delete (Room.id room) (rooms σ)
     ∧ sent σ' = sent σ
     ∧ roomObjs σ' = <[r:=Room.setPlayers [] room]> (roomObjs σ))
  ∧ (remaining ≠ [] →
     rooms σ' = rooms σ
     ∧ sent σ'
       = sent σ ++ broadcastCalls σ remaining
           (playerLeft (Player.name player) (playerInfos σ remaining))
     ∧ roomObjs σ'
       = <[r:=Room.setLastActivity now (Room.setPlayers remaining room)]>
           (roomObjs σ))
  ∧ ∀ m, Send ws m ∉ drop (length (sent σ)) (sent σ').
Proof.
  intros Hp Hpl Hroom Hr. cbv zeta. unfold handlePlayerDisconnect.
  rewrite Hp, Hpl, Hroom, Hr. cbv zeta.
  set (remaining := filter _ (Room.players room)).
  case_bool_decide as Hlen.
  - apply nil_length_inv in Hlen. setters. rewrite Hlen.
    repeat match goal with |- _ ∧ _ => split end; try done.
    + intros _. by rewrite (alter_at _ _ _ _ Hr).
    + intros m. rewrite drop_all. apply not_elem_of_nil.
  - assert (Hne : remaining ≠ []) by (intros E; by rewrite E in Hlen).
    erewrite broadcastToRoom_eq; [|by apply alterRoom_lookup].
    setters.
    repeat match goal with |- _ ∧ _ => split end; try done.
    + intros _. repeat match goal with |- _ ∧ _ => split end; try done.
      by rewrite (alter_at _ _ _ _ Hr), list_insert_insert_eq.
    + intros m. rewrite drop_app_length. unfold broadcastCalls, audience.
      intros (w & [= <- _] & Hw)%list_elem_of_fmap.
      apply list_elem_of_filter in Hw as [_ Hw].
      apply list_elem_of_fmap in Hw as (pl & Hws & Hin).
      apply list_elem_of_omap in Hin as (a & Ha & Hlook).
      apply list_elem_of_filter in Ha as [Ha _]. setters.
      rewrite Hlook in Ha. simpl in Ha. congruence.
Qed.

Lemma a_leaving_player_is_taken_out_witness :
  sent (handlePlayerDisconnect 1%nat 12 lobby)
  = sent lobby ++ [Send 0%nat (playerLeft "Bob" [("Alice", 0)])].
Proof.
  assert (H1 : players lobby !! 1%nat = Some 1%nat)
    by (vm_compute; reflexivity).
  assert (H2 : playerObjs lobby !! 1%nat
               = Some (Player.mk "Bob" 0 1%nat "ABC123" 11))
    by (vm_compute; reflexivity).
  assert (H3 : rooms lobby !! "ABC123" = Some 0%nat)
    by (vm_compute; reflexivity).
  assert (H4 : roomObjs lobby !! 0%nat
               = Some (Room.mk "ABC123" [0%nat; 1%nat] (reset (λ _, 0%nat))
                         None None false 10 11 "Alice"))
    by (vm_compute; reflexivity).
  pose proof (a_leaving_player_is_taken_out lobby 1%nat 1%nat 0%nat _ _ 12
                H1 H2 H3 H4) as H.
  cbv zeta in H. destruct H as (_ & _ & _ & _ & _ & H & _).
  destruct H as (_ & Hsent & _); [vm_compute; discriminate|].
  rewrite Hsent. vm_compute. reflexivity.
Defined.

(** ** The idle sweep *)

Lemma sweepRoom_in_use (σ : Server) (now : Z) (entry : string * Addr) :
  (∀ rm, roomObjs σ !! entry.2 = Some rm →
         now - Room.lastActivity rm ≤ ROOM_TIMEOUT) →
  sweepRoom now σ entry = σ.
Proof.
  intros H. unfold sweepRoom.
  destruct (roomObjs σ !! entry.2) as [rm|]; [|done].
  specialize (H rm eq_refl).
  rewrite Z.gtb_ltb. by destruct (Z.ltb_spec ROOM_TIMEOUT
                                    (now - Room.lastActivity rm)); [lia|].
Qed.

(** X10. The sweep spares the rooms in use: when no room of the [rooms]
    map has been idle for more than [ROOM_TIMEOUT], thirty minutes, the
    sweep changes nothing and sends nothing. A room idle for exactly
    thirty minutes is still spared. *)
Theorem sweep_spares_the_rooms_in_use (σ : Server) (now : Z) (rnd : Rand) :
  (∀ id r rm, rooms σ !! id = Some r → roomObjs σ !! r = Some rm →
              now - Room.lastActivity rm ≤ 30 * 60 * 1000) →
  step cleanupTick now rnd σ = σ.
Proof.
  intros H. cbn [step]. unfold cleanup.
  assert (Hall : Forall (λ e, rooms σ !! e.1 = Some e.2) (entries σ)).
  { apply Forall_forall. intros [id r] Hin. by apply elem_of_entries. }
  induction Hall as [|[id r] l Hid _ IH]; simpl; [done|].
  rewrite sweepRoom_in_use; [done|].
  intros rm Hrm. by apply (H id r rm).
Qed.

Lemma sweep_spares_the_rooms_in_use_witness :
  step cleanupTick (11 + 30 * 60 * 1000) (λ _, 0%nat) lobby = lobby.
Proof.
  apply sweep_spares_the_rooms_in_use.
  assert (Hrooms : rooms lobby = {["ABC123" := 0%nat]})
    by (vm_compute; reflexivity).
  assert (Hobj : roomObjs lobby !! 0%nat
                 = Some (Room.mk "ABC123" [0%nat; 1%nat] (reset (λ _, 0%nat))
                           None None false 10 11 "Alice"))
    by (vm_compute; reflexivity).
  intros id r rm Hid Hrm. rewrite Hrooms in Hid.
  apply lookup_singleton_Some in Hid as [_ <-].
  rewrite Hobj in Hrm. injection Hrm as <-. simpl. lia.
Defined.

Lemma foldl_wsClose (code : Z) (reason : string) (members : list Player.t)
    (σ : Server) :
  foldl (λ acc player, wsClose (Player.ws player) code reason acc) σ members
  = setSent
      (sent σ ++ map (λ pl, Close (Player.ws pl) code reason) members)
      (setSockets
         (foldl (λ ss pl,
                   alter (λ s, if decide (s = OPEN) then CLOSING else s)
                     (Player.ws pl) ss) (sockets σ) members) σ).
Proof.
  revert σ. induction members as [|pl l IH]; intros σ; simpl.
  - server_eq. by rewrite app_nil_r.
  - rewrite IH. unfold wsClose. server_eq. by rewrite <- app_assoc.
Qed.

Lemma foldl_unregister (members : list Player.t) (σ : Server) :
  foldl (λ acc player,
           setConnections
             (delete (connectionKey (Player.roomId player)
                        (Player.name player)) (connections acc))
             (setPlayers (delete (Player.ws player) (players acc)) acc))
    σ members
  = setConnections
      (foldl (λ m pl,
                delete (connectionKey (Player.roomId pl) (Player.name pl)) m)
         (connections σ) members)
      (setPlayers
         (foldl (λ m pl, delete (Player.ws pl) m) (players σ) members) σ).
Proof.
  revert σ. induction members as [|pl l IH]; intros σ; simpl.
  - by server_eq.
  - rewrite IH. by server_eq.
Qed.

Lemma foldl_delete_lookup `{Countable K} {A B} (f : B → K) (l : list B)
    (m : gmap K A) (k : K) :
  foldl (λ m x, delete (f x) m) m l !! k
  = if decide (k ∈ map f l) then None else m !! k.
Proof.
  revert m. induction l as [|x l IH]; intros m; simpl; [done|].
  rewrite IH. destruct (decide (k ∈ map f l)) as [Hin|Hin].
  - rewrite decide_True; [done|]. by right.
  - destruct (decide (k = f x)) as [->|Hne].
    + rewrite decide_True by left. apply lookup_delete_eq.
    + rewrite decide_False.
      * by apply lookup_delete_ne.
      * intros [?|?]%elem_of_cons; done.
Qed.

Lemma foldl_closing_lookup (l : list Player.t) (ss : list ReadyState)
    (w : Ws) :
  foldl (λ ss pl,
           alter (λ s, if decide (s = OPEN) then CLOSING else s)
             (Player.ws pl) ss) ss l !! w
  = if decide (w ∈ map Player.ws l)
    then (λ s, if decide (s = OPEN) then CLOSING else s) <$> ss !! w
    else ss !! w.
Proof.
  revert ss. induction l as [|pl l IH]; intros ss; simpl; [done|].
  rewrite IH. destruct (decide (w = Player.ws pl)) as [->|Hne].
  - rewrite list_lookup_alter_eq. rewrite (decide_True (P:=_ ∈ _ :: _))
      by left.
    destruct (decide _); [|done].
    destruct (ss !! Player.ws pl) as [s|]; [|done]. simpl.
    by repeat destruct (decide _).
  - rewrite list_lookup_alter_ne by done.
    destruct (decide (w ∈ map Player.ws l)) as [Hin|Hin].
    + rewrite decide_True; [done|]. by right.
    + rewrite decide_False; [done|]. intros [?|?]%elem_of_cons; done.
Qed.

(** The body of the sweep on an entry whose room has been idle for more
    than thirty minutes. *)
Lemma sweepRoom_idle (σ : Server) (id : string) (r : Addr) (rm : Room.t)
    (now : Z) :
  roomObjs σ !! r = Some rm →
  now - Room.lastActivity rm > 30 * 60 * 1000 →
  let members := deref σ (Room.players rm) in
  let σ' := sweepRoom now σ (id, r) in
  rooms σ' = delete id (rooms σ)
  ∧ sent σ'
    = sent σ
      ++ (broadcastCalls σ (Room.players rm)
            (roomClosed "Room closed due to inactivity")
          ++ map (λ pl,
                    Close (Player.ws pl) 4002 "Room closed due to inactivity")
               members)
  ∧ (∀ pl, pl ∈ members →
       players σ' !! Player.ws pl = None
       ∧ connections σ'
         !! connectionKey (Player.roomId pl) (Player.name pl) = None
       ∧ sockets σ' !! Player.ws pl ≠ Some OPEN)
  ∧ (∀ w, w ∉ map Player.ws members →
       players σ' !! w = players σ !! w ∧ sockets σ' !! w = sockets σ !! w)
  ∧ playerObjs σ' = playerObjs σ
  ∧ roomObjs σ' = <[r:=Room.setLastActivity now rm]> (roomObjs σ).
Proof.
  intros Hr Hidle. cbv zeta. unfold sweepRoom. cbn [fst snd]. rewrite Hr.
  assert (Hgt : (now - Room.lastActivity rm >? ROOM_TIMEOUT) = true).
  { rewrite Z.gtb_ltb. apply Z.ltb_lt. unfold ROOM_TIMEOUT. lia. }
  rewrite Hgt. cbv zeta.
  rewrite (broadcastToRoom_eq _ _ _ _ _ Hr), foldl_unregister, foldl_wsClose.
  unfold deref. setters. unfold INVALID_ROOM.
  set (members := omap _ (Room.players rm)).
  split; [done|]. split; [by rewrite <- app_assoc|].
  split; [|split; [|done]].
  - intros pl Hpl. rewrite !foldl_delete_lookup, foldl_closing_lookup.
    assert (Hw : Player.ws pl ∈ map Player.ws members)
      by (apply list_elem_of_fmap; by exists pl).
    assert (Hk : connectionKey (Player.roomId pl) (Player.name pl)
                 ∈ map (λ pl, connectionKey (Player.roomId pl)
                                (Player.name pl)) members)
      by (apply list_elem_of_fmap; by exists pl).
    rewrite !decide_True by done. split; [done|]. split; [done|].
    destruct (sockets σ !! Player.ws pl) as [s|]; [|done]. simpl.
    destruct (decide (s = OPEN)); congruence.
  - intros w Hw. rewrite foldl_delete_lookup, foldl_closing_lookup.
    by rewrite !decide_False by done.
Qed.

(** ** Admission *)

(** [join] on a room id the [rooms] map does not have. *)
Lemma join_new_room (σ : Server) (ws : Ws) (roomId playerName : string)
    (now : Z) (rnd : Rand) :
  rooms σ !! roomId = None →
  let r := length (roomObjs σ) in
  let p := length (playerObjs σ) in
  join ws roomId playerName now rnd σ
  = mkServer (<[roomId:=r]> (rooms σ)) (<[ws:=p]> (players σ))
      (<[connectionKey roomId playerName:=ws]> (connections σ))
      (roomListConnections σ)
      (roomObjs σ
       ++ [Room.mk roomId [p] (reset rnd) None None false now now playerName])
      (playerObjs σ ++ [Player.mk playerName 0 ws roomId now])
      (sockets σ)
      (<[ws:=playerListener roomId playerName (Some r) p]> (listeners σ))
      (sent σ
       ++ (if decide (sockets σ !! ws = Some OPEN)
           then [Send ws (playerJoined playerName [(playerName, 0)])]
           else [])).
Proof.
  intros Hroom. cbv zeta. unfold join. setters. rewrite Hroom. cbv zeta.
  setters. rewrite !alter_snoc. setters. rewrite lookup_snoc_at. cbv zeta.
  erewrite broadcastToRoom_eq;
    [|setters; rewrite !alter_snoc; apply lookup_snoc_at].
  unfold broadcastCalls, audience, playerInfos, deref. setters. csimpl.
  rewrite !lookup_snoc_at. csimpl. rewrite !alter_snoc. setters.
  rewrite filter_nil. csimpl. rewrite filter_cons, filter_nil. setters.
  assert (Hins : ∀ x y : Room.t, <[length (roomObjs σ):=y]> (roomObjs σ ++ [x])
                               = roomObjs σ ++ [y]).
  { intros x y. rewrite insert_app_r_alt, Nat.sub_diag by lia. done. }
  rewrite Hins. destruct (decide (sockets σ !! ws = Some OPEN)); by server_eq.
Qed.

(** [join] on a room the [rooms] map has. *)
Lemma join_existing_room (σ : Server) (ws : Ws) (roomId playerName : string)
    (r : Addr) (rm : Room.t) (now : Z) (rnd : Rand) :
  rooms σ !! roomId = Some r →
  roomObjs σ !! r = Some rm →
  let p := length (playerObjs σ) in
  let τ := setPlayerObjs
             (playerObjs σ ++ [Player.mk playerName 0 ws roomId now]) σ in
  let roster :=
    filter (λ a, Player.name <$> playerObjs τ !! a ≠ Some playerName)
      (Room.players rm) ++ [p] in
  join ws roomId playerName now rnd σ
  = setSent
      (sent σ
       ++ broadcastCalls τ roster
            (playerJoined playerName (playerInfos τ roster))
       ++ (if Room.isGameStarted rm
           then [Send ws (gameStarted (Room.stage rm) (Room.currentCard rm)
                            (playerInfos τ roster))]
           else []))
      (mkServer (rooms σ) (<[ws:=p]> (players σ))
         (<[connectionKey roomId playerName:=ws]> (connections σ))
         (roomListConnections σ)
         (<[r:=Room.mk (Room.id rm) roster (Room.deck rm)
                 (Room.currentCard rm) (Room.stage rm) (Room.isGameStarted rm)
                 (Room.createdAt rm) now (Room.creator rm)]> (roomObjs σ))
         (playerObjs τ) (sockets σ)
         (<[ws:=playerListener roomId playerName (Some r) p]> (listeners σ))
         (sent σ)).
Proof.
  intros Hroom Hr. cbv zeta. unfold join. setters. rewrite Hroom. cbv zeta.
  setters.
  rewrite (alter_at _ _ _ _ Hr), !alter_insert_at. setters.
  rewrite (lookup_insert_at _ _ _ _ Hr). cbv zeta. setters.
  erewrite broadcastToRoom_eq;
    [|setters; rewrite (alter_at _ _ _ _ Hr), !alter_insert_at;
      apply (lookup_insert_at _ _ _ _ Hr)].
  unfold broadcastCalls, audience, playerInfos, deref. setters.
  rewrite (alter_at _ _ _ _ Hr), !alter_insert_at, list_insert_insert_eq.
  destruct (Room.isGameStarted rm) eqn:Hs; server_eq;
    rewrite <- ?app_assoc, ?app_nil_r; try done; f_equal; by room_eq.
Qed.

(** X12. A request that carries one of [room] and [name] but not the
    other, an empty value counting as none, is closed with code 4000
    and the reason "Missing room ID or player name". The socket is left
    closing; no room, player, connection or handler is recorded for it. *)
Theorem half_a_request_is_turned_away (σ : Server)
    (roomParam nameParam : option string) (now : Z) (rnd : Rand) :
  missing roomParam ≠ missing nameParam →
  step (connection roomParam nameParam) now rnd σ
  = setSent
      (sent σ
       ++ [Close (length (sockets σ)) 4000 "Missing room ID or player name"])
      (setSockets (sockets σ ++ [CLOSING]) σ).
Proof.
  intros Hne. unfold step, onConnection, wsClose.
  destruct (missing roomParam) eqn:Hr, (missing nameParam) eqn:Hn;
    try done; cbn [andb orb];
    destruct roomParam as [roomId|], nameParam as [playerName|];
    try discriminate; rewrite ?Hr, ?Hn; cbn [orb]; setters;
    rewrite alter_snoc; by server_eq.
Qed.

Lemma half_a_request_is_turned_away_witness :
  step (connection (Some "den") (Some "")) 5 (λ _, 0%nat) lobby
  = setSent
      (sent lobby
       ++ [Close (length (sockets lobby)) 4000
             "Missing room ID or player name"])
      (setSockets (sockets lobby ++ [CLOSING]) lobby).
Proof. apply half_a_request_is_turned_away. by vm_compute. Defined.

(** X13. A request with neither [room] nor [name] becomes a watcher of
    the room list: its socket joins [roomListConnections], it is sent the
    list of rooms at once, one entry for each entry of [rooms] that holds
    a room, in the order of [entries], and it gets the handlers of a
    watcher. No room and no player is made for it. *)
Theorem a_bare_request_watches_the_rooms (σ : Server)
    (roomParam nameParam : option string) (now : Z) (rnd : Rand) :
  missing roomParam = true → missing nameParam = true →
  let ws := length (sockets σ) in
  step (connection roomParam nameParam) now rnd σ
  = mkServer (rooms σ) (players σ) (connections σ)
      ({[ws]} ∪ roomListConnections σ) (roomObjs σ) (playerObjs σ)
      (sockets σ ++ [OPEN]) (<[ws:=roomListListener]> (listeners σ))
      (sent σ ++ [Send ws (roomsList (omap (roomInfoOf σ) (entries σ)))]).
Proof.
  intros Hr Hn. cbv zeta.
  unfold step, onConnection, sendRoomsList, isOpen, entries.
  rewrite Hr, Hn. cbn [andb]. setters. rewrite lookup_snoc_at.
  rewrite bool_decide_eq_true_2 by done. by server_eq.
Qed.

Lemma a_bare_request_watches_the_rooms_witness :
  sent (step (connection None (Some "")) 5 (λ _, 0%nat) bThenA)
  = sent bThenA
    ++ [Send 2%nat
          (roomsList
             [mkRoomInfo "b" [("Bea", 0)] false 1 "Bea";
              mkRoomInfo "a" [("Al", 0)] false 1 "Al"])].
Proof.
  rewrite (a_bare_request_watches_the_rooms bThenA None (Some "") 5
             (λ _, 0%nat) eq_refl eq_refl).
  vm_compute. reflexivity.
Defined.

Lemma alter_none {A} (f : A → A) (l : list A) (i : nat) :
  l !! i = None → alter f i l = l.
Proof.
  revert i. induction l as [|y l IH]; intros [|i] H; simplify_eq/=; [done..|].
  f_equal. by apply IH.
Qed.

(** What [join] records for the socket whatever the room: the player
    object, the two registry entries, and nothing but sends on the wire. *)
Lemma join_records (σ : Server) (ws : Ws) (roomId playerName : string)
    (now : Z) (rnd : Rand) :
  let τ := join ws roomId playerName now rnd σ in
  players τ = <[ws:=length (playerObjs σ)]> (players σ)
  ∧ connections τ = <[connectionKey roomId playerName:=ws]> (connections σ)
  ∧ playerObjs τ = playerObjs σ ++ [Player.mk playerName 0 ws roomId now]
  ∧ sockets τ = sockets σ
  ∧ roomListConnections τ = roomListConnections σ
  ∧ ∃ extra, sent τ = sent σ ++ extra
             ∧ Forall (λ c, ∃ w m, c = Send w m) extra.
Proof.
  cbv zeta. destruct (rooms σ !! roomId) as [r|] eqn:Hroom.
  - destruct (roomObjs σ !! r) as [rm|] eqn:Hr.
    + rewrite (join_existing_room _ _ _ _ _ _ _ _ Hroom Hr). setters.
      repeat match goal with |- _ ∧ _ => split end; try done.
      eexists. split; [done|]. apply Forall_app. split.
      * unfold broadcastCalls.
        induction (audience _ _); constructor; eauto.
      * destruct (Room.isGameStarted rm); repeat constructor; eauto.
    + unfold join. setters. rewrite Hroom. cbv zeta. setters.
      rewrite !(alter_none _ _ _ Hr), Hr. setters.
      repeat match goal with |- _ ∧ _ => split end; try done.
      exists nil. by rewrite app_nil_r.
  - rewrite (join_new_room _ _ _ _ _ _ Hroom). setters.
    repeat match goal with |- _ ∧ _ => split end; try done.
    eexists. split; [done|].
    destruct (decide (sockets σ !! ws = Some OPEN)); repeat constructor; eauto.
Qed.

(** A request with both parameters whose key is not registered goes
    straight to [join]. *)
Lemma onConnection_join (σ : Server) (ws : Ws) (roomId playerName : string)
    (now : Z) (rnd : Rand) :
  roomId ≠ "" → playerName ≠ "" →
  connections σ !! connectionKey roomId playerName = None →
  onConnection ws (Some roomId) (Some playerName) now rnd σ
  = join ws roomId playerName now rnd σ.
Proof.
  intros Hr Hn Hc. unfold onConnection.
  rewrite (missing_Some _ Hr), (missing_Some _ Hn). cbn [andb orb].
  by rewrite Hc.
Qed.

(** X14. The first request for a room id makes the room: a new Room
    object under that id with the asker as creator and only member, a
    freshly shuffled deck, no card, no stage, not started, created and
    last active now; a new Player object with score 0; the connection
    registered under its key; and one [playerJoined] to the asker, whose
    scoreboard is the asker alone. *)
Theorem the_first_to_ask_opens_the_room (σ : Server)
    (roomId playerName : string) (now : Z) (rnd : Rand) :
  roomId ≠ "" → playerName ≠ "" →
  connections σ !! connectionKey roomId playerName = None →
  rooms σ !! roomId = None →
  let ws := length (sockets σ) in
  let r := length (roomObjs σ) in
  let p := length (playerObjs σ) in
  step (connection (Some roomId) (Some playerName)) now rnd σ
  = mkServer (<[roomId:=r]> (rooms σ)) (<[ws:=p]> (players σ))
      (<[connectionKey roomId playerName:=ws]> (connections σ))
      (roomListConnections σ)
      (roomObjs σ
       ++ [Room.mk roomId [p] (reset rnd) None None false now now playerName])
      (playerObjs σ ++ [Player.mk playerName 0 ws roomId now])
      (sockets σ ++ [OPEN])
      (<[ws:=playerListener roomId playerName (Some r) p]> (listeners σ))
      (sent σ ++ [Send ws (playerJoined playerName [(playerName, 0)])]).
Proof.
  intros Hr Hn Hc Hroom. cbv zeta. unfold step.
  rewrite onConnection_join by done. rewrite join_new_room by done. setters.
  rewrite lookup_snoc_at. by rewrite decide_True by done.
Qed.

Lemma the_first_to_ask_opens_the_room_witness :
  rooms (step (connection (Some "ABC123") (Some "Alice")) 10 (λ _, 0%nat)
           initial)
  = {["ABC123" := 0%nat]}.
Proof.
  rewrite (the_first_to_ask_opens_the_room initial "ABC123" "Alice" 10
             (λ _, 0%nat)) by by vm_compute.
  reflexivity.
Defined.

Lemma omap_filter_through {A B} (f g : A → option B) (P : A → Prop)
    (Q : B → Prop) `{!∀ a, Decision (P a)} `{!∀ b, Decision (Q b)}
    (l : list A) :
  (∀ a, match g a with
        | Some b => f a = Some b ∧ (P a ↔ Q b)
        | None => P a → f a = None
        end) →
  omap f (filter P l) = filter Q (omap g l).
Proof.
  intros Hall. induction l as [|a l IH]; [done|]. pose proof (Hall a) as Ha.
  rewrite filter_cons. csimpl. destruct (g a) as [b|] eqn:Hg.
  - destruct Ha as [Hf HPQ]. rewrite filter_cons.
    destruct (decide (P a)) as [HP|HP].
    + rewrite decide_True by (by apply HPQ). csimpl. by rewrite Hf, IH.
    + rewrite decide_False by (by rewrite <- HPQ). done.
  - destruct (decide (P a)); [|done]. csimpl. by rewrite Ha, IH.
Qed.

(** Dropping a name from a roster, read through the store the newcomer
    has just been added to, is dropping it from the players behind the
    roster. *)
Lemma deref_filter_name (objs : list Player.t) (new : Player.t)
    (ps : list Addr) :
  omap (λ a, (objs ++ [new]) !! a)
    (filter (λ a, Player.name <$> (objs ++ [new]) !! a
                  ≠ Some (Player.name new)) ps)
  = filter (λ pl, Player.name pl ≠ Player.name new)
      (omap (λ a, objs !! a) ps).
Proof.
  apply omap_filter_through. intros a.
  destruct (objs !! a) as [pl|] eqn:Hpl.
  - rewrite (lookup_app_l_Some _ _ _ _ Hpl). split; [done|]. simpl.
    split; intros E; congruence.
  - apply lookup_ge_None in Hpl.
    destruct (decide (a = length objs)) as [->|Hne].
    + rewrite lookup_snoc_at. simpl. intros E. by destruct E.
    + intros _. apply lookup_ge_None. rewrite length_app. simpl. lia.
Qed.

(** X15. A request for a room that exists, under a key that is not
    registered, adds the asker at the end of the room's player list with
    score 0, after taking out any member of the same name. The game state
    of the room (deck, card, stage, started flag) is not touched.
    [playerJoined] with the new scoreboard goes to every open member,
    the asker last; if a game is under way the asker then gets the
    [gameStarted] snapshot, and otherwise nothing more. *)
Theorem a_newcomer_joins_the_room (σ : Server) (roomId playerName : string)
    (r : Addr) (rm : Room.t) (now : Z) (rnd : Rand) :
  roomId ≠ "" → playerName ≠ "" →
  connections σ !! connectionKey roomId playerName = None →
  rooms σ !! roomId = Some r →
  roomObjs σ !! r = Some rm →
  let ws := length (sockets σ) in
  let τ := step (connection (Some roomId) (Some playerName)) now rnd σ in
  let others :=
    filter (λ pl, Player.name pl ≠ playerName) (deref σ (Room.players rm)) in
  let board :=
    map (λ pl, (Player.name pl, Player.score pl)) others
    ++ [(playerName, 0)] in
  (∃ roster,
     roomObjs τ
     = <[r:=Room.mk (Room.id rm) roster (Room.deck rm) (Room.currentCard rm)
              (Room.stage rm) (Room.isGameStarted rm) (Room.createdAt rm) now
              (Room.creator rm)]> (roomObjs σ)
     ∧ deref τ roster = others ++ [Player.mk playerName 0 ws roomId now])
  ∧ rooms τ = rooms σ
  ∧ sent τ
    = sent σ
      ++ map (λ w, Send w (playerJoined playerName board))
           (filter (λ w, (sockets σ ++ [OPEN]) !! w = Some OPEN)
              (map Player.ws others) ++ [ws])
      ++ (if Room.isGameStarted rm
          then [Send ws (gameStarted (Room.stage rm) (Room.currentCard rm)
                           board)]
          else []).
Proof.
  intros Hrn Hn Hc Hroom Hr. cbv zeta. unfold step.
  rewrite onConnection_join by done.
  rewrite (join_existing_room (setSockets (sockets σ ++ [OPEN]) σ) _ _ _ r rm
             _ _ Hroom Hr).
  set (new := Player.mk playerName 0 (length (sockets σ)) roomId now).
  assert (Hd :
    omap (λ a, (playerObjs σ ++ [new]) !! a)
      (filter (λ a, Player.name <$> (playerObjs σ ++ [new]) !! a
                    ≠ Some playerName) (Room.players rm))
    = filter (λ pl, Player.name pl ≠ playerName)
        (omap (λ a, playerObjs σ !! a) (Room.players rm)))
    by apply (deref_filter_name (playerObjs σ) new).
  assert (Hderef :
    omap (λ a, (playerObjs σ ++ [new]) !! a)
      (filter (λ a, Player.name <$> (playerObjs σ ++ [new]) !! a
                    ≠ Some playerName) (Room.players rm)
       ++ [length (playerObjs σ)])
    = filter (λ pl, Player.name pl ≠ playerName)
        (omap (λ a, playerObjs σ !! a) (Room.players rm)) ++ [new]).
  { rewrite omap_app, Hd. csimpl. rewrite lookup_snoc_at. reflexivity. }
  unfold broadcastCalls, audience, playerInfos, deref. setters.
  rewrite !Hderef. split; [|split; [done|]].
  - eexists. split; [reflexivity|]. exact Hderef.
  - f_equal. rewrite !map_app, filter_app. cbn [map]. rewrite filter_cons.
    cbn [Player.ws Player.name Player.score new filter].
    rewrite lookup_snoc_at, decide_True by done.
    by rewrite filter_nil, !map_app.
Qed.

Lemma a_newcomer_joins_the_room_witness :
  rooms (step (connection (Some "ABC123") (Some "Cleo")) 12 (λ _, 0%nat)
           lobby)
  = rooms lobby.
Proof.
  assert (Hc : connections lobby !! connectionKey "ABC123" "Cleo" = None)
    by (vm_compute; reflexivity).
  assert (Hroom : rooms lobby !! "ABC123" = Some 0%nat)
    by (vm_compute; reflexivity).
  assert (Hr : roomObjs lobby !! 0%nat
               = Some (Room.mk "ABC123" [0%nat; 1%nat] (reset (λ _, 0%nat))
                         None None false 10 11 "Alice"))
    by (vm_compute; reflexivity).
  pose proof (a_newcomer_joins_the_room lobby "ABC123" "Cleo" 0%nat _ 12
                (λ _, 0%nat) ltac:(done) ltac:(done) Hc Hroom Hr) as H.
  cbv zeta in H. exact (proj1 (proj2 H)).
Defined.



(** X17. A player who opens a room and leaves it while alone leaves the
    three maps as they were before the request: the room is deleted from
    [rooms] with its last member, and nobody is told. *)
Theorem coming_and_going_alone_leaves_no_room (σ : Server)
    (roomId playerName : string) (now now' : Z) (rnd rnd' : Rand) :
  roomId ≠ "" → playerName ≠ "" →
  connections σ !! connectionKey roomId playerName = None →
  rooms σ !! roomId = None →
  players σ !! length (sockets σ) = None →
  let ws := length (sockets σ) in
  let τ :=
    step (closed ws) now' rnd'
      (step (connection (Some roomId) (Some playerName)) now rnd σ) in
  rooms τ = rooms σ
  ∧ players τ = players σ
  ∧ connections τ = connections σ
  ∧ sockets τ = sockets σ ++ [CLOSED]
  ∧ sent τ = sent σ ++ [Send ws (playerJoined playerName [(playerName, 0)])].
Proof.
  intros Hrn Hn Hc Hroom Hp. cbv zeta.
  assert (Hconn :
    step (connection (Some roomId) (Some playerName)) now rnd σ
    = mkServer (<[roomId:=length (roomObjs σ)]> (rooms σ))
        (<[length (sockets σ):=length (playerObjs σ)]> (players σ))
        (<[connectionKey roomId playerName:=length (sockets σ)]>
           (connections σ))
        (roomListConnections σ)
        (roomObjs σ
         ++ [Room.mk roomId [length (playerObjs σ)] (reset rnd) None None
               false now now playerName])
        (playerObjs σ
         ++ [Player.mk playerName 0 (length (sockets σ)) roomId now])
        (sockets σ ++ [OPEN])
        (<[length (sockets σ):=
             playerListener roomId playerName (Some (length (roomObjs σ)))
               (length (playerObjs σ))]> (listeners σ))
        (sent σ
         ++ [Send (length (sockets σ))
               (playerJoined playerName [(playerName, 0)])])).
  { unfold step. rewrite onConnection_join by done.
    rewrite join_new_room by done. setters.
    rewrite lookup_snoc_at. by rewrite decide_True by done. }
  rewrite Hconn. clear Hconn.
  unfold step, onClose. setters. rewrite lookup_insert_eq.
  unfold handlePlayerDisconnect. setters.
  rewrite !lookup_insert_eq, !lookup_snoc_at. cbv zeta. setters.
  rewrite !lookup_insert_eq, !lookup_snoc_at. setters.
  rewrite filter_cons, lookup_snoc_at.
  cbn [fmap option_fmap option_map Player.ws].
  rewrite decide_False by (intros E; by apply E). rewrite filter_nil.
  cbn [length]. rewrite bool_decide_eq_true_2 by done. setters.
  rewrite !delete_insert_id by done.
  rewrite insert_app_r_alt, Nat.sub_diag by lia. done.
Qed.

Lemma coming_and_going_alone_leaves_no_room_witness :
  rooms (step (closed 0%nat) 11 (λ _, 0%nat)
           (step (connection (Some "ABC123") (Some "Alice")) 10 (λ _, 0%nat)
              initial))
  = ∅.
Proof.
  pose proof (coming_and_going_alone_leaves_no_room initial "ABC123" "Alice"
                10 11 (λ _, 0%nat) (λ _, 0%nat) ltac:(done) ltac:(done)
                eq_refl eq_refl eq_refl) as H.
  cbv zeta in H. exact (proj1 H).
Defined.

(** ** Between the moves *)

(** X18. In a state the server can reach, a started room holds a
    current card. While it is in one of the four stages its deck holds 51
    cards less one for each guess of the round, so the draw of the next
    guess does give a card. A started room without a stage, which only a
    guess whose log line threw leaves behind, has at most 47 cards; there
    alone can the deck run dry. *)
Theorem a_round_in_a_stage_can_draw (σ : Server) (r : Addr) (rm : Room.t) :
  reachable σ →
  roomObjs σ !! r = Some rm →
  Room.isGameStarted rm = true →
  is_Some (Room.currentCard rm)
  ∧ (∀ s, Room.stage rm = Some s →
          deckLength (Room.deck rm) = (51 - stageIndex s)%nat
          ∧ ∃ card rest, draw (Room.deck rm) = (Some card, rest)
                         ∧ Room.deck rm = rest ++ [card])
  ∧ (Room.stage rm = None → (deckLength (Room.deck rm) ≤ 47)%nat).
Proof.
  intros Hreach Hr Hs.
  pose proof (proj1 (Forall_lookup _ _) (reachable_roomsOk σ Hreach) r rm Hr)
    as Hrm.
  unfold roomInv in Hrm. rewrite Hs in Hrm.
  destruct Hrm as (c & Hc & Hlen).
  split; [by exists c|]. split.
  - intros s Hstage. rewrite Hstage in Hlen. split; [exact Hlen|].
    destruct (draw_nonempty (Room.deck rm)) as (card & Hlast & Hsplit).
    { intros E. rewrite E in Hlen. destruct s; discriminate Hlen. }
    exists card, (removelast (Room.deck rm)).
    split; [|done]. unfold draw. by rewrite Hlast.
  - intros Hstage. by rewrite Hstage in Hlen.
Qed.

Lemma a_round_in_a_stage_can_draw_witness :
  ∃ rm card rest,
    roomObjs aliceAndBob !! 0%nat = Some rm
    ∧ draw (Room.deck rm) = (Some card, rest).
Proof.
  assert (Hreach : reachable aliceAndBob).
  { unfold aliceAndBob, lobby. cbn [run foldl].
    apply reachable_step, reachable_step, reachable_step, reachable_initial. }
  assert (Hs : Room.isGameStarted <$> roomObjs aliceAndBob !! 0%nat
               = Some true)
    by (vm_compute; reflexivity).
  assert (Hst : Room.stage <$> roomObjs aliceAndBob !! 0%nat
                = Some (Some red_black))
    by (vm_compute; reflexivity).
  destruct (roomObjs aliceAndBob !! 0%nat) as [rm|] eqn:Hr;
    [|discriminate Hs].
  injection Hs as Hs. injection Hst as Hst.
  destruct (a_round_in_a_stage_can_draw aliceAndBob 0%nat rm Hreach Hr Hs)
    as (_ & H & _).
  destruct (H _ Hst) as (_ & card & rest & Hdraw & _).
  exists rm, card, rest. split; [reflexivity|assumption].
Defined.

(** X19. Only [startGame] and [guess] are moves. Any other frame from a
    player changes no score and no game: text that does not parse is
    answered with MESSAGE_PARSE_ERROR and leaves the whole state as it
    was, the time of last activity included; a parsed message of any
    other type sets the time of last activity of the sender's room, and
    is answered with [pong] for [ping], with the state of the room for
    [getState], and with nothing otherwise. The answer goes to the sender
    alone. *)
Theorem what_is_not_a_move_changes_no_game (σ : Server) (ws : Ws)
    (roomId playerName : string) (r p : Addr) (rm : Room.t)
    (payload : Inbound) (now : Z) (rnd : Rand) :
  listeners σ !! ws = Some (playerListener roomId playerName (Some r) p) →
  roomObjs σ !! r = Some rm →
  (∀ g, payload ≠ json "startGame" g) →
  (∀ g, payload ≠ json "guess" g) →
  step (message ws payload) now rnd σ
  = match payload with
    | unparsable => setSent (sent σ ++ [Send ws messageParseError]) σ
    | json type _ =>
      setSent
        (sent σ
         ++ (if String.eqb type "ping" then [Send ws pong]
             else if String.eqb type "getState" then
               [Send ws (stateReply (Room.stage rm) (Room.currentCard rm)
                           (playerInfos σ (Room.players rm))
                           (Room.isGameStarted rm))]
             else []))
        (setRoomObjs (<[r:=Room.setLastActivity now rm]> (roomObjs σ)) σ)
    end.
Proof.
  intros Hl Hr Hstart Hguess. unfold step, onMessage. rewrite Hl.
  unfold onPlayerMessage. destruct payload as [|type g]; [done|].
  cbv zeta. destruct (String.eqb type "ping") eqn:Hping.
  { server_eq. apply (alter_at _ _ _ _ Hr). }
  destruct (String.eqb type "startGame") eqn:Hsg.
  { apply String.eqb_eq in Hsg as ->. by destruct (Hstart g). }
  destruct (String.eqb type "guess") eqn:Hgs.
  { apply String.eqb_eq in Hgs as ->. by destruct (Hguess g). }
  destruct (String.eqb type "getState") eqn:Hget.
  - unfold onGetState. setters. rewrite (alter_at _ _ _ _ Hr).
    rewrite (lookup_insert_at _ _ _ _ Hr). server_eq.
    apply (alter_at _ _ _ _ Hr).
  - server_eq; [apply (alter_at _ _ _ _ Hr)|by rewrite app_nil_r].
Qed.

Lemma what_is_not_a_move_changes_no_game_witness :
  sent (step (message 1%nat (json "getState" "")) 12 (λ _, 0%nat) lobby)
  = sent lobby
    ++ [Send 1%nat (stateReply None None [("Alice", 0); ("Bob", 0)] false)].
Proof.
  assert (Hl : listeners lobby !! 1%nat
               = Some (playerListener "ABC123" "Bob" (Some 0%nat) 1%nat))
    by (vm_compute; reflexivity).
  assert (Hr : roomObjs lobby !! 0%nat
               = Some (Room.mk "ABC123" [0%nat; 1%nat] (reset (λ _, 0%nat))
                         None None false 10 11 "Alice"))
    by (vm_compute; reflexivity).
  rewrite (what_is_not_a_move_changes_no_game lobby 1%nat _ _ _ _ _
             (json "getState" "") 12 (λ _, 0%nat) Hl Hr)
    by (intros g; discriminate).
  vm_compute. reflexivity.
Defined.

(** ** Connection keys *)

Lemma append_assoc (a b c : string) : (a +:+ b) +:+ c = a +:+ (b +:+ c).
Proof. induction a as [|x a IH]; [done|]. exact (f_equal (String x) IH). Qed.

Lemma append_length (a b : string) :
  String.length (a +:+ b) = (String.length a + String.length b)%nat.
Proof.
  induction a as [|x a IH]; [done|].
  change (S (String.length (a +:+ b))
          = S (String.length a + String.length b)).
  by rewrite IH.
Qed.

Lemma append_nonempty (a b : string) : b ≠ "" → a +:+ b ≠ "".
Proof. intros H. destruct a as [|x a]; [exact H|]. intros E. discriminate E. Qed.

(** X20. The key of a connection is the room id, a colon and the player
    name, so a colon in an id or a name can make the keys of two different
    pairs equal. While the player [b:c] of room [a] is connected, a request
    of player [c] for the other room [a:b] is turned away as a duplicate,
    with code 4001, as if that player were in that room already. *)
Theorem a_colon_can_make_two_keys_one (σ : Server) (a b c : string)
    (old : Ws) (now : Z) (rnd : Rand) :
  c ≠ "" →
  connections σ !! connectionKey a (b +:+ ":" +:+ c) = Some old →
  sockets σ !! old = Some OPEN →
  a +:+ ":" +:+ b ≠ a
  ∧ step (connection (Some (a +:+ ":" +:+ b)) (Some c)) now rnd σ
    = setSent
        (sent σ
         ++ [Close (length (sockets σ)) 4001
               "You are already connected to this room"])
        (setSockets (sockets σ ++ [CLOSING]) σ).
Proof.
  intros Hc Hk Hs. split.
  { intros E. apply (f_equal String.length) in E.
    rewrite !append_length in E. simpl in E. lia. }
  unfold step, onConnection.
  rewrite missing_Some by (apply append_nonempty; intros E; discriminate E).
  rewrite (missing_Some _ Hc). cbn [andb orb]. setters.
  assert (Hkey : connectionKey (a +:+ ":" +:+ b) c
                 = connectionKey a (b +:+ ":" +:+ c)).
  { unfold connectionKey. by rewrite !append_assoc. }
  rewrite Hkey, Hk. unfold isOpen. setters.
  rewrite (lookup_app_l_Some _ _ _ _ Hs).
  rewrite bool_decide_eq_true_2 by done. unfold wsClose. setters.
  rewrite alter_snoc. by server_eq.
Qed.

Lemma a_colon_can_make_two_keys_one_witness :
  sockets
    (step (connection (Some "a:b") (Some "c")) 6 (λ _, 0%nat)
       (step (connection (Some "a") (Some "b:c")) 5 (λ _, 0%nat) initial))
  = [OPEN; CLOSING].
Proof.
  pose proof (a_colon_can_make_two_keys_one
                (step (connection (Some "a") (Some "b:c")) 5 (λ _, 0%nat)
                   initial)
                "a" "b" "c" 0%nat 6 (λ _, 0%nat) ltac:(done)
                ltac:(vm_compute; reflexivity) ltac:(vm_compute; reflexivity))
    as [_ H].
  change ("a" +:+ ":" +:+ "b") with "a:b" in H. by rewrite H.
Defined.

(** X21. Without a colon in the room ids the key does tell the pairs
    apart: two requests have the same key only if they name the same room
    and the same player. *)
Theorem keys_tell_the_pairs_apart (a a' b b' : string) :
  colonFree a = true → colonFree a' = true →
  connectionKey a b = connectionKey a' b' →
  a = a' ∧ b = b'.
Proof.
  unfold connectionKey. revert a'.
  induction a as [|x a IH]; intros [|x' a'] Ha Ha' E.
  - by injection E.
  - injection E as <- _. discriminate Ha'.
  - injection E as -> _. discriminate Ha.
  - injection E as -> E. cbn [colonFree] in Ha, Ha'.
    apply andb_prop in Ha as [_ Ha]. apply andb_prop in Ha' as [_ Ha'].
    destruct (IH a' Ha Ha' E) as [-> ->]. done.
Qed.

Lemma keys_tell_the_pairs_apart_witness :
  "ABC123" = "ABC123" ∧ "Bob" = "Bob".
Proof. by apply keys_tell_the_pairs_apart. Defined.

(** ** Watchers of the room list *)

(** X22. A watcher can ask and be answered, and no more: [ping] gets
    [pong], [getRooms] gets the list of rooms, in the order of [entries],
    if the socket is open, and any other frame, a move or text that does not parse included, is
    dropped without an answer. Nothing but the trace changes. When the
    watcher closes it is taken out of [roomListConnections] and its timer
    sends no further list. *)
Theorem a_watcher_only_watches (σ : Server) (ws : Ws) (payload : Inbound)
    (now now' : Z) (rnd rnd' : Rand) :
  listeners σ !! ws = Some roomListListener →
  (∃ reply,
     step (message ws payload) now rnd σ = setSent (sent σ ++ reply) σ
     ∧ reply
       = match payload with
         | unparsable => []
         | json type _ =>
           if String.eqb type "ping" then [Send ws pong]
           else if String.eqb type "getRooms" then
             if decide (sockets σ !! ws = Some OPEN)
             then [Send ws (roomsList (omap (roomInfoOf σ) (entries σ)))]
             else []
           else []
         end)
  ∧ (let τ := step (closed ws) now rnd σ in
     τ = setRoomListConnections (roomListConnections σ ∖ {[ws]})
           (setSockets (<[ws:=CLOSED]> (sockets σ)) σ)
     ∧ step (roomListTick ws) now' rnd' τ = τ).
Proof.
  intros Hl. split.
  - eexists. split; [|reflexivity]. unfold step, onMessage. rewrite Hl.
    unfold onRoomListMessage. destruct payload as [|type g].
    { server_eq. by rewrite app_nil_r. }
    destruct (String.eqb type "ping"); [done|].
    destruct (String.eqb type "getRooms").
    + unfold sendRoomsList, isOpen.
      destruct (decide (sockets σ !! ws = Some OPEN)) as [Ho|Ho].
      * by rewrite bool_decide_eq_true_2 by done.
      * rewrite bool_decide_eq_false_2 by done. server_eq.
        by rewrite app_nil_r.
    + server_eq. by rewrite app_nil_r.
  - cbv zeta. unfold step, onClose. setters. rewrite Hl. split; [done|].
    setters. rewrite bool_decide_eq_false_2; [done|].
    intros [_ Hn]%elem_of_difference. apply Hn. by apply elem_of_singleton.
Qed.

Lemma a_watcher_only_watches_witness :
  let σ := step (connection None None) 5 (λ _, 0%nat) bThenA in
  sent (step (message 2%nat (json "getRooms" "")) 6 (λ _, 0%nat) σ)
  = sent σ
    ++ [Send 2%nat
          (roomsList
             [mkRoomInfo "b" [("Bea", 0)] false 1 "Bea";
              mkRoomInfo "a" [("Al", 0)] false 1 "Al"])]
  ∧ roomListConnections (step (closed 2%nat) 6 (λ _, 0%nat) σ) = ∅.
Proof.
  cbv zeta.
  destruct (a_watcher_only_watches
              (step (connection None None) 5 (λ _, 0%nat) bThenA) 2%nat
              (json "getRooms" "") 6 7 (λ _, 0%nat) (λ _, 0%nat)
              ltac:(vm_compute; reflexivity))
    as [(reply & Hstep & Hreply) [Hτ _]].
  split.
  - rewrite Hstep, Hreply. vm_compute. reflexivity.
  - rewrite Hτ. vm_compute. reflexivity.
Defined.

(** * Nothing is admitted but by a request *)

Lemma roomKept_refl (rm : Room.t) : roomKept rm rm.
Proof. by repeat split. Qed.

Lemma playerKept_refl (pl : Player.t) : playerKept pl pl.
Proof. by repeat split. Qed.

Lemma roomKept_trans (a b c : Room.t) :
  roomKept a b → roomKept b c → roomKept a c.
Proof.
  intros (? & ? & ? & ?) (? & ? & ? & ?).
  repeat split; try congruence. by etrans.
Qed.

Lemma playerKept_trans (a b c : Player.t) :
  playerKept a b → playerKept b c → playerKept a c.
Proof.
  intros (? & ? & ? & ? & ?) (? & ? & ? & ? & ?).
  repeat split; try congruence. lia.
Qed.

Lemma frame_refl (σ : Server) : frame σ σ.
Proof.
  split; try done.
  - apply Forall2_same_length_lookup_2; [done|].
    intros i x y Hx Hy. simplify_eq. apply roomKept_refl.
  - apply Forall2_same_length_lookup_2; [done|].
    intros i x y Hx Hy. simplify_eq. apply playerKept_refl.
  - exists nil. by rewrite app_nil_r.
Qed.

Lemma frame_trans (σ τ ρ : Server) : frame σ τ → frame τ ρ → frame σ ρ.
Proof.
  intros [? ? ? ? ? ? ? ? Ho1 (e1 & He1 & ?)]
         [? ? ? ? ? ? ? ? Ho2 (e2 & He2 & ?)].
  split; try (by etrans).
  - eapply Forall2_trans; [apply roomKept_trans|done..].
  - eapply Forall2_trans; [apply playerKept_trans|done..].
  - intros ws Hopen. by apply Ho1, Ho2.
  - exists (e1 ++ e2). rewrite He2, He1, app_assoc. split; [done|].
    by apply Forall_app.
Qed.

(** The primitive updates. *)
Lemma frame_sent_app (σ : Server) (extra : list Call) :
  Forall answers extra → frame σ (setSent (sent σ ++ extra) σ).
Proof.
  intros H. destruct (frame_refl σ). split; try done. by exists extra.
Qed.

Lemma frame_wsSend (σ : Server) (ws : Ws) (m : ServerMsg) :
  answers (Send ws m) → frame σ (wsSend ws m σ).
Proof. intros H. apply frame_sent_app. by constructor. Qed.

Lemma frame_setSockets (σ : Server) (states : list ReadyState) :
  length states = length (sockets σ) →
  (∀ ws, states !! ws = Some OPEN → sockets σ !! ws = Some OPEN) →
  frame σ (setSockets states σ).
Proof.
  intros H Ho. destruct (frame_refl σ). split; try done.
Qed.

(** A socket that is open after it was closed by either side, or after
    its [close] event, was open before. *)
Lemma closing_open (states : list ReadyState) (ws w : Ws) :
  alter (λ s, if decide (s = OPEN) then CLOSING else s) ws states !! w
  = Some OPEN →
  states !! w = Some OPEN.
Proof.
  destruct (decide (w = ws)) as [->|Hne].
  - destruct (states !! ws) as [s|] eqn:Hs.
    + rewrite (alter_at _ _ _ _ Hs), (lookup_insert_at _ _ _ _ Hs).
      by destruct (decide (s = OPEN)).
    + by rewrite (alter_none _ _ _ Hs), Hs.
  - by rewrite list_lookup_alter_ne.
Qed.

Lemma closed_open (states : list ReadyState) (ws w : Ws) :
  <[ws:=CLOSED]> states !! w = Some OPEN → states !! w = Some OPEN.
Proof.
  destruct (decide (w = ws)) as [->|Hne].
  - intros H. apply list_lookup_insert_Some in H as [(_ & E & _)|[? ?]];
      done.
  - by rewrite list_lookup_insert_ne.
Qed.

Lemma frame_wsClose (σ : Server) (ws : Ws) (code : Z) (reason : string) :
  frame σ (wsClose ws code reason σ).
Proof.
  unfold wsClose. eapply frame_trans; [apply frame_setSockets|].
  { apply length_alter. }
  { intros w. apply closing_open. }
  apply (frame_sent_app (setSockets _ σ)). by constructor.
Qed.

Lemma frame_alterRoom (σ : Server) (r : Addr) (f : Room.t → Room.t) :
  (∀ rm, roomObjs σ !! r = Some rm → roomKept rm (f rm)) →
  frame σ (alterRoom r f σ).
Proof.
  intros Hf. destruct (frame_refl σ). split; try done. setters.
  apply Forall2_alter_r; [done|]. intros x y Hx Hy _.
  rewrite Hx in Hy. injection Hy as <-. by apply Hf.
Qed.

Lemma frame_alterPlayer (σ : Server) (p : Addr) (f : Player.t → Player.t) :
  (∀ pl, playerKept pl (f pl)) → frame σ (alterPlayer p f σ).
Proof.
  intros Hf. destruct (frame_refl σ). split; try done. setters.
  apply Forall2_alter_r; [done|]. intros x y Hx Hy _.
  rewrite Hx in Hy. injection Hy as <-. by apply Hf.
Qed.

Lemma frame_setRooms (σ : Server) (m : gmap string Addr) :
  m ⊆ rooms σ → frame σ (setRooms m σ).
Proof. intros H. destruct (frame_refl σ). by split. Qed.

Lemma frame_setPlayers (σ : Server) (m : gmap Ws Addr) :
  m ⊆ players σ → frame σ (setPlayers m σ).
Proof. intros H. destruct (frame_refl σ). by split. Qed.

Lemma frame_setConnections (σ : Server) (m : gmap string Ws) :
  m ⊆ connections σ → frame σ (setConnections m σ).
Proof. intros H. destruct (frame_refl σ). by split. Qed.

Lemma frame_setRoomListConnections (σ : Server) (s : gset Ws) :
  s ⊆ roomListConnections σ → frame σ (setRoomListConnections s σ).
Proof. intros H. destruct (frame_refl σ). by split. Qed.

Lemma frame_foldl {A} (f : Server → A → Server) (l : list A) (σ : Server) :
  (∀ τ a, frame τ (f τ a)) → frame σ (foldl f σ l).
Proof.
  intros Hf. revert σ. induction l as [|a l IH]; intros σ; simpl.
  - apply frame_refl.
  - eapply frame_trans; [apply Hf|apply IH].
Qed.

(** One more update after a framed run of updates. *)
Ltac kept :=
  let rm := fresh "rm" in
  let H := fresh "H" in
  intros rm H; repeat split; simpl; try reflexivity;
  simplify_eq; try apply sublist_filter.

Ltac frame_step :=
  first
    [ apply frame_refl
    | eapply frame_trans;
      [|first [ apply frame_wsSend; exact I
              | apply frame_wsSend; discriminate
              | apply frame_wsClose
              | apply frame_alterRoom; solve [kept]
              | apply frame_alterPlayer; intros ?; repeat split; simpl; lia
              | apply frame_setRooms; setters; apply delete_subseteq
              | apply frame_setPlayers; setters; apply delete_subseteq
              | apply frame_setConnections; setters; apply delete_subseteq ]] ].

Ltac frame_chain := repeat frame_step.

Lemma frame_sendIfOpen (σ : Server) (m : ServerMsg) (pl : Player.t) :
  (∀ w, answers (Send w m)) → frame σ (sendIfOpen m σ pl).
Proof.
  intros Hm. unfold sendIfOpen. destruct (isOpen σ (Player.ws pl)).
  - apply frame_wsSend, Hm.
  - apply frame_refl.
Qed.

Lemma frame_broadcastToRoom (σ : Server) (r : Addr) (now : Z)
    (m : ServerMsg) :
  (∀ w, answers (Send w m)) → frame σ (broadcastToRoom r now m σ).
Proof.
  intros Hm. unfold broadcastToRoom.
  destruct (roomObjs σ !! r) as [room|]; [|apply frame_refl]. cbv zeta.
  eapply frame_trans; [|apply frame_foldl; intros; by apply frame_sendIfOpen].
  frame_chain.
Qed.

Lemma frame_handleGameOver (σ : Server) (r : Addr) (now : Z) :
  frame σ (handleGameOver r now σ).
Proof.
  unfold handleGameOver.
  destruct (roomObjs σ !! r) as [room|]; [|apply frame_refl]. cbv zeta.
  frame_chain. apply frame_broadcastToRoom. intros; exact I.
Qed.

Lemma frame_onStartGame (σ : Server) (ws : Ws) (r : Addr) (now : Z)
    (rnd : Rand) :
  frame σ (onStartGame ws (Some r) now rnd σ).
Proof.
  unfold onStartGame.
  destruct (roomObjs σ !! r) as [rm|]; [|apply frame_refl].
  destruct (Room.isGameStarted rm); [apply frame_refl|]. cbv zeta.
  destruct (draw (reset rnd)) as [card cards].
  eapply frame_trans; [|apply frame_broadcastToRoom; intros; exact I].
  frame_chain.
Qed.

Lemma frame_onGuess (σ : Server) (ws : Ws) (r p : Addr) (now : Z)
    (guess : Guess) :
  frame σ (onGuess ws (Some r) p now guess σ).
Proof.
  unfold onGuess.
  destruct (roomObjs σ !! r) as [rm|]; [|apply frame_refl].
  destruct (playerObjs σ !! p) as [pl|]; [|apply frame_refl].
  destruct (Room.isGameStarted rm);
    [|apply frame_wsSend; discriminate].
  destruct (Room.currentCard rm) as [currentCard|];
    [|apply frame_wsSend; discriminate].
  destruct (draw (Room.deck rm)) as [[nextCard|] cards]; cbv zeta.
  - destruct guess as [s|].
    + assert (frame σ
        (broadcastToRoom r now
           (guessResult (Player.name pl)
              (if checkGuess s currentCard nextCard
               then Player.score pl + 1 else Player.score pl)
              (checkGuess s currentCard nextCard)
              (getNextStage (Room.stage rm)) (Some nextCard))
           (alterRoom r (Room.setStage (getNextStage (Room.stage rm)))
              (alterRoom r (Room.setCurrentCard (Some nextCard))
                 (if checkGuess s currentCard nextCard
                  then alterPlayer p
                         (λ p0, Player.setScore (Player.score p0 + 1) p0)
                         (alterRoom r (Room.setDeck cards) σ)
                  else alterRoom r (Room.setDeck cards) σ))))) as Hb.
      { eapply frame_trans; [|apply frame_broadcastToRoom; intros; exact I].
        destruct (checkGuess s currentCard nextCard); frame_chain. }
      destruct (getNextStage (Room.stage rm)); [exact Hb|].
      eapply frame_trans; [exact Hb|apply frame_handleGameOver].
    + frame_chain.
  - eapply frame_trans; [|apply frame_handleGameOver]. frame_chain.
Qed.

Lemma frame_onGetState (σ : Server) (ws : Ws) (r : Addr) :
  frame σ (onGetState ws (Some r) σ).
Proof.
  unfold onGetState. destruct (roomObjs σ !! r); [|apply frame_refl].
  apply frame_wsSend. exact I.
Qed.

Lemma frame_sendRoomsList (σ : Server) (ws : Ws) : frame σ (sendRoomsList ws σ).
Proof.
  unfold sendRoomsList. destruct (isOpen σ ws); [|apply frame_refl].
  apply frame_wsSend. exact I.
Qed.

Lemma frame_touched (σ : Server) (room : option Addr) (now : Z) :
  frame σ (touched room now σ).
Proof. destruct room as [r|]; simpl; frame_chain. Qed.

Lemma frame_onPlayerMessage (σ : Server) (ws : Ws) (r p : Addr) (now : Z)
    (rnd : Rand) (payload : Inbound) :
  frame σ (onPlayerMessage ws (Some r) p now rnd payload σ).
Proof.
  unfold onPlayerMessage. destruct payload as [|type guess].
  { apply frame_wsSend. discriminate. }
  cbv zeta. eapply frame_trans; [apply (frame_touched _ (Some r) now)|].
  destruct (String.eqb type "ping"); [apply frame_wsSend; exact I|].
  destruct (String.eqb type "startGame"); [apply frame_onStartGame|].
  destruct (String.eqb type "guess"); [apply frame_onGuess|].
  destruct (String.eqb type "getState"); [apply frame_onGetState|].
  apply frame_refl.
Qed.

Lemma frame_onRoomListMessage (σ : Server) (ws : Ws) (payload : Inbound) :
  frame σ (onRoomListMessage ws payload σ).
Proof.
  unfold onRoomListMessage. destruct payload as [|type guess].
  { apply frame_refl. }
  destruct (String.eqb type "ping"); [apply frame_wsSend; exact I|].
  destruct (String.eqb type "getRooms"); [apply frame_sendRoomsList|].
  apply frame_refl.
Qed.

Lemma frame_handlePlayerDisconnect (σ : Server) (ws : Ws) (now : Z) :
  frame σ (handlePlayerDisconnect ws now σ).
Proof.
  unfold handlePlayerDisconnect.
  destruct (players σ !! ws) as [p|]; [|apply frame_refl].
  destruct (playerObjs σ !! p) as [player|]; [|apply frame_refl]. cbv zeta.
  destruct (rooms σ !! Player.roomId player) as [r|]; [|frame_chain].
  destruct (roomObjs σ !! r) as [room|] eqn:Hr; [|apply frame_refl].
  case_bool_decide.
  - frame_chain.
  - eapply frame_trans; [|apply frame_broadcastToRoom; intros; exact I].
    frame_chain.
Qed.

Lemma frame_sweepRoom (now : Z) (σ : Server) (entry : string * Addr) :
  frame σ (sweepRoom now σ entry).
Proof.
  unfold sweepRoom.
  destruct (roomObjs σ !! entry.2) as [room|]; [|apply frame_refl].
  destruct (now - Room.lastActivity room >? ROOM_TIMEOUT);
    [|apply frame_refl].
  cbv zeta. eapply frame_trans; [|apply frame_setRooms, delete_subseteq].
  eapply frame_trans; [|apply frame_foldl; intros; frame_chain].
  eapply frame_trans; [|apply frame_foldl; intros; apply frame_wsClose].
  apply frame_broadcastToRoom. intros; exact I.
Qed.

Lemma frame_cleanup (now : Z) (σ : Server) : frame σ (cleanup now σ).
Proof. unfold cleanup. apply frame_foldl. intros. apply frame_sweepRoom. Qed.

Lemma frame_onMessage (σ : Server) (ws : Ws) (now : Z) (rnd : Rand)
    (payload : Inbound) :
  (∀ l, listeners σ !! ws = Some l → listenerOk σ ws l) →
  frame σ (onMessage ws now rnd payload σ).
Proof.
  intros Hl. unfold onMessage.
  destruct (listeners σ !! ws) as [[|roomId playerName room p]|];
    [apply frame_onRoomListMessage| |apply frame_refl].
  destruct (Hl _ eq_refl) as (r & _ & _ & -> & _).
  apply frame_onPlayerMessage.
Qed.

Lemma frame_onClose (σ : Server) (ws : Ws) (now : Z) :
  frame σ (onClose ws now σ).
Proof.
  unfold onClose. destruct (listeners σ !! ws) as [[|? ? ? ?]|].
  - apply frame_setRoomListConnections.
    intros w [Hw _]%elem_of_difference. exact Hw.
  - apply frame_handlePlayerDisconnect.
  - apply frame_refl.
Qed.

Lemma frame_onError (σ : Server) (ws : Ws) (now : Z) :
  frame σ (onError ws now σ).
Proof.
  unfold onError. destruct (listeners σ !! ws) as [[|? ? ? ?]|];
    try apply frame_refl.
  apply frame_handlePlayerDisconnect.
Qed.

(** Every event but a request. *)
Lemma frame_step_event (σ : Server) (e : Event) (now : Z) (rnd : Rand) :
  (∀ ws l, listeners σ !! ws = Some l → listenerOk σ ws l) →
  (∀ roomParam nameParam, e ≠ connection roomParam nameParam) →
  frame σ (step e now rnd σ).
Proof.
  intros Hl He. destruct e as [rp np|ws payload|ws|ws|ws| |ws]; simpl.
  - by destruct (He rp np).
  - apply frame_onMessage, Hl.
  - apply frame_setSockets; [apply length_alter|].
    intros w. apply closing_open.
  - eapply frame_trans; [|apply frame_onClose].
    apply frame_setSockets; [apply length_insert|].
    intros w. apply closed_open.
  - apply frame_onError.
  - apply frame_cleanup.
  - case_bool_decide; [apply frame_sendRoomsList|apply frame_refl].
Qed.

(** * The shape of the reachable states *)

Lemma omap_sublist {A B} (f : A → option B) (l k : list A) :
  l `sublist_of` k → omap f l `sublist_of` omap f k.
Proof.
  induction 1 as [|x l k _ IH|x l k _ IH]; csimpl.
  - constructor.
  - destruct (f x); [by constructor|done].
  - destruct (f x); [by constructor|done].
Qed.

(** Scores apart, a kept store reads as the old one. *)
Lemma names_kept (objs objs' : list Player.t) (ps : list Addr) :
  Forall2 playerKept objs objs' →
  map Player.name (omap (λ a, objs' !! a) ps)
  = map Player.name (omap (λ a, objs !! a) ps).
Proof.
  intros H. induction ps as [|a ps IH]; [done|]. csimpl.
  destruct (proj1 (Forall2_lookup _ _ _) H a) as [x y (Hn & _)|]; csimpl;
    [|done].
  by rewrite Hn, IH.
Qed.

Lemma rosterOk_frame (σ τ : Server) (rm rm' : Room.t) :
  frame σ τ → roomKept rm rm' → rosterOk σ rm → rosterOk τ rm'.
Proof.
  intros Hf (Hid & _ & _ & Hsub) [Hmem Hnames]. split.
  - apply Forall_forall. intros a Ha.
    pose proof (elem_of_sublist _ _ _ Ha Hsub) as Ha'.
    destruct (proj1 (Forall_forall _ _) Hmem a Ha') as (pl & Hpl & Hroom).
    destruct (Forall2_lookup_l _ _ _ _ _ (frame_playerObjs _ _ Hf) Hpl)
      as (pl' & Hpl' & _ & _ & Hr & _).
    exists pl'. split; [done|]. congruence.
  - unfold deref. rewrite (names_kept _ _ _ (frame_playerObjs _ _ Hf)).
    eapply sublist_NoDup; [exact Hnames|].
    apply (fmap_sublist Player.name), omap_sublist, Hsub.
Qed.

(** Whatever admits nothing keeps the shape. *)
Lemma wf_frame (σ τ : Server) : wf σ → frame σ τ → wf τ.
Proof.
  intros Hwf Hf.
  pose proof Hf as [Hr Hp Hc Hw Hl Hro Hpo Hs _ (ex & He & Hex)].
  split.
  - intros id r H. apply (λ H, lookup_weaken _ _ _ _ H Hr) in H.
    destruct (wf_rooms _ Hwf _ _ H) as (rm & Hrm & Hid).
    destruct (Forall2_lookup_l _ _ _ _ _ Hro Hrm) as (rm' & Hrm' & Hk & _).
    exists rm'. split; [done|]. congruence.
  - intros ws p H. apply (λ H, lookup_weaken _ _ _ _ H Hp) in H.
    destruct (wf_players _ Hwf _ _ H) as (pl & Hpl & Hws).
    destruct (Forall2_lookup_l _ _ _ _ _ Hpo Hpl)
      as (pl' & Hpl' & _ & Hk & _).
    exists pl'. split; [done|]. congruence.
  - apply Forall_lookup. intros i pl' Hpl'.
    destruct (Forall2_lookup_r _ _ _ _ _ Hpo Hpl')
      as (pl & Hpl & _ & Hk & _).
    pose proof (proj1 (Forall_lookup _ _) (wf_sockets _ Hwf) i pl Hpl) as Hlt.
    simpl in Hlt. rewrite Hs, Hk. exact Hlt.
  - intros ws Hin. rewrite Hs. apply (wf_watchers _ Hwf). by apply Hw.
  - intros ws l H. rewrite Hl in H.
    destruct (wf_listeners _ Hwf _ _ H) as [Hlt Hok].
    split; [by rewrite Hs|].
    destruct l as [|roomId playerName room p]; [done|].
    destruct Hok as (r & rm & pl & -> & Hrm & Hid & Hpl & Hn & Hws & Hrid).
    destruct (Forall2_lookup_l _ _ _ _ _ Hro Hrm) as (rm' & Hrm' & Hk & _).
    destruct (Forall2_lookup_l _ _ _ _ _ Hpo Hpl)
      as (pl' & Hpl' & Hk1 & Hk2 & Hk3 & _).
    exists r, rm', pl'. repeat split; congruence.
  - apply Forall_lookup. intros i rm' Hrm'.
    destruct (Forall2_lookup_r _ _ _ _ _ Hro Hrm') as (rm & Hrm & Hk).
    eapply rosterOk_frame; [exact Hf|exact Hk|].
    exact (proj1 (Forall_lookup _ _) (wf_rosters _ Hwf) i rm Hrm).
  - rewrite He. apply Forall_app. split; [apply (wf_sent _ Hwf)|done].
Qed.

(** Live addresses read the same in a store that has grown. *)
Lemma omap_lookup_app {A} (objs more : list A) (ps : list nat) :
  Forall (λ a, is_Some (objs !! a)) ps →
  omap (λ a, (objs ++ more) !! a) ps = omap (λ a, objs !! a) ps.
Proof.
  induction 1 as [|a ps [x Hx] _ IH]; [done|]. csimpl.
  by rewrite (lookup_app_l_Some _ _ _ _ Hx), Hx, IH.
Qed.

Lemma rosterOk_app (σ τ : Server) (more : list Player.t) (rm : Room.t) :
  playerObjs τ = playerObjs σ ++ more → rosterOk σ rm → rosterOk τ rm.
Proof.
  intros Hτ [Hmem Hnames]. split.
  - eapply Forall_impl; [exact Hmem|]. intros a (pl & Hpl & Hid).
    exists pl. split; [|done]. rewrite Hτ. by apply lookup_app_l_Some.
  - unfold deref. rewrite Hτ, omap_lookup_app; [done|].
    eapply Forall_impl; [exact Hmem|]. intros a (pl & Hpl & _). by exists pl.
Qed.

Lemma listenerOk_grow (σ τ : Server) (ws : Ws) (l : Listener) :
  (∀ r rm, roomObjs σ !! r = Some rm →
           ∃ rm', roomObjs τ !! r = Some rm' ∧ Room.id rm' = Room.id rm) →
  (∀ p pl, playerObjs σ !! p = Some pl → playerObjs τ !! p = Some pl) →
  listenerOk σ ws l → listenerOk τ ws l.
Proof.
  intros Hro Hpo. destruct l as [|roomId playerName room p]; [done|].
  intros (r & rm & pl & -> & Hrm & Hid & Hpl & Hrest).
  destruct (Hro _ _ Hrm) as (rm' & Hrm' & Hid').
  exists r, rm', pl. repeat split; try tauto; try congruence. by apply Hpo.
Qed.

(** Accepting a socket. *)
Lemma wf_accept (σ : Server) (s : ReadyState) :
  wf σ → wf (setSockets (sockets σ ++ [s]) σ).
Proof.
  intros [Hr Hp Hs Hw Hl Hro Hsent]. split; setters; try done.
  - eapply Forall_impl; [exact Hs|]. intros pl Hlt. simpl in *.
    rewrite length_app. lia.
  - intros ws Hin. rewrite length_app. specialize (Hw ws Hin). lia.
  - intros ws l H. destruct (Hl ws l H) as [Hlt Hok].
    split; [rewrite length_app; lia|]. by destruct l.
Qed.

(** Registering a watcher and its handlers. *)
Lemma wf_watcher (σ : Server) (ws : Ws) :
  (ws < length (sockets σ))%nat → wf σ →
  wf (setRoomListConnections ({[ws]} ∪ roomListConnections σ) σ).
Proof.
  intros Hlt [Hr Hp Hs Hw Hl Hro Hsent]. split; setters; try done.
  intros w [->%elem_of_singleton|Hin]%elem_of_union; [done|by apply Hw].
Qed.

Lemma wf_watcher_listener (σ : Server) (ws : Ws) :
  (ws < length (sockets σ))%nat → wf σ →
  wf (setListeners (<[ws:=roomListListener]> (listeners σ)) σ).
Proof.
  intros Hlt [Hr Hp Hs Hw Hl Hro Hsent]. split; setters; try done.
  intros w l [[-> <-]|[Hne H]]%lookup_insert_Some; [done|].
  destruct (Hl w l H) as [? Hok]. split; [done|]. by destruct l.
Qed.

(** The players behind the list of a room a newcomer has joined. *)
Lemma deref_joined (objs : list Player.t) (new : Player.t) (ps : list Addr) :
  omap (λ a, (objs ++ [new]) !! a)
    (filter (λ a, Player.name <$> (objs ++ [new]) !! a
                  ≠ Some (Player.name new)) ps ++ [length objs])
  = filter (λ pl, Player.name pl ≠ Player.name new)
      (omap (λ a, objs !! a) ps) ++ [new].
Proof.
  rewrite omap_app, deref_filter_name. csimpl. by rewrite lookup_snoc_at.
Qed.

Lemma wf_join_new (σ : Server) (ws : Ws) (roomId playerName : string)
    (now : Z) (rnd : Rand) :
  rooms σ !! roomId = None →
  (ws < length (sockets σ))%nat → wf σ →
  wf (join ws roomId playerName now rnd σ).
Proof.
  intros Hroom Hlt [Hr Hp Hs Hw Hl Hro Hsent].
  rewrite (join_new_room _ _ _ _ _ _ Hroom).
  set (room := Room.mk roomId [length (playerObjs σ)] (reset rnd) None None
                 false now now playerName).
  set (new := Player.mk playerName 0 ws roomId now).
  assert (Hgrow : ∀ r rm, roomObjs σ !! r = Some rm →
            ∃ rm', (roomObjs σ ++ [room]) !! r = Some rm'
                   ∧ Room.id rm' = Room.id rm).
  { intros r rm Hrm. exists rm. split; [|done]. by apply lookup_app_l_Some. }
  split; setters.
  - intros id r [[<- <-]|[Hne H]]%lookup_insert_Some.
    + exists room. split; [apply lookup_snoc_at|done].
    + destruct (Hr id r H) as (rm & Hrm & Hid). exists rm.
      split; [by apply lookup_app_l_Some|done].
  - intros w p [[<- <-]|[Hne H]]%lookup_insert_Some.
    + exists new. split; [apply lookup_snoc_at|done].
    + destruct (Hp w p H) as (pl & Hpl & Hws). exists pl.
      split; [by apply lookup_app_l_Some|done].
  - apply Forall_app. split; [done|]. by apply Forall_singleton.
  - done.
  - intros w l [[<- <-]|[Hne H]]%lookup_insert_Some.
    + split; [done|]. exists (length (roomObjs σ)), room, new.
      repeat split; apply lookup_snoc_at.
    + destruct (Hl w l H) as [? Hok]. split; [done|].
      eapply (listenerOk_grow σ); [exact Hgrow| |exact Hok].
      intros p pl Hpl. by apply lookup_app_l_Some.
  - apply Forall_app. split.
    + eapply Forall_impl; [exact Hro|]. intros rm.
      by apply (rosterOk_app σ _ [new]).
    + apply Forall_singleton. split.
      * apply Forall_singleton. exists new.
        split; [apply lookup_snoc_at|done].
      * unfold deref. setters. csimpl. rewrite lookup_snoc_at. csimpl.
        apply NoDup_singleton.
  - apply Forall_app. split; [done|].
    destruct (decide (sockets σ !! ws = Some OPEN)); by repeat constructor.
Qed.

Lemma Forall_answers_broadcast (σ : Server) (ps : list Addr) (m : ServerMsg) :
  answers (Send 0%nat m) → Forall answers (broadcastCalls σ ps m).
Proof.
  intros H. unfold broadcastCalls.
  induction (audience σ ps); constructor; done.
Qed.

Lemma wf_join_existing (σ : Server) (ws : Ws) (roomId playerName : string)
    (r : Addr) (now : Z) (rnd : Rand) :
  rooms σ !! roomId = Some r →
  (ws < length (sockets σ))%nat → wf σ →
  wf (join ws roomId playerName now rnd σ).
Proof.
  intros Hroom Hlt [Hr Hp Hs Hw Hl Hro Hsent].
  destruct (Hr _ _ Hroom) as (rm & Hrm & Hid).
  rewrite (join_existing_room _ _ _ _ _ _ _ _ Hroom Hrm).
  set (new := Player.mk playerName 0 ws roomId now).
  set (roster :=
    filter (λ a, Player.name <$> (playerObjs σ ++ [new]) !! a
                 ≠ Some playerName) (Room.players rm)
    ++ [length (playerObjs σ)]).
  set (room := Room.mk (Room.id rm) roster (Room.deck rm)
                 (Room.currentCard rm) (Room.stage rm)
                 (Room.isGameStarted rm) (Room.createdAt rm) now
                 (Room.creator rm)).
  assert (Hgrow : ∀ r' rm', roomObjs σ !! r' = Some rm' →
            ∃ rm'', <[r:=room]> (roomObjs σ) !! r' = Some rm''
                    ∧ Room.id rm'' = Room.id rm').
  { intros r' rm' Hrm'. destruct (decide (r' = r)) as [->|Hne].
    - exists room. split; [by eapply lookup_insert_at|]. by simplify_eq.
    - exists rm'. by rewrite list_lookup_insert_ne. }
  pose proof (proj1 (Forall_lookup _ _) Hro r rm Hrm) as [Hmem Hnames].
  split; setters.
  - intros id r' H. destruct (Hr id r' H) as (rm' & Hrm' & Hid').
    destruct (Hgrow _ _ Hrm') as (rm'' & Hrm'' & Hid''). exists rm''.
    split; [done|congruence].
  - intros w p [[<- <-]|[Hne H]]%lookup_insert_Some.
    + exists new. split; [apply lookup_snoc_at|done].
    + destruct (Hp w p H) as (pl & Hpl & Hws). exists pl.
      split; [by apply lookup_app_l_Some|done].
  - apply Forall_app. split; [done|]. by apply Forall_singleton.
  - done.
  - intros w l [[<- <-]|[Hne H]]%lookup_insert_Some.
    + split; [done|]. exists r, room, new.
      repeat split; try done; [by eapply lookup_insert_at|].
      apply lookup_snoc_at.
    + destruct (Hl w l H) as [? Hok]. split; [done|].
      eapply (listenerOk_grow σ); [exact Hgrow| |exact Hok].
      intros p pl Hpl. by apply lookup_app_l_Some.
  - apply Forall_insert.
    + eapply Forall_impl; [exact Hro|]. intros rm'.
      by apply (rosterOk_app σ _ [new]).
    + split; cbn [Room.players Room.id room].
      * apply Forall_app. split.
        -- apply Forall_forall. intros a [_ Ha]%list_elem_of_filter.
           destruct (proj1 (Forall_forall _ _) Hmem a Ha) as (pl & Hpl & ?).
           exists pl. split; [by apply lookup_app_l_Some|done].
        -- apply Forall_singleton. exists new.
           split; [apply lookup_snoc_at|]. simpl. congruence.
      * unfold deref, roster. setters.
        rewrite (deref_joined (playerObjs σ) new).
        rewrite map_app. apply NoDup_app. repeat split.
        -- eapply sublist_NoDup; [exact Hnames|].
           apply (fmap_sublist Player.name), sublist_filter.
        -- intros n Hn Hin. apply list_elem_of_fmap in Hn as (pl & -> & Hpl).
           apply list_elem_of_filter in Hpl as [Hpl _].
           apply list_elem_of_singleton in Hin. done.
        -- apply NoDup_singleton.
  - rewrite app_assoc. apply Forall_app. split.
    + apply Forall_app. split; [done|]. by apply Forall_answers_broadcast.
    + destruct (Room.isGameStarted rm); by repeat constructor.
Qed.

Lemma wf_join (σ : Server) (ws : Ws) (roomId playerName : string) (now : Z)
    (rnd : Rand) :
  (ws < length (sockets σ))%nat → wf σ →
  wf (join ws roomId playerName now rnd σ).
Proof.
  intros Hlt Hwf. destruct (rooms σ !! roomId) as [r|] eqn:Hroom.
  - by eapply wf_join_existing.
  - by apply wf_join_new.
Qed.

Lemma wf_onConnection (σ : Server) (ws : Ws)
    (roomParam nameParam : option string) (now : Z) (rnd : Rand) :
  (ws < length (sockets σ))%nat → wf σ →
  wf (onConnection ws roomParam nameParam now rnd σ).
Proof.
  intros Hlt Hwf. unfold onConnection.
  assert (Hclose : ∀ code reason, wf (wsClose ws code reason σ)).
  { intros code reason. eapply wf_frame; [exact Hwf|apply frame_wsClose]. }
  destruct (missing roomParam && missing nameParam).
  { cbv zeta.
    pose proof (frame_sendRoomsList
      (setRoomListConnections ({[ws]} ∪ roomListConnections σ) σ) ws) as Hf.
    apply wf_watcher_listener.
    - by rewrite (frame_sockets _ _ Hf).
    - eapply wf_frame; [|exact Hf]. by apply wf_watcher. }
  destruct roomParam as [roomId|], nameParam as [playerName|]; try done.
  destruct (missing (Some roomId) || missing (Some playerName)); [done|].
  cbv zeta.
  destruct (connections σ !! connectionKey roomId playerName) as [old|];
    [|by apply wf_join].
  destruct (isOpen σ old); [done|].
  match goal with
  | |- wf (join _ _ _ _ _ ?ρ) => assert (Hf : frame σ ρ)
  end.
  { destruct (notClosed _ old); frame_chain. }
  apply wf_join.
  - by rewrite (frame_sockets _ _ Hf).
  - by eapply wf_frame.
Qed.

Lemma wf_step (σ : Server) (e : Event) (now : Z) (rnd : Rand) :
  wf σ → wf (step e now rnd σ).
Proof.
  intros Hwf.
  assert (Hl : ∀ ws l, listeners σ !! ws = Some l → listenerOk σ ws l).
  { intros ws l H. by destruct (wf_listeners _ Hwf _ _ H). }
  destruct e as [rp np|ws payload|ws|ws|ws| |ws];
    try (eapply wf_frame; [exact Hwf|]; by apply frame_step_event).
  simpl. apply wf_onConnection; [|by apply wf_accept].
  setters. rewrite length_app. simpl. lia.
Qed.

Lemma wf_initial : wf initial.
Proof. split; simpl; try done; try by constructor. Qed.

Lemma reachable_wf (σ : Server) : reachable σ → wf σ.
Proof.
  induction 1 as [|σ e now rnd _ IH]; [apply wf_initial|by apply wf_step].
Qed.


Lemma kept_frame (σ τ : Server) (p : Addr) (pl : Player.t) :
  frame σ τ → playerObjs σ !! p = Some pl →
  ∃ pl', playerObjs τ !! p = Some pl' ∧ playerKept pl pl'.
Proof. intros Hf. apply Forall2_lookup_l, Hf. Qed.

Lemma kept_join (σ : Server) (ws : Ws) (roomId playerName : string) (now : Z)
    (rnd : Rand) (p : Addr) (pl : Player.t) :
  playerObjs σ !! p = Some pl →
  playerObjs (join ws roomId playerName now rnd σ) !! p = Some pl.
Proof.
  intros H. destruct (join_records σ ws roomId playerName now rnd)
    as (_ & _ & -> & _).
  by apply lookup_app_l_Some.
Qed.

Lemma kept_onConnection (σ : Server) (ws : Ws)
    (roomParam nameParam : option string) (now : Z) (rnd : Rand) (p : Addr)
    (pl : Player.t) :
  playerObjs σ !! p = Some pl →
  ∃ pl', playerObjs (onConnection ws roomParam nameParam now rnd σ) !! p
         = Some pl'
         ∧ playerKept pl pl'.
Proof.
  intros H. unfold onConnection.
  assert (Hclose : ∀ code reason,
            ∃ pl', playerObjs (wsClose ws code reason σ) !! p = Some pl'
                   ∧ playerKept pl pl').
  { intros code reason. exists pl. split; [done|apply playerKept_refl]. }
  destruct (missing roomParam && missing nameParam).
  { cbv zeta. setters.
    eapply (kept_frame (setRoomListConnections _ σ));
      [apply frame_sendRoomsList|exact H]. }
  destruct roomParam as [roomId|], nameParam as [playerName|]; try done.
  destruct (missing (Some roomId) || missing (Some playerName)); [done|].
  cbv zeta. exists pl. split; [|apply playerKept_refl].
  destruct (connections σ !! connectionKey roomId playerName) as [old|];
    [|by apply kept_join].
  destruct (isOpen σ old); [done|]. apply kept_join.
  by destruct (notClosed _ old).
Qed.

(** X23. Nothing is admitted but by a request. An event other than a
    request, in a state the server can reach, adds no entry to [rooms],
    [players], the registry or the set of watchers, registers no handler,
    makes no Room or Player object and accepts no socket; every Room
    object keeps its id, creator and creation time and its player list
    can only lose members; every Player object keeps its name, socket,
    room id and connection time; and what was sent stays sent. *)
Theorem nothing_is_admitted_but_by_a_request (σ : Server) (e : Event)
    (now : Z) (rnd : Rand) :
  reachable σ →
  (∀ roomParam nameParam, e ≠ connection roomParam nameParam) →
  frame σ (step e now rnd σ).
Proof.
  intros Hreach He. apply frame_step_event; [|done].
  intros ws l H.
  by destruct (wf_listeners _ (reachable_wf _ Hreach) _ _ H).
Qed.

Lemma nothing_is_admitted_but_by_a_request_witness : frame lobby aliceAndBob.
Proof.
  apply (nothing_is_admitted_but_by_a_request lobby
           (message 0%nat (json "startGame" "")) 12 (λ _, 0%nat)).
  - unfold lobby. cbn [run foldl].
    apply reachable_step, reachable_step, reachable_initial.
  - intros rp np. discriminate.
Defined.

(** X24. A score never drops. Whatever happens to a server that is in a
    reachable state, requests and game over included, a Player object
    stays where it is in the store with its name, socket and room id, and
    its score is at least what it was. *)
Theorem a_score_never_drops (σ : Server) (moves : list Move) (p : Addr)
    (pl : Player.t) :
  reachable σ →
  playerObjs σ !! p = Some pl →
  ∃ pl', playerObjs (run moves σ) !! p = Some pl'
         ∧ Player.name pl' = Player.name pl
         ∧ Player.ws pl' = Player.ws pl
         ∧ Player.roomId pl' = Player.roomId pl
         ∧ Player.score pl ≤ Player.score pl'.
Proof.
  intros Hreach Hpl.
  assert (H : ∃ pl', playerObjs (run moves σ) !! p = Some pl'
                     ∧ playerKept pl pl').
  { revert σ pl Hreach Hpl.
    induction moves as [|[[e now] rnd] moves IH]; intros σ pl Hreach Hpl.
    { exists pl. split; [done|apply playerKept_refl]. }
    assert (Hstep : ∃ pl', playerObjs (step e now rnd σ) !! p = Some pl'
                           ∧ playerKept pl pl').
    { destruct e as [rp np|ws payload|ws|ws|ws| |ws];
        try (eapply kept_frame; [|exact Hpl];
             apply frame_step_event; [|done];
             intros w l H;
             by destruct (wf_listeners _ (reachable_wf _ Hreach) _ _ H)).
      simpl. apply kept_onConnection. exact Hpl. }
    destruct Hstep as (pl1 & Hpl1 & Hk1).
    destruct (IH (step e now rnd σ) pl1) as (pl' & Hpl' & Hk');
      [by constructor|done|].
    exists pl'. split; [exact Hpl'|]. by eapply playerKept_trans. }
  destruct H as (pl' & Hpl' & Hn & Hw & Hr & _ & Hs). by exists pl'.
Qed.

Lemma a_score_never_drops_witness :
  ∃ pl', playerObjs aliceAndBob !! 1%nat = Some pl'
         ∧ 0 ≤ Player.score pl'.
Proof.
  assert (Hreach : reachable lobby).
  { unfold lobby. cbn [run foldl].
    apply reachable_step, reachable_step, reachable_initial. }
  assert (Hpl : playerObjs lobby !! 1%nat
                = Some (Player.mk "Bob" 0 1%nat "ABC123" 11))
    by (vm_compute; reflexivity).
  destruct (a_score_never_drops lobby
              [(message 0%nat (json "startGame" ""), 12, λ _, 0%nat)]
              1%nat _ Hreach Hpl) as (pl' & Hpl' & _ & _ & _ & Hs).
  exists pl'. split; [exact Hpl'|exact Hs].
Defined.

Lemma omap_length_valid {A B} (f : A → option B) (l : list A) :
  Forall (λ a, is_Some (f a)) l → length (omap f l) = length l.
Proof.
  induction 1 as [|a l [x Hx] _ IH]; [done|]. csimpl. rewrite Hx. simpl.
  by rewrite IH.
Qed.

Lemma omap_NoDup_valid {A B} (f : A → option B) (l : list A) :
  Forall (λ a, is_Some (f a)) l → NoDup (omap f l) → NoDup l.
Proof.
  induction 1 as [|a l [x Hx] _ IH]; [constructor|]. csimpl. rewrite Hx.
  intros [Hnin Hnd]%NoDup_cons. constructor; [|by apply IH].
  intros Hin. apply Hnin. apply list_elem_of_omap. by exists a.
Qed.

Lemma rosterOk_valid (σ : Server) (rm : Room.t) :
  rosterOk σ rm →
  Forall (λ a, is_Some (playerObjs σ !! a)) (Room.players rm).
Proof.
  intros [Hmem _]. eapply Forall_impl; [exact Hmem|].
  intros a (pl & Hpl & _). by exists pl.
Qed.

(** X25. The list a watcher is sent names every room of the [rooms] map
    once, under its key, and nothing else; the key of a room is the id
    the Room object carries; and the player count of an entry is the
    number of players the entry lists, no two of them of the same
    name. *)
Theorem every_room_is_listed_under_its_id (σ : Server) :
  reachable σ →
  let listed := omap (roomInfoOf σ) (entries σ) in
  info_id <$> listed ≡ₚ (map_to_list (rooms σ)).*1
  ∧ NoDup (info_id <$> listed)
  ∧ (∀ id r, rooms σ !! id = Some r →
             ∃ rm, roomObjs σ !! r = Some rm ∧ Room.id rm = id)
  ∧ Forall (λ info, info_playerCount info = length (info_players info)
                    ∧ NoDup (info_players info).*1) listed.
Proof.
  intros Hreach. pose proof (reachable_wf _ Hreach) as Hwf. cbv zeta.
  assert (Hl : ∀ entry, entry ∈ entries σ →
                        rooms σ !! entry.1 = Some entry.2).
  { intros [id r] H. by apply elem_of_entries. }
  assert (H : info_id <$> omap (roomInfoOf σ) (entries σ)
              = (entries σ).*1
              ∧ Forall (λ info,
                  info_playerCount info = length (info_players info)
                  ∧ NoDup (info_players info).*1)
                  (omap (roomInfoOf σ) (entries σ))).
  { induction (entries σ) as [|entry l IH]; [by split|].
    destruct IH as [IH1 IH2].
    { intros e He. apply Hl. by right. }
    destruct (wf_rooms _ Hwf _ _ (Hl entry ltac:(by left)))
      as (rm & Hrm & Hid).
    pose proof (proj1 (Forall_lookup _ _) (wf_rosters _ Hwf) _ _ Hrm)
      as Hroster.
    assert (Hinfo : roomInfoOf σ entry
              = Some (mkRoomInfo entry.1
                        (playerInfos σ (Room.players rm))
                        (Room.isGameStarted rm) (length (Room.players rm))
                        (Room.creator rm))).
    { unfold roomInfoOf. by rewrite Hrm. }
    csimpl. rewrite Hinfo. csimpl. split.
    - by rewrite IH1.
    - constructor; [|exact IH2]. simpl. split.
      + unfold playerInfos, deref. rewrite length_map.
        symmetry. apply omap_length_valid.
        by apply (rosterOk_valid σ rm).
      + destruct Hroster as [_ Hnd]. unfold playerInfos.
        change (NoDup (fst <$> ((λ p, (Player.name p, Player.score p))
                                 <$> deref σ (Room.players rm)))).
        rewrite <- list_fmap_compose. exact Hnd. }
  destruct H as [H1 H2].
  repeat match goal with |- _ ∧ _ => split end; try done.
  - by rewrite H1, entries_perm.
  - rewrite H1, entries_perm. apply NoDup_fst_map_to_list.
  - apply (wf_rooms _ Hwf).
Qed.

Lemma every_room_is_listed_under_its_id_witness :
  info_id <$> omap (roomInfoOf lobby) (entries lobby) ≡ₚ ["ABC123"].
Proof.
  assert (Hreach : reachable lobby).
  { unfold lobby. cbn [run foldl].
    apply reachable_step, reachable_step, reachable_initial. }
  assert (E : (map_to_list (rooms lobby)).*1 = ["ABC123"])
    by (vm_compute; reflexivity).
  destruct (every_room_is_listed_under_its_id lobby Hreach) as [H _].
  cbv zeta in H. rewrite E in H. exact H.
Defined.

(** X26. No two players of a room share a name. In a state the server
    can reach, the player list of every Room object holds live Player
    objects that were made for this room, each once, and their names are
    all different; so a scoreboard has one line for each player of the
    list. *)
Theorem no_two_players_of_a_room_share_a_name (σ : Server) (r : Addr)
    (rm : Room.t) :
  reachable σ →
  roomObjs σ !! r = Some rm →
  NoDup (playerInfos σ (Room.players rm)).*1
  ∧ length (playerInfos σ (Room.players rm)) = length (Room.players rm)
  ∧ NoDup (Room.players rm)
  ∧ Forall (λ pl, Player.roomId pl = Room.id rm)
      (deref σ (Room.players rm)).
Proof.
  intros Hreach Hrm.
  pose proof (proj1 (Forall_lookup _ _)
                (wf_rosters _ (reachable_wf _ Hreach)) _ _ Hrm) as Hroster.
  pose proof (rosterOk_valid _ _ Hroster) as Hvalid.
  destruct Hroster as [Hmem Hnd].
  repeat match goal with |- _ ∧ _ => split end.
  - unfold playerInfos.
    change (NoDup (fst <$> ((λ p, (Player.name p, Player.score p))
                             <$> deref σ (Room.players rm)))).
    rewrite <- list_fmap_compose. exact Hnd.
  - unfold playerInfos, deref. rewrite length_map.
    by apply omap_length_valid.
  - apply (omap_NoDup_valid (λ a, playerObjs σ !! a)); [done|].
    eapply (NoDup_fmap_1 Player.name). exact Hnd.
  - apply Forall_forall. intros pl (a & Ha & Hpl)%list_elem_of_omap.
    destruct (proj1 (Forall_forall _ _) Hmem a Ha) as (pl' & Hpl' & Hid).
    congruence.
Qed.

Lemma no_two_players_of_a_room_share_a_name_witness :
  NoDup [0%nat; 1%nat].
Proof.
  assert (Hreach : reachable lobby).
  { unfold lobby. cbn [run foldl].
    apply reachable_step, reachable_step, reachable_initial. }
  assert (Hr : roomObjs lobby !! 0%nat
               = Some (Room.mk "ABC123" [0%nat; 1%nat] (reset (λ _, 0%nat))
                         None None false 10 11 "Alice"))
    by (vm_compute; reflexivity).
  destruct (no_two_players_of_a_room_share_a_name lobby 0%nat _ Hreach Hr)
    as (_ & _ & H & _).
  exact H.
Defined.

(** X27. ROOM_NOT_FOUND is never sent. The handlers of a player check
    the room they captured and answer ROOM_NOT_FOUND when there is none;
    but a handler is only ever registered with the room the request got
    or made, a live Room object of the id the request named. So in every
    state the server can reach no such answer is in the trace. *)
Theorem room_not_found_is_never_sent (σ : Server) :
  reachable σ →
  (∀ ws, Send ws roomNotFound ∉ sent σ)
  ∧ ∀ ws roomId playerName room p,
      listeners σ !! ws = Some (playerListener roomId playerName room p) →
      ∃ r rm, room = Some r ∧ roomObjs σ !! r = Some rm
              ∧ Room.id rm = roomId.
Proof.
  intros Hreach. pose proof (reachable_wf _ Hreach) as Hwf. split.
  - intros ws Hin.
    by apply (proj1 (Forall_forall _ _) (wf_sent _ Hwf) _ Hin).
  - intros ws roomId playerName room p H.
    destruct (wf_listeners _ Hwf _ _ H)
      as (_ & r & rm & _ & -> & Hrm & Hid & _).
    by exists r, rm.
Qed.

Lemma room_not_found_is_never_sent_witness :
  Send 0%nat roomNotFound ∉ sent aliceAndBob.
Proof.
  apply (proj1 (room_not_found_is_never_sent aliceAndBob
    ltac:(unfold aliceAndBob, lobby; cbn [run foldl];
          apply reachable_step, reachable_step, reachable_step,
            reachable_initial))).
Defined.

(** * Winners *)

Lemma Math_max_nonempty (l : list Z) : l ≠ [] → ∃ m, Math_max l = Num m.
Proof.
  destruct l as [|x l _] using rev_ind; [done|]. intros _.
  rewrite Math_max_snoc. destruct (Math_max l); simpl; eauto.
Qed.

(** X28. Game over has a winner unless nobody plays: on a room without
    players the maximum is [-Infinity] and the list of winners is empty;
    on any other room the maximum is the score of one of its players, so
    at least one player is named, and every name in the list is the name
    of a player of the room. *)
Theorem game_over_has_a_winner (ps : list Player.t) :
  (winnersOf ps = [] ↔ ps = [])
  ∧ (Math_max (map Player.score ps) = NegInfinity ↔ ps = [])
  ∧ winnersOf ps `sublist_of` map Player.name ps.
Proof.
  assert (Hmax : ps ≠ [] → ∃ p, p ∈ ps
                              ∧ Math_max (map Player.score ps)
                                = Num (Player.score p)).
  { intros Hne. destruct (Math_max_nonempty (map Player.score ps)) as [m Hm].
    { by destruct ps. }
    pose proof (proj1 (Math_max_spec _ _) Hm) as [Hin _].
    apply list_elem_of_fmap in Hin as (p & -> & Hp). by exists p. }
  repeat match goal with |- _ ∧ _ => split end.
  - split; [|by intros ->].
    intros Hw. destruct ps as [|p0 ps0]; [done|]. exfalso.
    destruct Hmax as (p & Hp & Hm); [done|].
    unfold winnersOf in Hw. cbv zeta in Hw. rewrite Hm in Hw.
    apply fmap_nil_inv in Hw.
    assert (Hin : p ∈ filter (λ q, Num (Player.score q)
                                   = Num (Player.score p)) (p0 :: ps0))
      by (by apply list_elem_of_filter).
    rewrite Hw in Hin. by apply elem_of_nil in Hin.
  - split; [|by intros ->].
    intros Hm. destruct ps as [|p0 ps0]; [done|].
    destruct Hmax as (p & _ & Hmp); [done|]. congruence.
  - unfold winnersOf. apply (fmap_sublist Player.name), sublist_filter.
Qed.

(** * The idle sweep over the map *)

Lemma sweepRoom_cases (σ : Server) (id : string) (r : Addr) (now : Z) :
  sweepRoom now σ (id, r) = σ
  ∨ ∃ rm, roomObjs σ !! r = Some rm
          ∧ now - Room.lastActivity rm > 30 * 60 * 1000.
Proof.
  unfold sweepRoom. cbn [fst snd].
  destruct (roomObjs σ !! r) as [rm|]; [|by left].
  destruct (Z.gtb_spec (now - Room.lastActivity rm) ROOM_TIMEOUT) as [Hgt|];
    [|by left].
  right. exists rm. split; [done|]. unfold ROOM_TIMEOUT in Hgt. lia.
Qed.

Lemma sweepRoom_playerObjs (σ : Server) (e : string * Addr) (now : Z) :
  playerObjs (sweepRoom now σ e) = playerObjs σ.
Proof.
  destruct e as [id r].
  destruct (sweepRoom_cases σ id r now) as [->|(rm & Hrm & Hidle)]; [done|].
  by destruct (sweepRoom_idle σ id r rm now Hrm Hidle)
    as (_ & _ & _ & _ & -> & _).
Qed.

Lemma sweepRoom_roomObjs_ne (σ : Server) (e : string * Addr) (now : Z)
    (r : Addr) :
  r ≠ e.2 → roomObjs (sweepRoom now σ e) !! r = roomObjs σ !! r.
Proof.
  destruct e as [id r']. simpl. intros Hne.
  destruct (sweepRoom_cases σ id r' now) as [->|(rm & Hrm & Hidle)]; [done|].
  destruct (sweepRoom_idle σ id r' rm now Hrm Hidle)
    as (_ & _ & _ & _ & _ & ->).
  by apply list_lookup_insert_ne.
Qed.

Lemma frame_sweeps (now : Z) (l : list (string * Addr)) (σ : Server) :
  frame σ (foldl (sweepRoom now) σ l).
Proof. apply frame_foldl. intros. apply frame_sweepRoom. Qed.

(** What a sweep over entries of distinct addresses does to an idle room
    among them. *)
Lemma sweeps_idle (now : Z) (id : string) (r : Addr) (rm : Room.t)
    (l : list (string * Addr)) (σ : Server) :
  (id, r) ∈ l →
  (∀ e, e ∈ l → e.2 = r → e = (id, r)) →
  roomObjs σ !! r = Some rm →
  now - Room.lastActivity rm > 30 * 60 * 1000 →
  let τ := foldl (sweepRoom now) σ l in
  rooms τ !! id = None
  ∧ ∃ extra,
      sent τ = sent σ ++ extra
      ∧ ∀ pl, pl ∈ deref σ (Room.players rm) →
          players τ !! Player.ws pl = None
          ∧ connections τ
            !! connectionKey (Player.roomId pl) (Player.name pl) = None
          ∧ sockets τ !! Player.ws pl ≠ Some OPEN
          ∧ Close (Player.ws pl) 4002 "Room closed due to inactivity" ∈ extra.
Proof.
  cbv zeta. revert σ.
  induction l as [|e l IH]; intros σ Hin Hdist Hrm Hidle.
  { by apply elem_of_nil in Hin. }
  cbn [foldl]. destruct (decide (e = (id, r))) as [->|Hne].
  - destruct (sweepRoom_idle σ id r rm now Hrm Hidle)
      as (Hrooms & Hsent & Hmem & _).
    pose proof (frame_sweeps now l (sweepRoom now σ (id, r))) as Hf.
    destruct (frame_sent _ _ Hf) as (e2 & He2 & _). split.
    + eapply lookup_weaken_None; [|apply (frame_rooms _ _ Hf)].
      rewrite Hrooms. apply lookup_delete_eq.
    + eexists. split; [by rewrite He2, Hsent, <- app_assoc|].
      intros pl Hpl. destruct (Hmem pl Hpl) as (Hp & Hc & Ho).
      repeat match goal with |- _ ∧ _ => split end.
      * eapply lookup_weaken_None; [exact Hp|apply (frame_players _ _ Hf)].
      * eapply lookup_weaken_None;
          [exact Hc|apply (frame_connections _ _ Hf)].
      * intros Hopen. by apply Ho, (frame_open _ _ Hf).
      * apply elem_of_app. left. apply elem_of_app. right.
        apply list_elem_of_fmap. by exists pl.
  - assert (Hr : r ≠ e.2).
    { intros E. apply Hne, Hdist; [by left|done]. }
    destruct (IH (sweepRoom now σ e)) as (Hrooms & extra & Hsent & Hmem).
    + apply elem_of_cons in Hin as [E|Hin]; [by destruct Hne|done].
    + intros e' He'. apply Hdist. by right.
    + by rewrite sweepRoom_roomObjs_ne.
    + done.
    + split; [done|].
      destruct (frame_sent _ _ (frame_sweepRoom now σ e)) as (e1 & He1 & _).
      exists (e1 ++ extra). split; [by rewrite Hsent, He1, app_assoc|].
      intros pl Hpl. unfold deref in Hmem.
      rewrite sweepRoom_playerObjs in Hmem.
      destruct (Hmem pl Hpl) as (? & ? & ? & Hc).
      repeat match goal with |- _ ∧ _ => split end; try done.
      apply elem_of_app. by right.
Qed.

Lemma sweeps_in_use (now : Z) (l : list (string * Addr)) (σ : Server) :
  (∀ e rm, e ∈ l → roomObjs σ !! e.2 = Some rm →
           now - Room.lastActivity rm ≤ 30 * 60 * 1000) →
  foldl (sweepRoom now) σ l = σ.
Proof.
  induction l as [|e l IH]; intros H; [done|]. cbn [foldl].
  rewrite sweepRoom_in_use.
  - apply IH. intros e' rm He'. apply H. by right.
  - intros rm. unfold ROOM_TIMEOUT. apply H. by left.
Qed.

(** A sweep in which one entry alone is idle is the sweep of that
    entry. *)
Lemma sweeps_single (now : Z) (id : string) (r : Addr) (rm : Room.t)
    (l : list (string * Addr)) (σ : Server) :
  (id, r) ∈ l →
  roomObjs σ !! r = Some rm →
  now - Room.lastActivity rm > 30 * 60 * 1000 →
  (∀ e rm', e ∈ l → e.2 ≠ r → roomObjs σ !! e.2 = Some rm' →
            now - Room.lastActivity rm' ≤ 30 * 60 * 1000) →
  (∀ e, e ∈ l → e.2 = r → e = (id, r)) →
  NoDup l →
  foldl (sweepRoom now) σ l = sweepRoom now σ (id, r).
Proof.
  intros Hin Hrm Hidle Hothers Hdist Hnd.
  apply list_elem_of_split in Hin as (l1 & l2 & ->).
  apply NoDup_app in Hnd as (_ & Hdisj & Hnd2).
  apply NoDup_cons in Hnd2 as [Hnin2 _].
  assert (Hne : ∀ e, e ∈ l1 ∨ e ∈ l2 → e.2 ≠ r).
  { intros e He E.
    assert (e = (id, r)) as ->.
    { apply Hdist; [|done]. apply elem_of_app.
      destruct He; [by left|right; by right]. }
    destruct He as [He|He]; [|done]. apply (Hdisj _ He). by left. }
  rewrite foldl_app. cbn [foldl].
  rewrite (sweeps_in_use now l1 σ).
  2:{ intros e rm' He. apply Hothers; [apply elem_of_app; by left|].
      apply Hne. by left. }
  apply sweeps_in_use. intros e rm' He.
  rewrite sweepRoom_roomObjs_ne by (simpl; apply Hne; by right).
  apply Hothers; [apply elem_of_app; right; by right|].
  apply Hne. by right.
Qed.

Lemma NoDup_entries (σ : Server) : NoDup (entries σ).
Proof. rewrite entries_perm. apply NoDup_map_to_list. Qed.

(** X11. The cleanup closes an idle room: at a tick of the cleanup, a
    room of the [rooms] map that has been idle for more than thirty
    minutes is taken off the map, each of its players is taken off the
    [players] and [connections] maps, has no open socket left and was
    closed with code 4002 and reason "Room closed due to inactivity"
    in what the tick sent.  When no other room of the map is idle, the
    tick does this and nothing else: it sends "roomClosed" to the
    members whose socket is open, in the order of the player list, then
    closes every member in that order; the other sockets and players are
    untouched, and the Room object is left behind with its activity
    clock at the tick. *)
Theorem the_cleanup_closes_an_idle_room (σ : Server) (id : string) (r : Addr)
    (rm : Room.t) (now : Z) (rnd : Rand) :
  reachable σ →
  rooms σ !! id = Some r →
  roomObjs σ !! r = Some rm →
  now - Room.lastActivity rm > 30 * 60 * 1000 →
  let members := deref σ (Room.players rm) in
  let σ' := step cleanupTick now rnd σ in
  rooms σ' !! id = None
  ∧ (∃ extra,
       sent σ' = sent σ ++ extra
       ∧ ∀ pl, pl ∈ members →
           players σ' !! Player.ws pl = None
           ∧ connections σ'
             !! connectionKey (Player.roomId pl) (Player.name pl) = None
           ∧ sockets σ' !! Player.ws pl ≠ Some OPEN
           ∧ Close (Player.ws pl) 4002 "Room closed due to inactivity"
             ∈ extra)
  ∧ ((∀ id' r' rm', rooms σ !! id' = Some r' → id' ≠ id →
                    roomObjs σ !! r' = Some rm' →
                    now - Room.lastActivity rm' ≤ 30 * 60 * 1000) →
     rooms σ' = delete id (rooms σ)
     ∧ sent σ'
       = sent σ
         ++ (map (λ pl, Send (Player.ws pl)
                          (roomClosed "Room closed due to inactivity"))
               (filter (λ pl, sockets σ !! Player.ws pl = Some OPEN) members)
             ++ map (λ pl,
                       Close (Player.ws pl) 4002
                         "Room closed due to inactivity")
                  members)
     ∧ (∀ w, w ∉ map Player.ws members →
          players σ' !! w = players σ !! w
          ∧ sockets σ' !! w = sockets σ !! w)
     ∧ playerObjs σ' = playerObjs σ
     ∧ roomObjs σ' = <[r:=Room.setLastActivity now rm]> (roomObjs σ)).
Proof.
  intros Hreach Hid Hrm Hidle. cbv zeta.
  pose proof (reachable_wf _ Hreach) as Hwf.
  change (step cleanupTick now rnd σ) with (cleanup now σ). unfold cleanup.
  assert (Hin : (id, r) ∈ entries σ) by (by apply elem_of_entries).
  assert (Hdist : ∀ e, e ∈ entries σ → e.2 = r → e = (id, r)).
  { intros [id' r'] He E. simpl in E. subst r'.
    apply elem_of_entries in He.
    destruct (wf_rooms _ Hwf _ _ He) as (rm1 & H1 & <-).
    destruct (wf_rooms _ Hwf _ _ Hid) as (rm2 & H2 & <-). congruence. }
  destruct (sweeps_idle now id r rm (entries σ) σ Hin Hdist Hrm Hidle)
    as (Hgone & Hrest).
  split; [exact Hgone|]. split; [exact Hrest|].
  intros Hothers.
  rewrite (sweeps_single now id r rm (entries σ) σ Hin Hrm Hidle).
  - destruct (sweepRoom_idle σ id r rm now Hrm Hidle)
      as (H1 & H2 & _ & H4 & H5 & H6).
    repeat match goal with |- _ ∧ _ => split end; try done.
    rewrite H2. do 2 f_equal. unfold broadcastCalls, audience.
    rewrite filter_map_comm. by rewrite map_map.
  - intros [id' r'] rm' He Hne Hrm'. simpl in *.
    apply elem_of_entries in He.
    apply (Hothers id' r' rm' He); [|done]. intros ->. congruence.
  - exact Hdist.
  - apply NoDup_entries.
Qed.

Lemma the_cleanup_closes_an_idle_room_witness :
  let σ' := step cleanupTick (2 + 30 * 60 * 1000) (λ _, 0%nat) bThenA in
  rooms σ' = {["a" := 1%nat]}
  ∧ sent σ'
    = sent bThenA
      ++ [Send 0%nat (roomClosed "Room closed due to inactivity");
          Close 0%nat 4002 "Room closed due to inactivity"].
Proof.
  assert (Hreach : reachable bThenA).
  { unfold bThenA. cbn [run foldl].
    apply reachable_step, reachable_step, reachable_initial. }
  assert (Hb : roomObjs bThenA !! 0%nat
               = Some (Room.mk "b" [0%nat] (reset (λ _, 0%nat))
                         None None false 1 1 "Bea"))
    by (vm_compute; reflexivity).
  assert (Ha : roomObjs bThenA !! 1%nat
               = Some (Room.mk "a" [1%nat] (reset (λ _, 0%nat))
                         None None false 2 2 "Al"))
    by (vm_compute; reflexivity).
  assert (Hid : rooms bThenA !! "b" = Some 0%nat) by (vm_compute; reflexivity).
  assert (Hall : map_to_list (rooms bThenA) = [("a", 1%nat); ("b", 0%nat)])
    by (vm_compute; reflexivity).
  destruct (the_cleanup_closes_an_idle_room bThenA "b" 0%nat _
              (2 + 30 * 60 * 1000) (λ _, 0%nat) Hreach Hid Hb)
    as (_ & _ & Hexact); [simpl; lia|].
  destruct Hexact as (Hrooms & Hsent & _).
  { intros id' r' rm' H Hne Hrm'. apply elem_of_map_to_list in H.
    rewrite Hall in H. apply elem_of_cons in H as [H|H].
    - injection H as -> ->. rewrite Ha in Hrm'. injection Hrm' as <-.
      simpl. lia.
    - apply elem_of_cons in H as [H|H];
        [|exfalso; exact (proj1 (elem_of_nil _) H)].
      injection H as -> ->. destruct Hne. reflexivity. }
  cbv zeta. split.
  - rewrite Hrooms. vm_compute. reflexivity.
  - rewrite Hsent. vm_compute. reflexivity.
Defined.

(** * A guess that cannot be printed *)

(** X29. A guess whose value cannot be turned into a string: in a started
    round with a card on the table and a card in the deck, the card is
    drawn and becomes the current card and the stage moves on, as for
    any wrong guess; then the log line throws, and the handler's [catch]
    answers the sender alone with MESSAGE_PARSE_ERROR.  Nothing is
    broadcast, no score changes, and the game does not end even when
    the stage has run out: the room stays started with no stage. *)
Theorem a_guess_that_cannot_be_printed (σ : Server) (ws : Ws)
    (roomId playerName : string) (r p : Addr) (rm : Room.t) (pl : Player.t)
    (cur next : Card) (cards : list Card) (now : Z) (rnd : Rand) :
  listeners σ !! ws = Some (playerListener roomId playerName (Some r) p) →
  roomObjs σ !! r = Some rm → playerObjs σ !! p = Some pl →
  Room.isGameStarted rm = true → Room.currentCard rm = Some cur →
  Room.deck rm = cards ++ [next] →
  step (message ws (json "guess" unprintable)) now rnd σ
  = setSent (sent σ ++ [Send ws messageParseError])
      (setRoomObjs
         (<[r:=Room.mk (Room.id rm) (Room.players rm) cards (Some next)
                 (getNextStage (Room.stage rm)) true (Room.createdAt rm) now
                 (Room.creator rm)]> (roomObjs σ)) σ).
Proof.
  intros Hl Hr Hp Hs Hc Hd. simpl. unfold onMessage. rewrite Hl.
  unfold onPlayerMessage. cbn [String.eqb Ascii.eqb Bool.eqb].
  unfold onGuess.
  rewrite (touched_room _ _ _ now Hr).
  replace (playerObjs (touched (Some r) now σ)) with (playerObjs σ)
    by (by unfold touched; setters).
  rewrite Hp. cbn [Room.isGameStarted Room.currentCard Room.setLastActivity
                   Room.deck Room.stage].
  rewrite Hs, Hc, Hd, draw_snoc. cbv zeta.
  unfold wsSend, touched. server_eq.
  repeat (rewrite (alter_at _ _ _ _ Hr) || rewrite alter_insert_at).
  f_equal. room_eq.
Qed.

Lemma a_guess_that_cannot_be_printed_witness :
  let σ' := step (message 0%nat (json "guess" unprintable)) 13 (λ _, 0%nat)
              lastStage in
  roomObjs σ'
  = [Room.mk "ABC123" [0%nat; 1%nat] [mkCard spades 12; mkCard clubs 3]
       (Some (mkCard diamonds 9)) None true 10 13 "Alice"]
  ∧ playerObjs σ' = playerObjs lastStage
  ∧ sent σ' = sent lastStage ++ [Send 0%nat messageParseError].
Proof.
  assert (H1 : listeners lastStage !! 0%nat
               = Some (playerListener "ABC123" "Alice" (Some 0%nat) 0%nat))
    by (vm_compute; reflexivity).
  assert (H2 : roomObjs lastStage !! 0%nat
               = Some (Room.mk "ABC123" [0%nat; 1%nat]
                         [mkCard spades 12; mkCard clubs 3; mkCard diamonds 9]
                         (Some (mkCard hearts 7)) (Some suit_stage) true 10 12
                         "Alice")) by reflexivity.
  assert (H3 : playerObjs lastStage !! 0%nat
               = Some (Player.mk "Alice" 0 0%nat "ABC123" 10))
    by (vm_compute; reflexivity).
  cbv zeta.
  rewrite (a_guess_that_cannot_be_printed lastStage 0%nat "ABC123" "Alice"
             0%nat 0%nat _ _ (mkCard hearts 7) (mkCard diamonds 9)
             [mkCard spades 12; mkCard clubs 3] 13 (λ _, 0%nat) H1 H2 H3
             eq_refl eq_refl eq_refl).
  split; [reflexivity|]. split; vm_compute; reflexivity.
Defined.

(** * The order of the rooms *)

#[global] Instance older_trans : Transitive older.
Proof. intros a b c. unfold older. lia. Qed.

#[global] Instance older_total : Total older.
Proof. intros a b. unfold older. lia. Qed.

Lemma entries_sorted (σ : Server) : StronglySorted older (entries σ).
Proof. apply (StronglySorted_merge_sort older). Qed.

(** In a well-formed state no two rooms of the map share an address. *)
Lemma entries_inj (σ : Server) (a b : string * Addr) :
  wf σ → a ∈ entries σ → b ∈ entries σ → a.2 = b.2 → a = b.
Proof.
  intros Hwf Ha Hb E. destruct a as [ia ra], b as [ib rb]. simpl in E.
  subst rb. apply elem_of_entries in Ha, Hb.
  destruct (wf_rooms _ Hwf _ _ Ha) as (rm1 & H1 & <-).
  destruct (wf_rooms _ Hwf _ _ Hb) as (rm2 & H2 & <-). congruence.
Qed.

Lemma sorted_filter {A} (R : relation A) (P : A → Prop)
    `{∀ x, Decision (P x)} (l : list A) :
  StronglySorted R l → StronglySorted R (filter P l).
Proof.
  induction 1 as [|x l Hs IH Hall]; [constructor|].
  rewrite filter_cons. destruct (decide _); [|exact IH].
  constructor; [exact IH|]. apply Forall_forall. intros y Hy.
  apply list_elem_of_filter in Hy as [_ Hy].
  by apply (proj1 (Forall_forall _ _) Hall).
Qed.

(** Taking rooms off the map takes them off the list and moves no other
    room. *)
Lemma entries_submap (σ τ : Server) :
  wf σ → rooms τ ⊆ rooms σ →
  entries τ = filter (λ x, rooms τ !! x.1 = Some x.2) (entries σ).
Proof.
  intros Hwf Hsub.
  assert (Hin : ∀ x, x ∈ entries τ → x ∈ entries σ).
  { intros [id r] Hx. apply elem_of_entries.
    apply elem_of_entries in Hx. by eapply lookup_weaken. }
  apply (StronglySorted_unique_strong older).
  - intros x1 x2 H1 H2 H12 H21. apply (entries_inj σ); [done|by apply Hin| |].
    + by apply list_elem_of_filter in H2 as [_ ?].
    + unfold older in *. lia.
  - apply entries_sorted.
  - apply sorted_filter, entries_sorted.
  - apply NoDup_Permutation.
    + apply NoDup_entries.
    + apply NoDup_filter, NoDup_entries.
    + intros [id r]. rewrite list_elem_of_filter, !elem_of_entries. simpl.
      split; [|tauto]. intros H. split; [done|]. by eapply lookup_weaken.
Qed.

(** A room put on the map at the next free address goes to the end of
    the list. *)
Lemma entries_insert (σ τ : Server) (id : string) :
  wf σ → rooms σ !! id = None →
  rooms τ = <[id:=length (roomObjs σ)]> (rooms σ) →
  entries τ = entries σ ++ [(id, length (roomObjs σ))].
Proof.
  intros Hwf Hid Hrooms.
  assert (Hlt : ∀ x, x ∈ entries σ → (x.2 < length (roomObjs σ))%nat).
  { intros [i r] Hx. apply elem_of_entries in Hx.
    destruct (wf_rooms _ Hwf _ _ Hx) as (rm & Hrm & _).
    by apply lookup_lt_Some in Hrm. }
  assert (Hperm : entries τ ≡ₚ entries σ ++ [(id, length (roomObjs σ))]).
  { rewrite !entries_perm, Hrooms, map_to_list_insert by done.
    by rewrite <- Permutation_cons_append. }
  apply (StronglySorted_unique_strong older); [|apply entries_sorted| |done].
  - intros x1 x2 H1 H2 H12 H21. unfold older in *.
    rewrite Hperm in H1.
    apply elem_of_app in H1 as [H1|H1], H2 as [H2|H2].
    + apply (entries_inj σ); [done..|lia].
    + apply list_elem_of_singleton in H2 as ->. apply Hlt in H1. simpl in *.
      lia.
    + apply list_elem_of_singleton in H1 as ->. apply Hlt in H2. simpl in *.
      lia.
    + apply list_elem_of_singleton in H1, H2. congruence.
  - apply StronglySorted_app_2; [|apply entries_sorted|].
    + intros x1 x2 H1 H2. apply list_elem_of_singleton in H2 as ->.
      apply Hlt in H1. unfold older. simpl. lia.
    + repeat constructor.
Qed.

Lemma join_rooms (σ : Server) (ws : Ws) (roomId playerName : string)
    (now : Z) (rnd : Rand) :
  (∀ r, rooms σ !! roomId = Some r → is_Some (roomObjs σ !! r)) →
  rooms (join ws roomId playerName now rnd σ)
  = match rooms σ !! roomId with
    | None => <[roomId:=length (roomObjs σ)]> (rooms σ)
    | Some _ => rooms σ
    end.
Proof.
  intros Hwf. destruct (rooms σ !! roomId) as [r|] eqn:Hroom.
  - destruct (Hwf r eq_refl) as [rm Hr].
    by rewrite (join_existing_room _ _ _ _ _ _ _ _ Hroom Hr).
  - by rewrite (join_new_room _ _ _ _ _ _ Hroom).
Qed.

(** The one way onto the [rooms] map: a request for a room id that is
    not on it. *)
Lemma onConnection_rooms (σ : Server) (ws : Ws)
    (roomParam nameParam : option string) (now : Z) (rnd : Rand) :
  (∀ id r, rooms σ !! id = Some r → is_Some (roomObjs σ !! r)) →
  let τ := onConnection ws roomParam nameParam now rnd σ in
  rooms τ = rooms σ
  ∨ ∃ roomId, roomParam = Some roomId ∧ rooms σ !! roomId = None
              ∧ rooms τ = <[roomId:=length (roomObjs σ)]> (rooms σ).
Proof.
  intros Hwf. cbv zeta. unfold onConnection.
  destruct (missing roomParam && missing nameParam).
  { left. cbv zeta. unfold sendRoomsList. by destruct (isOpen _ _). }
  destruct roomParam as [roomId|], nameParam as [playerName|];
    try (by left).
  destruct (missing (Some roomId) || missing (Some playerName));
    [by left|]. cbv zeta.
  assert (Hjoin : ∀ σ0, rooms σ0 = rooms σ → roomObjs σ0 = roomObjs σ →
            rooms (join ws roomId playerName now rnd σ0) = rooms σ
            ∨ ∃ roomId0, Some roomId = Some roomId0
                         ∧ rooms σ !! roomId0 = None
                         ∧ rooms (join ws roomId playerName now rnd σ0)
                           = <[roomId0:=length (roomObjs σ)]> (rooms σ)).
  { intros σ0 E1 E2. rewrite join_rooms, E1, E2.
    - destruct (rooms σ !! roomId) eqn:Hroom; [by left|].
      right. by exists roomId.
    - intros r. rewrite E1, E2. apply Hwf. }
  destruct (connections σ !! connectionKey roomId playerName) as [old|];
    [|by apply Hjoin].
  destruct (isOpen σ old); [by left|].
  apply Hjoin; by destruct (notClosed _ _).
Qed.

(** X30. The rooms are listed in the order they were opened.  An event
    either opens no room, and then the rooms still on the map are listed
    as before, in the same order; or it is a request for a room id that
    is not on the map, and then this one room is put on the map, at the
    next free address, and goes to the end of the list.  A request with
    both parameters and an unregistered key for an id not on the map is
    of the second kind. *)
Theorem rooms_are_listed_in_the_order_they_were_opened (σ : Server)
    (e : Event) (now : Z) (rnd : Rand) :
  reachable σ →
  let σ' := step e now rnd σ in
  ((rooms σ' ⊆ rooms σ
    ∧ entries σ' = filter (λ x, rooms σ' !! x.1 = Some x.2) (entries σ))
   ∨ (∃ roomId nameParam,
        e = connection (Some roomId) nameParam
        ∧ rooms σ !! roomId = None
        ∧ rooms σ' = <[roomId:=length (roomObjs σ)]> (rooms σ)
        ∧ entries σ' = entries σ ++ [(roomId, length (roomObjs σ))]))
  ∧ (∀ roomId playerName,
       e = connection (Some roomId) (Some playerName) →
       roomId ≠ "" → playerName ≠ "" →
       connections σ !! connectionKey roomId playerName = None →
       rooms σ !! roomId = None →
       entries σ' = entries σ ++ [(roomId, length (roomObjs σ))]).
Proof.
  intros Hreach. cbv zeta. pose proof (reachable_wf _ Hreach) as Hwf.
  assert (Hobj : ∀ id r, rooms σ !! id = Some r → is_Some (roomObjs σ !! r)).
  { intros id r H. destruct (wf_rooms _ Hwf _ _ H) as (rm & -> & _). eauto. }
  split.
  - assert (Hkeep : rooms (step e now rnd σ) ⊆ rooms σ →
              rooms (step e now rnd σ) ⊆ rooms σ
              ∧ entries (step e now rnd σ)
                = filter (λ x, rooms (step e now rnd σ) !! x.1 = Some x.2)
                    (entries σ)).
    { intros Hsub. split; [done|]. by apply entries_submap. }
    assert (He : (∃ rp np, e = connection rp np)
                 ∨ ∀ rp np, e ≠ connection rp np)
      by (destruct e; eauto; right; discriminate).
    destruct He as [(rp & np & ->)|He].
    + simpl.
      destruct (onConnection_rooms (setSockets (sockets σ ++ [OPEN]) σ)
                  (length (sockets σ)) rp np now rnd Hobj)
        as [E|(roomId & -> & Hnone & E)].
      * left. apply Hkeep. simpl. by rewrite E.
      * right. exists roomId, np. split; [done|]. split; [done|].
        split; [done|]. by apply entries_insert.
    + left. apply Hkeep. apply frame_rooms, frame_step_event.
      * intros ws l Hl. by apply (wf_listeners _ Hwf).
      * exact He.
  - intros roomId playerName -> Hr Hn Hkey Hroom. simpl.
    rewrite onConnection_join by done.
    apply entries_insert; [done..|].
    rewrite join_rooms by (intros r; apply Hobj). simpl. by rewrite Hroom.
Qed.

Lemma rooms_are_listed_in_the_order_they_were_opened_witness :
  entries bThenA = [("b", 0%nat); ("a", 1%nat)].
Proof.
  change bThenA
    with (step (connection (Some "a") (Some "Al")) 2 (λ _, 0%nat)
            (step (connection (Some "b") (Some "Bea")) 1 (λ _, 0%nat)
               initial)).
  rewrite (proj2 (rooms_are_listed_in_the_order_they_were_opened
                    (step (connection (Some "b") (Some "Bea")) 1 (λ _, 0%nat)
                       initial)
                    (connection (Some "a") (Some "Al")) 2 (λ _, 0%nat)
                    (reachable_step _ _ _ _ reachable_initial))
             "a" "Al" eq_refl);
    [vm_compute; reflexivity|discriminate|discriminate
    |vm_compute; reflexivity|vm_compute; reflexivity].
Defined.
